(** * File-backed lobby helpers of [src/utils/file_io.py]

    A shallow embedding of the helpers in [file_io.py] and the properties
    the specification states about them.

    Modelling frame.
    - Text is a [string] of 8-bit characters (code points below 256); the
      Python string methods used by the source ([strip], [upper], [int],
      [str]) are written out on that alphabet.
    - The file system is a finite map from paths to files.  A file has a
      text content and two permission bits; opening a file that may not be
      read (or written) raises [PermissionError], an [IOError].  Creating a
      file that does not exist always succeeds: directories are not part of
      the model, and [os.makedirs] has no effect but to raise on the empty
      path.
    - No file of the world sits where a path needs a directory, and no
      file has a path that ends with a slash.
    - Exceptions are values of [exn]; only the class of an exception is
      kept, not its message.
    - [print] and [sleep] append to the event log of the world.
    - The decoder reads the JSON texts whose values are null, truth
      values, integers, strings of the alphabet, lists and objects.  A JSON
      text beyond these (a number with a fraction or an exponent, NaN, an
      infinity, an escape of a code point above 255) is JSON for
      [json_syntax] and is not decoded; the properties that depend on the
      difference say which of the two they are about.
    - Other processes come in through [among]: they act after each call of
      [synchronize_start_time] on the file system.  Everywhere else a call
      runs alone. *)

From Stdlib Require Import ZArith String Ascii List Lia Bool.
From stdpp Require Import gmap strings list.

Local Open Scope Z_scope.

(** ** Characters and strings *)

Definition code (c : ascii) : Z := Z.of_N (N_of_ascii c).

Definition chr (z : Z) : ascii := ascii_of_N (Z.to_N z).

Definition is_digit (c : ascii) : bool := (48 <=? code c) && (code c <=? 57).

Definition digit_val (c : ascii) : Z := code c - 48.

Definition digit_chr (d : Z) : ascii := chr (48 + d).

(** [str.isspace] on code points below 256. *)
Definition isspace (c : ascii) : bool :=
  let n := code c in
  ((9 <=? n) && (n <=? 13)) || ((28 <=? n) && (n <=? 32))
  || (n =? 133) || (n =? 160).

Definition str_eqb (a b : string) : bool := bool_decide (a = b).

Definition str_len (s : string) : nat := String.length s.

Fixpoint lstrip (s : string) : string :=
  match s with
  | EmptyString => EmptyString
  | String c r => if isspace c then lstrip r else s
  end.

Fixpoint rstrip (s : string) : string :=
  match s with
  | EmptyString => EmptyString
  | String c r =>
      match rstrip r with
      | EmptyString => if isspace c then EmptyString else String c EmptyString
      | r' => String c r'
      end
  end.

(** [s.strip()] *)
Definition strip (s : string) : string := rstrip (lstrip s).

(** [c.upper()] for one character of the alphabet: the letters a to z and
    the small letters of Latin-1 move down by 32 to their capitals, and the
    sharp s becomes SS.  The capitals of the micro sign (181) and of y with
    diaeresis (255) are code points above 255; the two are left as they are
    here, and what is stated of [upper] is stated for texts without them
    ([upper_in_alphabet]). *)
Definition upper_char (c : ascii) : string :=
  let n := code c in
  if (97 <=? n) && (n <=? 122) then String (chr (n - 32)) EmptyString
  else if (224 <=? n) && (n <=? 254) && negb (n =? 247)
  then String (chr (n - 32)) EmptyString
  else if n =? 223 then "SS"
  else String c EmptyString.

(** [s.upper()] *)
Fixpoint upper (s : string) : string :=
  match s with
  | EmptyString => EmptyString
  | String c r => upper_char c +:+ upper r
  end.

Fixpoint forall_chars (P : ascii -> bool) (s : string) : bool :=
  match s with
  | EmptyString => true
  | String c r => P c && forall_chars P r
  end.

(** Truth value of a string: [if s]. *)
Definition truthy (s : string) : bool :=
  match s with EmptyString => false | _ => true end.

(** ** [str(n)] and [int(s)] on integers *)

Fixpoint str_digits (fuel : nat) (n : Z) (acc : string) : string :=
  let acc' := String (digit_chr (n mod 10)) acc in
  match fuel with
  | O => acc'
  | S f => if n <? 10 then acc' else str_digits f (n / 10) acc'
  end.

Definition str_nonneg (n : Z) : string :=
  str_digits (Z.to_nat (Z.log2 n)) n EmptyString.

(** [str(z)] *)
Definition py_str (z : Z) : string :=
  if z <? 0 then String "-" (str_nonneg (- z)) else str_nonneg z.

(** Decimal digits, single underscores allowed between two digits. *)
Fixpoint parse_digits (prev_digit : bool) (acc : Z) (s : string) : option Z :=
  match s with
  | EmptyString => if prev_digit then Some acc else None
  | String c r =>
      if is_digit c then parse_digits true (10 * acc + digit_val c) r
      else if Ascii.eqb c "_" then
        (if prev_digit then parse_digits false acc r else None)
      else None
  end.

(** [int(s)]: [None] stands for [ValueError]. *)
Definition py_int (s : string) : option Z :=
  match strip s with
  | EmptyString => None
  | String c r =>
      if Ascii.eqb c "-" then option_map Z.opp (parse_digits false 0 r)
      else if Ascii.eqb c "+" then parse_digits false 0 r
      else parse_digits false 0 (String c r)
  end.

(** ** Python lists: indexing, slicing *)

Definition len {A} (l : list A) : Z := Z.of_nat (length l).

(** [l[i]] with Python's negative indices; [None] stands for [IndexError]. *)
Definition py_index {A} (l : list A) (i : Z) : option A :=
  if (0 <=? i) && (i <? len l) then l !! Z.to_nat i
  else if (- len l <=? i) && (i <? 0) then l !! Z.to_nat (len l + i)
  else None.

(** [l[i:]] *)
Definition py_slice_from {A} (l : list A) (i : Z) : list A :=
  if 0 <=? i then drop (Z.to_nat i) l
  else drop (Z.to_nat (Z.max 0 (len l + i))) l.

(** [x in l] for a list of strings. *)
Definition str_in (x : string) (l : list string) : bool :=
  existsb (str_eqb x) l.

(** ** Exceptions and results *)

Inductive exn : Type :=
| FileNotFoundError
| PermissionError
| IOError
| JSONDecodeError
| ValueError
| TypeError
| AttributeError
| KeyError
| IndexError
| ZeroDivisionError.

(** [isinstance(e, IOError)]: [IOError] is [OSError], with its subclasses. *)
Definition is_IOError (e : exn) : bool :=
  match e with
  | FileNotFoundError | PermissionError | IOError => true
  | _ => false
  end.

(** [isinstance(e, ValueError)]: [json.JSONDecodeError] is a subclass. *)
Definition is_ValueError (e : exn) : bool :=
  match e with
  | ValueError | JSONDecodeError => true
  | _ => false
  end.

Definition is_JSONDecodeError (e : exn) : bool :=
  match e with
  | JSONDecodeError => true
  | _ => false
  end.

(** The outcome of a call: it returns, it raises, or the fuel given to a
    loop ran out before the loop ended. *)
Inductive result (A : Type) : Type :=
| Ok (a : A)
| Raise (e : exn)
| OutOfFuel.

Arguments Ok {A} a.
Arguments Raise {A} e.
Arguments OutOfFuel {A}.

(** ** The world: files and the event log *)

Record file : Type := File {
  content : string;
  readable : bool;
  writable : bool
}.

Inductive event : Type :=
| EvOpenRead (path : string)
| EvWrite (path : string) (text : string)
| EvPrint (msg : string)
| EvSleep (secs : Z).

Record World : Type := mkWorld {
  files : gmap string file;
  events : list event
}.

Definition log (e : event) (w : World) : World :=
  mkWorld (files w) (events w ++ [e]).

(** A computation reads and changes the world and returns or raises. *)
Definition M (A : Type) : Type := World -> World * result A.

Definition ret {A} (a : A) : M A := fun w => (w, Ok a).

Definition raise {A} (e : exn) : M A := fun w => (w, Raise e).

Definition bind {A B} (m : M A) (k : A -> M B) : M B :=
  fun w =>
    match m w with
    | (w', Ok a) => k a w'
    | (w', Raise e) => (w', Raise e)
    | (w', OutOfFuel) => (w', OutOfFuel)
    end.

Notation "x <- m ;; k" := (bind m (fun x => k))
  (at level 100, m at next level, right associativity).
Notation "m ;;; k" := (bind m (fun _ => k))
  (at level 100, right associativity).

(** [try: body except <classes>: handler] *)
Definition try_except {A} (body : M A) (catches : exn -> bool)
    (handler : exn -> M A) : M A :=
  fun w =>
    match body w with
    | (w', Ok a) => (w', Ok a)
    | (w', Raise e) => if catches e then handler e w' else (w', Raise e)
    | (w', OutOfFuel) => (w', OutOfFuel)
    end.

Definition of_option {A} (e : exn) (o : option A) : M A :=
  match o with
  | Some a => ret a
  | None => raise e
  end.

(** [os.path.exists(path)] *)
Definition path_exists (path : string) : M bool :=
  fun w =>
    (w, Ok (match files w !! path with Some _ => true | None => false end)).

(** [with open(path, "r") as f: f.read()] *)
Definition read_text (path : string) : M string :=
  fun w =>
    let w' := log (EvOpenRead path) w in
    match files w !! path with
    | None => (w', Raise FileNotFoundError)
    | Some f =>
        if readable f then (w', Ok (content f))
        else (w', Raise PermissionError)
    end.

(** [with open(path, "w") as f: f.write(text)] *)
Definition write_text (path : string) (text : string) : M unit :=
  fun w =>
    match files w !! path with
    | None =>
        (mkWorld (<[path := File text true true]> (files w))
                 (events w ++ [EvWrite path text]), Ok tt)
    | Some f =>
        if writable f
        then (mkWorld (<[path := File text (readable f) true]> (files w))
                      (events w ++ [EvWrite path text]), Ok tt)
        else (w, Raise PermissionError)
    end.

Definition print (msg : string) : M unit :=
  fun w => (log (EvPrint msg) w, Ok tt).

Definition sleep (secs : Z) : M unit :=
  fun w => (log (EvSleep secs) w, Ok tt).

(** ** [read_new_messages] *)

(** [f.readlines()] in text mode: a line ends at "\n", "\r" or "\r\n", and
    every line end is handed over as "\n". *)
Fixpoint readlines_from (cur : string) (s : string) : list string :=
  match s with
  | EmptyString =>
      match cur with EmptyString => [] | _ => [cur] end
  | String c r =>
      if Ascii.eqb c "010" then (cur +:+ String "010" "") :: readlines_from "" r
      else if Ascii.eqb c "013" then
        match r with
        | String c' r' =>
            if Ascii.eqb c' "010"
            then (cur +:+ String "010" "") :: readlines_from "" r'
            else (cur +:+ String "010" "") :: readlines_from "" r
        | EmptyString => [cur +:+ String "010" ""]
        end
      else readlines_from (cur +:+ String c "") r
  end.

Definition readlines (s : string) : list string := readlines_from "" s.

(** [[line.strip() for line in lines if line.strip()]] *)
Definition stripped_nonblank (lines : list string) : list string :=
  map strip (filter (fun l => truthy (strip l) = true) lines).

(** [read_new_messages], lines 56 to 63 of the source. *)
Definition read_new_messages (path : string) (last_line : Z)
  : M (list string * list string * Z) :=
  text <- read_text path ;;
  let lines := readlines text in
  let full_chat_list := stripped_nonblank lines in
  let new_messages_list := py_slice_from full_chat_list last_line in
  let new_message_count := len new_messages_list in
  let last_line := last_line + new_message_count in
  ret (full_chat_list, new_messages_list, last_line).

(** ** [SequentialAssigner]: the cursor *)

Record SequentialAssigner : Type := mkAssigner {
  list_path : string;
  index_path : string;
  key : string;
  items : list string
}.

(** [SequentialAssigner._read_index], lines 92 to 103. *)
Definition _read_index (self : SequentialAssigner) : M Z :=
  e <- path_exists (index_path self) ;;
  if negb e then ret 0
  else
    try_except
      (text <- read_text (index_path self) ;;
       idx <- of_option ValueError (py_int (strip text)) ;;
       if negb ((0 <=? idx) && (idx <? len (items self)))
       then raise ValueError
       else ret idx)
      (fun e => is_ValueError e || is_IOError e)
      (fun _ => ret 0).

(** [SequentialAssigner._write_index], lines 105 to 110: every exception is
    caught and reported; the message printed is kept without the text of
    the exception. *)
Definition _write_index (self : SequentialAssigner) (idx : Z) : M unit :=
  try_except
    (write_text (index_path self) (py_str idx))
    (fun _ => true)
    (fun _ => print "Error writing index file").

(** [a % b] on integers; [None] stands for [ZeroDivisionError]. *)
Definition py_mod (a b : Z) : option Z :=
  if b =? 0 then None else Some (a mod b).

Definition invalid_item_warning (selected_item : string) : string :=
  "Warning: Invalid or empty item selected: '" +:+ selected_item +:+ "'".

(** [SequentialAssigner.assign], lines 112 to 128. *)
Definition assign (self : SequentialAssigner) : M string :=
  idx <- _read_index self ;;
  selected_item <- of_option IndexError (py_index (items self) idx) ;;
  selected_item <-
    (if negb (truthy selected_item) || negb (str_in selected_item (items self))
     then
       print (invalid_item_warning selected_item) ;;;
       of_option IndexError (py_index (items self) 0)
     else ret selected_item) ;;
  next_idx <- of_option ZeroDivisionError (py_mod (idx + 1) (len (items self))) ;;
  _write_index self next_idx ;;;
  ret selected_item.

(** ** JSON values, [json.dump(v, f, indent=2)] and [json.load(f)] *)

#[local] Unset Elimination Schemes.
Inductive json : Type :=
| JNull
| JBool (b : bool)
| JInt (z : Z)
| JStr (s : string)
| JArr (l : list json)
| JObj (kvs : list (string * json)).
#[local] Set Elimination Schemes.

Definition dquote : ascii := "034".
Definition backslash : ascii := "092".

Definition hex_chr (d : Z) : ascii :=
  if d <? 10 then chr (48 + d) else chr (87 + d).

Definition hex_val (c : ascii) : option Z :=
  let n := code c in
  if (48 <=? n) && (n <=? 57) then Some (n - 48)
  else if (97 <=? n) && (n <=? 102) then Some (n - 87)
  else if (65 <=? n) && (n <=? 70) then Some (n - 55)
  else None.

(** One character of a string literal, as [ensure_ascii=True] writes it. *)
Definition encode_char (c : ascii) : string :=
  let n := code c in
  if n =? 34 then String backslash (String dquote "")
  else if n =? 92 then String backslash (String backslash "")
  else if n =? 10 then String backslash "n"
  else if n =? 13 then String backslash "r"
  else if n =? 9 then String backslash "t"
  else if n =? 8 then String backslash "b"
  else if n =? 12 then String backslash "f"
  else if (n <? 32) || (126 <? n)
  then String backslash
         (String "u" (String "0" (String "0"
            (String (hex_chr (n / 16)) (String (hex_chr (n mod 16)) "")))))
  else String c "".

Fixpoint encode_chars (s : string) : string :=
  match s with
  | EmptyString => EmptyString
  | String c r => encode_char c +:+ encode_chars r
  end.

Definition encode_string (s : string) : string :=
  String dquote (encode_chars s +:+ String dquote "").

Fixpoint spaces (n : nat) : string :=
  match n with
  | O => EmptyString
  | S k => String " " (spaces k)
  end.

(** A line break followed by the indentation of nesting level [lvl]. *)
Definition newline_indent (lvl : nat) : string :=
  String "010" (spaces (2 * lvl)).

Fixpoint join (sep : string) (parts : list string) : string :=
  match parts with
  | [] => EmptyString
  | [p] => p
  | p :: ps => p +:+ sep +:+ join sep ps
  end.

Fixpoint dumps_at (lvl : nat) (v : json) : string :=
  match v with
  | JNull => "null"
  | JBool true => "true"
  | JBool false => "false"
  | JInt z => py_str z
  | JStr s => encode_string s
  | JArr [] => "[]"
  | JArr l =>
      "[" +:+ join ","
                (map (fun x => newline_indent (S lvl) +:+ dumps_at (S lvl) x) l)
          +:+ newline_indent lvl +:+ "]"
  | JObj [] => "{}"
  | JObj kvs =>
      "{" +:+ join ","
                (map (fun kv => newline_indent (S lvl) +:+ encode_string (fst kv)
                                +:+ ": " +:+ dumps_at (S lvl) (snd kv)) kvs)
          +:+ newline_indent lvl +:+ "}"
  end.

(** [json.dumps(v, indent=2)] *)
Definition json_dumps (v : json) : string := dumps_at 0 v.

Definition is_json_ws (c : ascii) : bool :=
  let n := code c in (n =? 32) || (n =? 9) || (n =? 10) || (n =? 13).

Fixpoint skip_ws (s : string) : string :=
  match s with
  | EmptyString => EmptyString
  | String c r => if is_json_ws c then skip_ws r else s
  end.

Definition unescape (e : ascii) : option ascii :=
  let n := code e in
  if n =? 34 then Some dquote
  else if n =? 92 then Some backslash
  else if n =? 47 then Some "/"%char
  else if n =? 98 then Some "008"%char
  else if n =? 102 then Some "012"%char
  else if n =? 110 then Some "010"%char
  else if n =? 114 then Some "013"%char
  else if n =? 116 then Some "009"%char
  else None.

Definition hex4 (a b c d : ascii) : option Z :=
  match hex_val a, hex_val b, hex_val c, hex_val d with
  | Some x, Some y, Some z, Some t => Some (((x * 16 + y) * 16 + z) * 16 + t)
  | _, _, _, _ => None
  end.

Definition cons_char (c : ascii) (o : option (string * string))
  : option (string * string) :=
  match o with
  | Some (s, r) => Some (String c s, r)
  | None => None
  end.

(** The body of a string literal, after its opening quote.  Escapes of a
    code point of 256 or more are outside the alphabet and rejected. *)
Fixpoint scanstring (s : string) : option (string * string) :=
  match s with
  | EmptyString => None
  | String c r =>
      if Ascii.eqb c dquote then Some (EmptyString, r)
      else if Ascii.eqb c backslash then
        match r with
        | EmptyString => None
        | String e r1 =>
            if Ascii.eqb e "u" then
              match r1 with
              | String h1 (String h2 (String h3 (String h4 r2))) =>
                  match hex4 h1 h2 h3 h4 with
                  | Some n =>
                      if n <? 256 then cons_char (chr n) (scanstring r2)
                      else None
                  | None => None
                  end
              | _ => None
              end
            else
              match unescape e with
              | Some ch => cons_char ch (scanstring r1)
              | None => None
              end
        end
      else if code c <? 32 then None
      else cons_char c (scanstring r)
  end.

Fixpoint take_digits (acc : Z) (s : string) : Z * string :=
  match s with
  | EmptyString => (acc, EmptyString)
  | String c r =>
      if is_digit c then take_digits (10 * acc + digit_val c) r else (acc, s)
  end.

(** [0|[1-9][0-9]*] *)
Definition parse_nat_lit (s : string) : option (Z * string) :=
  match s with
  | EmptyString => None
  | String c r =>
      if Ascii.eqb c "0" then Some (0, r)
      else if is_digit c then Some (take_digits (digit_val c) r)
      else None
  end.

Definition expect (c : ascii) (s : string) : option string :=
  match s with
  | String c' r => if Ascii.eqb c c' then Some r else None
  | EmptyString => None
  end.

Definition parse_int_lit (s : string) : option (Z * string) :=
  match expect "-" s with
  | Some r =>
      match parse_nat_lit r with
      | Some (n, r') => Some (- n, r')
      | None => None
      end
  | None => parse_nat_lit s
  end.

Fixpoint strip_prefix (p s : string) : option string :=
  match p, s with
  | EmptyString, _ => Some s
  | String a p', String b s' => if Ascii.eqb a b then strip_prefix p' s' else None
  | String _ _, EmptyString => None
  end.

(** [d[k] = v] on a dict kept as the list of its items in insertion order. *)
Fixpoint dict_set (k : string) (v : json) (d : list (string * json))
  : list (string * json) :=
  match d with
  | [] => [(k, v)]
  | (k', v') :: d' =>
      if str_eqb k' k then (k', v) :: d' else (k', v') :: dict_set k v d'
  end.

(** [dict(pairs)] *)
Definition dict_of_pairs (pairs : list (string * json)) : list (string * json) :=
  fold_left (fun d kv => dict_set (fst kv) (snd kv) d) pairs [].

Fixpoint parse_value (fuel : nat) (s : string) {struct fuel}
  : option (json * string) :=
  match fuel with
  | O => None
  | S f =>
      match s with
      | EmptyString => None
      | String c r =>
          if Ascii.eqb c dquote then
            match scanstring r with
            | Some (str, r') => Some (JStr str, r')
            | None => None
            end
          else if Ascii.eqb c "{" then
            match expect "}" (skip_ws r) with
            | Some r' => Some (JObj [], r')
            | None =>
                match parse_members f (skip_ws r) with
                | Some (pairs, r') => Some (JObj (dict_of_pairs pairs), r')
                | None => None
                end
            end
          else if Ascii.eqb c "[" then
            match expect "]" (skip_ws r) with
            | Some r' => Some (JArr [], r')
            | None =>
                match parse_elems f (skip_ws r) with
                | Some (vs, r') => Some (JArr vs, r')
                | None => None
                end
            end
          else if Ascii.eqb c "n" then
            option_map (fun r' => (JNull, r')) (strip_prefix "ull" r)
          else if Ascii.eqb c "t" then
            option_map (fun r' => (JBool true, r')) (strip_prefix "rue" r)
          else if Ascii.eqb c "f" then
            option_map (fun r' => (JBool false, r')) (strip_prefix "alse" r)
          else
            match parse_int_lit s with
            | Some (z, r') => Some (JInt z, r')
            | None => None
            end
      end
  end
with parse_elems (fuel : nat) (s : string) {struct fuel}
  : option (list json * string) :=
  match fuel with
  | O => None
  | S f =>
      match parse_value f s with
      | None => None
      | Some (v, r) =>
          match skip_ws r with
          | String c r1 =>
              if Ascii.eqb c "," then
                match parse_elems f (skip_ws r1) with
                | Some (vs, r') => Some (v :: vs, r')
                | None => None
                end
              else if Ascii.eqb c "]" then Some ([v], r1)
              else None
          | EmptyString => None
          end
      end
  end
with parse_members (fuel : nat) (s : string) {struct fuel}
  : option (list (string * json) * string) :=
  match fuel with
  | O => None
  | S f =>
      match s with
      | String q r =>
          if Ascii.eqb q dquote then
            match scanstring r with
            | None => None
            | Some (k, r1) =>
                match expect ":" (skip_ws r1) with
                | Some r2 =>
                    match parse_value f (skip_ws r2) with
                    | None => None
                    | Some (v, r3) =>
                        match skip_ws r3 with
                        | String c r4 =>
                            if Ascii.eqb c "," then
                              match parse_members f (skip_ws r4) with
                              | Some (kvs, r') => Some ((k, v) :: kvs, r')
                              | None => None
                              end
                            else if Ascii.eqb c "}" then Some ([(k, v)], r4)
                            else None
                        | EmptyString => None
                        end
                    end
                | None => None
                end
            end
          else None
      | EmptyString => None
      end
  end.

(** [json.loads(s)] on the texts of the model.  [None] stands for
    [json.JSONDecodeError] when the text is not JSON, which [json_syntax]
    decides; a text that is JSON and gives [None] is beyond the values of
    the model. *)
Definition json_loads (s : string) : option json :=
  match parse_value (2 * str_len s + 2) (skip_ws s) with
  | Some (v, r) =>
      match skip_ws r with
      | EmptyString => Some v
      | _ => None
      end
  | None => None
  end.

(** *** The texts that [json.load] takes for JSON

    The grammar of the decoder of Python, values left aside: beside what
    [parse_value] reads it takes a number with a fraction or an exponent,
    [NaN], [Infinity] and [-Infinity], and in a string the escape of any
    code point.  A text that is not of this grammar is what [json.load]
    raises [JSONDecodeError] on. *)

(** The rest after the body of a string literal. *)
Fixpoint scan_string (s : string) : option string :=
  match s with
  | EmptyString => None
  | String c r =>
      if Ascii.eqb c dquote then Some r
      else if Ascii.eqb c backslash then
        match r with
        | EmptyString => None
        | String e r1 =>
            if Ascii.eqb e "u" then
              match r1 with
              | String h1 (String h2 (String h3 (String h4 r2))) =>
                  match hex4 h1 h2 h3 h4 with
                  | Some _ => scan_string r2
                  | None => None
                  end
              | _ => None
              end
            else
              match unescape e with
              | Some _ => scan_string r1
              | None => None
              end
        end
      else if code c <? 32 then None
      else scan_string r
  end.

(** [[0-9]+]: the rest after one digit or more. *)
Definition scan_digits (s : string) : option string :=
  match s with
  | String c r => if is_digit c then Some (snd (take_digits 0 r)) else None
  | EmptyString => None
  end.

(** [(\.[0-9]+)?]: the rest after a fraction, if there is one. *)
Definition scan_fraction (s : string) : string :=
  match s with
  | String c r =>
      if Ascii.eqb c "." then
        match scan_digits r with
        | Some r' => r'
        | None => s
        end
      else s
  | EmptyString => s
  end.

(** [([eE][-+]?[0-9]+)?]: the rest after an exponent, if there is one. *)
Definition scan_exponent (s : string) : string :=
  match s with
  | String c r =>
      if Ascii.eqb c "e" || Ascii.eqb c "E" then
        let r1 :=
          match r with
          | String sign r' =>
              if Ascii.eqb sign "-" || Ascii.eqb sign "+" then r' else r
          | EmptyString => r
          end in
        match scan_digits r1 with
        | Some r' => r'
        | None => s
        end
      else s
  | EmptyString => s
  end.

(** A number: an integer, then the fraction and the exponent it may have. *)
Definition scan_number (s : string) : option string :=
  match parse_int_lit s with
  | Some (_, r) => Some (scan_exponent (scan_fraction r))
  | None => None
  end.

Fixpoint scan_value (fuel : nat) (s : string) {struct fuel} : option string :=
  match fuel with
  | O => None
  | S f =>
      match s with
      | EmptyString => None
      | String c r =>
          if Ascii.eqb c dquote then scan_string r
          else if Ascii.eqb c "{" then
            match expect "}" (skip_ws r) with
            | Some r' => Some r'
            | None => scan_members f (skip_ws r)
            end
          else if Ascii.eqb c "[" then
            match expect "]" (skip_ws r) with
            | Some r' => Some r'
            | None => scan_elems f (skip_ws r)
            end
          else if Ascii.eqb c "n" then strip_prefix "ull" r
          else if Ascii.eqb c "t" then strip_prefix "rue" r
          else if Ascii.eqb c "f" then strip_prefix "alse" r
          else if Ascii.eqb c "N" then strip_prefix "aN" r
          else if Ascii.eqb c "I" then strip_prefix "nfinity" r
          else
            match strip_prefix "-Infinity" s with
            | Some r' => Some r'
            | None => scan_number s
            end
      end
  end
with scan_elems (fuel : nat) (s : string) {struct fuel} : option string :=
  match fuel with
  | O => None
  | S f =>
      match scan_value f s with
      | None => None
      | Some r =>
          match skip_ws r with
          | String c r1 =>
              if Ascii.eqb c "," then scan_elems f (skip_ws r1)
              else if Ascii.eqb c "]" then Some r1
              else None
          | EmptyString => None
          end
      end
  end
with scan_members (fuel : nat) (s : string) {struct fuel} : option string :=
  match fuel with
  | O => None
  | S f =>
      match s with
      | String q r =>
          if Ascii.eqb q dquote then
            match scan_string r with
            | None => None
            | Some r1 =>
                match expect ":" (skip_ws r1) with
                | Some r2 =>
                    match scan_value f (skip_ws r2) with
                    | None => None
                    | Some r3 =>
                        match skip_ws r3 with
                        | String c r4 =>
                            if Ascii.eqb c "," then scan_members f (skip_ws r4)
                            else if Ascii.eqb c "}" then Some r4
                            else None
                        | EmptyString => None
                        end
                    end
                | None => None
                end
            end
          else None
      | EmptyString => None
      end
  end.

(** The text is JSON for [json.load]: one value, with white space around
    it at most. *)
Definition json_syntax (s : string) : bool :=
  match scan_value (2 * str_len s + 2) (skip_ws s) with
  | Some r =>
      match skip_ws r with
      | EmptyString => true
      | _ => false
      end
  | None => false
  end.

(** ** Reading JSON values the way the source does *)

(** [for p in v]: a list yields its elements, a dict its keys, a string its
    characters; anything else is not iterable. *)
Definition py_iter (v : json) : M (list json) :=
  match v with
  | JArr l => ret l
  | JObj kvs => ret (map (fun kv => JStr (fst kv)) kvs)
  | JStr s => ret (map (fun c => JStr (String c "")) (list_ascii_of_string s))
  | _ => raise TypeError
  end.

Fixpoint dict_get (k : string) (d : list (string * json)) : option json :=
  match d with
  | [] => None
  | (k', v) :: d' => if str_eqb k' k then Some v else dict_get k d'
  end.

(** [v[k]] for a string [k]. *)
Definition py_getitem (v : json) (k : string) : M json :=
  match v with
  | JObj kvs => of_option KeyError (dict_get k kvs)
  | _ => raise TypeError
  end.

Definition json_eq_str (v : json) (s : string) : bool :=
  match v with
  | JStr t => str_eqb t s
  | _ => false
  end.

Fixpoint substring_of (needle hay : string) : bool :=
  match strip_prefix needle hay with
  | Some _ => true
  | None =>
      match hay with
      | EmptyString => false
      | String _ r => substring_of needle r
      end
  end.

(** [k in v] for a string [k]. *)
Definition py_contains (k : string) (v : json) : M bool :=
  match v with
  | JObj kvs => ret (match dict_get k kvs with Some _ => true | None => false end)
  | JArr l => ret (existsb (fun x => json_eq_str x k) l)
  | JStr s => ret (substring_of k s)
  | _ => raise TypeError
  end.

Definition is_list (v : json) : bool :=
  match v with
  | JArr _ => true
  | _ => false
  end.

(** [v.append(x)] *)
Definition py_append (v : json) (x : json) : M json :=
  match v with
  | JArr l => ret (JArr (l ++ [x]))
  | _ => raise AttributeError
  end.

Definition json_load (text : string) : M json :=
  of_option JSONDecodeError (json_loads text).

(** ** [SequentialAssigner]: loading the items *)

(** [[item.strip().upper() for item in l if item.strip()]]: only a string
    has a [strip] method. *)
Fixpoint strip_upper_items (l : list json) : M (list string) :=
  match l with
  | [] => ret []
  | JStr item :: l' =>
      rest <- strip_upper_items l' ;;
      ret (if truthy (strip item) then upper (strip item) :: rest else rest)
  | _ :: _ => raise AttributeError
  end.

(** [SequentialAssigner._load_items], lines 73 to 90, on the two attributes
    it reads.  The [ValueError] raised inside the [try] is no
    [JSONDecodeError] and passes the handler. *)
Definition _load_items (list_path key : string) : M (list string) :=
  e <- path_exists list_path ;;
  if negb e then raise FileNotFoundError
  else
    items <-
      try_except
        (text <- read_text list_path ;;
         data <- json_load text ;;
         present <- py_contains key data ;;
         (if negb present then raise ValueError
          else
            bound <- py_getitem data key ;;
            if negb (is_list bound) then raise ValueError else ret tt) ;;;
         bound <- py_getitem data key ;;
         elems <- py_iter bound ;;
         strip_upper_items elems)
        (fun e => is_JSONDecodeError e || is_IOError e)
        (fun _ => raise IOError) ;;
    match items with
    | [] => raise ValueError
    | _ => ret items
    end.

(** [SequentialAssigner(list_path, index_path, key)], lines 66 to 71. *)
Definition SequentialAssigner_init (list_path index_path key : string)
  : M SequentialAssigner :=
  items <- _load_items list_path key ;;
  ret (mkAssigner list_path index_path key items).

(** ** Dates and times *)

Record datetime : Type := mkDatetime {
  year : Z;
  month : Z;
  day : Z;
  hour : Z;
  minute : Z;
  second : Z;
  microsecond : Z
}.

Definition is_leap (y : Z) : bool :=
  ((y mod 4 =? 0) && negb (y mod 100 =? 0)) || (y mod 400 =? 0).

Definition days_in_month (y m : Z) : Z :=
  if m =? 2 then (if is_leap y then 29 else 28)
  else if (m =? 4) || (m =? 6) || (m =? 9) || (m =? 11) then 30
  else 31.

(** The values the [datetime] constructor accepts. *)
Definition valid_datetime (t : datetime) : bool :=
  (1 <=? year t) && (year t <=? 9999)
  && (1 <=? month t) && (month t <=? 12)
  && (1 <=? day t) && (day t <=? days_in_month (year t) (month t))
  && (0 <=? hour t) && (hour t <=? 23)
  && (0 <=? minute t) && (minute t <=? 59)
  && (0 <=? second t) && (second t <=? 59)
  && (0 <=? microsecond t) && (microsecond t <=? 999999).

Definition pad2 (n : Z) (rest : string) : string :=
  String (digit_chr (n / 10 mod 10)) (String (digit_chr (n mod 10)) rest).

(** Four digits. *)
Definition pad4 (n : Z) (rest : string) : string :=
  String (digit_chr (n / 1000 mod 10))
    (String (digit_chr (n / 100 mod 10)) (pad2 n rest)).

(** [t.strftime("%Y-%m-%d %H:%M:%S")].  The year is written as the C
    library of Linux writes it, with the digits it has and no zeros in
    front: four digits from the year 1000 on. *)
Definition strftime (t : datetime) : string :=
  py_str (year t) +:+ String "-" (pad2 (month t) (String "-" (pad2 (day t)
    (String " " (pad2 (hour t) (String ":" (pad2 (minute t)
      (String ":" (pad2 (second t) EmptyString))))))))).

(** The time that [strftime] keeps: whole seconds. *)
Definition truncate_seconds (t : datetime) : datetime :=
  mkDatetime (year t) (month t) (day t) (hour t) (minute t) (second t) 0.

(** A character class, and an alternative of a directive's pattern: a
    sequence of classes, with the number the matched text stands for. *)
Definition between (lo hi : ascii) (c : ascii) : bool :=
  (code lo <=? code c) && (code c <=? code hi).

Fixpoint match_classes (classes : list (ascii -> bool)) (acc : Z) (s : string)
  : option (Z * string) :=
  match classes with
  | [] => Some (acc, s)
  | cl :: classes' =>
      match s with
      | EmptyString => None
      | String c r =>
          if cl c
          then match_classes classes'
                 (if is_digit c then 10 * acc + digit_val c else acc) r
          else None
      end
  end.

Fixpoint match_alternatives (alts : list (list (ascii -> bool))) (s : string)
  : option (Z * string) :=
  match alts with
  | [] => None
  | a :: alts' =>
      match match_classes a 0 s with
      | Some res => Some res
      | None => match_alternatives alts' s
      end
  end.

Definition one (c : ascii) : ascii -> bool := Ascii.eqb c.

(** [%Y]: four digits. *)
Definition directive_Y : list (list (ascii -> bool)) :=
  [[is_digit; is_digit; is_digit; is_digit]].

(** [%m]: 1[0-2] | 0[1-9] | [1-9] *)
Definition directive_m : list (list (ascii -> bool)) :=
  [[one "1"; between "0" "2"]; [one "0"; between "1" "9"]; [between "1" "9"]].

(** [%d]: 3[01] | [12][0-9] | 0[1-9] | [1-9] | a blank and [1-9] *)
Definition directive_d : list (list (ascii -> bool)) :=
  [[one "3"; between "0" "1"]; [between "1" "2"; is_digit];
   [one "0"; between "1" "9"]; [between "1" "9"]; [one " "; between "1" "9"]].

(** [%H]: 2[0-3] | [01][0-9] | [0-9] *)
Definition directive_H : list (list (ascii -> bool)) :=
  [[one "2"; between "0" "3"]; [between "0" "1"; is_digit]; [is_digit]].

(** [%M]: [0-5][0-9] | [0-9] *)
Definition directive_M : list (list (ascii -> bool)) :=
  [[between "0" "5"; is_digit]; [is_digit]].

(** [%S]: 6[01] | [0-5][0-9] | [0-9] *)
Definition directive_S : list (list (ascii -> bool)) :=
  [[one "6"; between "0" "1"]; [between "0" "5"; is_digit]; [is_digit]].

(** A blank of the format stands for one or more white-space characters. *)
Definition expect_spaces (s : string) : option string :=
  match s with
  | String c r => if isspace c then Some (lstrip r) else None
  | EmptyString => None
  end.

(** [datetime.strptime(s, "%Y-%m-%d %H:%M:%S")]: [None] stands for
    [ValueError].  Each directive takes its first alternative that matches;
    a shorter one would leave a digit in front of the separator. *)
Definition strptime (s : string) : option datetime :=
  '(y, s) ← match_alternatives directive_Y s;
  s ← expect "-" s;
  '(m, s) ← match_alternatives directive_m s;
  s ← expect "-" s;
  '(d, s) ← match_alternatives directive_d s;
  s ← expect_spaces s;
  '(hh, s) ← match_alternatives directive_H s;
  s ← expect ":" s;
  '(mi, s) ← match_alternatives directive_M s;
  s ← expect ":" s;
  '(ss, s) ← match_alternatives directive_S s;
  match s with
  | EmptyString =>
      let t := mkDatetime y m d hh mi ss 0 in
      if valid_datetime t then Some t else None
  | _ => None
  end.

(** ** Game and player state, the lobby roster and the start time *)

(** Modelled from the spec: [utils.states] is not part of the sources at
    hand.  A player state carries the attributes that [file_io.py] reads and
    writes; the fields its dataclass declares, which decide what [asdict]
    returns and what the constructor accepts, are parameters below. *)
Record PlayerState : Type := mkPlayerState {
  lobby_id : string;
  code_name : string;
  timekeeper : bool;
  starttime : option datetime
}.

(** Modelled from the spec: [utils.states] is not part of the sources at
    hand.  The attributes of a game state that [file_io.py] uses. *)
Record GameState : Type := mkGameState {
  start_time_path : string;
  player_path : string;
  players : list PlayerState
}.

Definition ends_with_slash (s : string) : bool :=
  match String.rev s with
  | String "/" _ => true
  | _ => false
  end.

(** [os.path.join(a, b)] for a relative [b]. *)
Definition path_join (a b : string) : string :=
  if ends_with_slash a || negb (truthy a) then a +:+ b else a +:+ "/" +:+ b.

(** [f"./data/runtime/lobbies/lobby_{ps.lobby_id}"] *)
Definition lobby_dir (ps : PlayerState) : string :=
  "./data/runtime/lobbies/lobby_" +:+ lobby_id ps.

Definition lobby_file_path (ps : PlayerState) : string :=
  path_join (lobby_dir ps) "players.json".

(** [p[:p.rfind("/") + 1]], when [p] has a slash. *)
Fixpoint up_to_last_slash (p : string) : option string :=
  match p with
  | EmptyString => None
  | String c r =>
      match up_to_last_slash r with
      | Some h => Some (String c h)
      | None => if Ascii.eqb c "/" then Some (String c EmptyString) else None
      end
  end.

(** [s.rstrip("/")] *)
Fixpoint rstrip_slashes (s : string) : string :=
  match s with
  | EmptyString => EmptyString
  | String c r =>
      match rstrip_slashes r with
      | EmptyString => if Ascii.eqb c "/" then EmptyString else String c EmptyString
      | r' => String c r'
      end
  end.

(** [os.path.dirname(p)] *)
Definition dirname (p : string) : string :=
  match up_to_last_slash p with
  | None => EmptyString
  | Some head =>
      if forall_chars (Ascii.eqb "/") head then head else rstrip_slashes head
  end.

(** [os.makedirs(d, exist_ok=True)]: directories are not part of the world,
    so making those of a path leaves the world as it is; the empty path is
    no directory and raises. *)
Definition makedirs (d : string) : M unit :=
  if truthy d then ret tt else raise FileNotFoundError.

(** [os.path.exists(path)] once [os.makedirs(os.path.dirname(path))] has
    returned.  A path that ends with a slash is the path of the directory
    just made, which exists; any other path exists when it is a file of the
    world. *)
Definition path_exists_in_made_dir (path : string) : M bool :=
  e <- path_exists path ;;
  ret (e || ends_with_slash path).

(** [init_game_file], lines 44 to 48. *)
Definition init_game_file (path : string) : M unit :=
  makedirs (dirname path) ;;;
  e <- path_exists_in_made_dir path ;;
  if negb e then write_text path "" else ret tt.

(** [any(p["code_name"] == name for p in players)], stopping at the first
    match. *)
Fixpoint any_code_name (name : string) (players : list json) : M bool :=
  match players with
  | [] => ret false
  | p :: rest =>
      v <- py_getitem p "code_name" ;;
      if json_eq_str v name then ret true else any_code_name name rest
  end.

(** [while not os.path.exists(path): print(...); sleep(1)], in a call that
    runs alone. *)
Fixpoint wait_for_file (fuel : nat) (path : string) : M unit :=
  match fuel with
  | O => fun w => (w, OutOfFuel)
  | S fuel' =>
      e <- path_exists path ;;
      if negb e then
        print "Waiting for the timekeeper to initialize the start time..." ;;;
        sleep 1 ;;;
        wait_for_file fuel' path
      else ret tt
  end.

(** *** Other processes

    What other processes do to the world while a call runs: [among env m]
    is the call [m] on the file system, followed by what the others do.
    With [alone] there are no others. *)
Definition among {A} (env : World -> World) (m : M A) : M A :=
  fun w => let (w', r) := m w in (env w', r).

Definition alone : World -> World := fun w => w.

(** [while not os.path.exists(path): print(...); sleep(1)], among other
    processes. *)
Fixpoint wait_for_file_among (env : World -> World) (fuel : nat) (path : string)
  : M unit :=
  match fuel with
  | O => fun w => (w, OutOfFuel)
  | S fuel' =>
      e <- among env (path_exists path) ;;
      if negb e then
        print "Waiting for the timekeeper to initialize the start time..." ;;;
        among env (sleep 1) ;;;
        wait_for_file_among env fuel' path
      else ret tt
  end.

Fixpoint map_M {A B} (f : A -> M B) (l : list A) : M (list B) :=
  match l with
  | [] => ret []
  | x :: l' =>
      y <- f x ;;
      ys <- map_M f l' ;;
      ret (y :: ys)
  end.

(** *** Objects changed in place

    The game state and the player state that a call is given are changed
    in place; they are as the call left them when it raises, too. *)
Definition Objects : Type := (GameState * PlayerState)%type.

Definition MO (A : Type) : Type :=
  Objects -> World -> (World * Objects) * result A.

Definition ret_o {A} (a : A) : MO A := fun o w => ((w, o), Ok a).

Definition bind_o {A B} (m : MO A) (k : A -> MO B) : MO B :=
  fun o w =>
    match m o w with
    | ((w', o'), Ok a) => k a o' w'
    | ((w', o'), Raise e) => ((w', o'), Raise e)
    | ((w', o'), OutOfFuel) => ((w', o'), OutOfFuel)
    end.

Notation "x <~ m ;; k" := (bind_o m (fun x => k))
  (at level 100, m at next level, right associativity).
Notation "m ~;; k" := (bind_o m (fun _ => k))
  (at level 100, right associativity).

(** A computation on the world, which leaves the objects alone. *)
Definition on_world {A} (m : M A) : MO A :=
  fun o w => let (w', r) := m w in ((w', o), r).

Definition get_game : MO GameState := fun o w => ((w, o), Ok (fst o)).

(** [gs.players = l] *)
Definition set_players (l : list PlayerState) : MO unit :=
  fun o w =>
    ((w, (mkGameState (start_time_path (fst o)) (player_path (fst o)) l, snd o)),
     Ok tt).

(** [ps.timekeeper = b] *)
Definition set_timekeeper (b : bool) : MO unit :=
  fun o w =>
    ((w, (fst o, mkPlayerState (lobby_id (snd o)) (code_name (snd o)) b
                   (starttime (snd o)))),
     Ok tt).

(** [ps.starttime = t] *)
Definition set_starttime (t : datetime) : MO unit :=
  fun o w =>
    ((w, (fst o, mkPlayerState (lobby_id (snd o)) (code_name (snd o))
                   (timekeeper (snd o)) (Some t))),
     Ok tt).

Section PlayerStates.

(** [dataclasses.asdict(ps)]: the declared fields of a player, in order. *)
Variable asdict : PlayerState -> list (string * json).

(** The constructor call that unpacks a dict [p] into keyword arguments:
    the player, or the exception the constructor raises on those keys. *)
Variable PlayerState_new : list (string * json) -> PlayerState + exn.

Definition PlayerState_kwargs (p : json) : M PlayerState :=
  match p with
  | JObj kw =>
      match PlayerState_new kw with
      | inl ps => ret ps
      | inr e => raise e
      end
  | _ => raise TypeError
  end.

(** [save_player_to_lobby_file], lines 131 to 155. *)
Definition save_player_to_lobby_file (ps : PlayerState) : M unit :=
  let lobby_path := lobby_dir ps in
  makedirs lobby_path ;;;
  let file_path := path_join lobby_path "players.json" in
  e <- path_exists file_path ;;
  players <-
    (if e then
       text <- read_text file_path ;;
       try_except (json_load text) is_JSONDecodeError (fun _ => ret (JArr []))
     else ret (JArr [])) ;;
  elems <- py_iter players ;;
  found <- any_code_name (code_name ps) elems ;;
  players <-
    (if negb found then py_append players (JObj (asdict ps))
     else ret players) ;;
  write_text file_path (json_dumps players).

(** [load_players_from_lobby], lines 157 to 163. *)
Definition load_players_from_lobby (gs : GameState) : M (list PlayerState) :=
  e <- path_exists (player_path gs) ;;
  if negb e then ret []
  else
    text <- read_text (player_path gs) ;;
    data <- json_load text ;;
    elems <- py_iter data ;;
    map_M PlayerState_kwargs elems.

(** [synchronize_start_time], lines 9 to 41, on the two objects it is given.
    [now] is what [datetime.now()] returns when it is called; [fuel] bounds
    the iterations of the waiting loop; [env] is what the other processes do
    after each call on the file system. *)
Definition synchronize_start_time_in_place (env : World -> World)
    (now : datetime) (fuel : nat) : MO unit :=
  gs <~ get_game ;;
  e <~ on_world (among env (path_exists (start_time_path gs))) ;;
  if negb e then
    loaded <~ on_world (among env (load_players_from_lobby gs)) ;;
    set_players loaded ~;;
    set_timekeeper true ~;;
    on_world (among env (init_game_file (start_time_path gs))) ~;;
    set_starttime now ~;;
    let start_time_str := strftime now in
    on_world (among env (write_text (start_time_path gs) start_time_str))
  else
    on_world (wait_for_file_among env fuel (start_time_path gs)) ~;;
    text <~ on_world (among env (read_text (start_time_path gs))) ;;
    let start_time_str := strip text in
    t <~ on_world (of_option ValueError (strptime start_time_str)) ;;
    set_starttime t.

(** A call of [synchronize_start_time] that runs alone, as its caller sees
    it: the outcome, with the two objects when the call returns. *)
Definition synchronize_start_time (now : datetime) (fuel : nat)
    (gs : GameState) (ps : PlayerState) : M (GameState * PlayerState) :=
  fun w =>
    match synchronize_start_time_in_place alone now fuel (gs, ps) w with
    | ((w', o'), Ok _) => (w', Ok o')
    | ((w', _), Raise e) => (w', Raise e)
    | ((w', _), OutOfFuel) => (w', OutOfFuel)
    end.

End PlayerStates.

(** ** Vocabulary of the properties *)

(** The cursor file can be read and its text is the integer [i]. *)
Definition index_file_holds (self : SequentialAssigner) (w : World) (i : Z) : Prop :=
  exists f, files w !! index_path self = Some f /\ readable f = true
            /\ py_int (strip (content f)) = Some i.

(** The text of the cursor file, if there is one, is an index of the list. *)
Definition cursor_in_bounds (self : SequentialAssigner) (w : World) : Prop :=
  match files w !! index_path self with
  | None => True
  | Some f =>
      exists j, py_int (strip (content f)) = Some j /\ 0 <= j < len (items self)
  end.

(** What [_load_items] leaves in an assigner: some items, none empty. *)
Definition valid_items (self : SequentialAssigner) : Prop :=
  items self <> [] /\ Forall (fun x => truthy x = true) (items self).

(** [open(path, "w")] would succeed. *)
Definition can_write (w : World) (path : string) : bool :=
  match files w !! path with
  | Some f => writable f
  | None => true
  end.

Definition written_file (w : World) (path text : string) : file :=
  match files w !! path with
  | Some f => File text (readable f) true
  | None => File text true true
  end.

(** The world after a call of [assign] that read the cursor file and wrote
    the cursor [j] to it. *)
Definition cursor_written (self : SequentialAssigner) (w : World) (j : Z) : World :=
  mkWorld (<[index_path self := File (py_str j) true true]> (files w))
          (events w ++ [EvOpenRead (index_path self);
                        EvWrite (index_path self) (py_str j)]).

(** [k] consecutive calls of [assign], with their results in order. *)
Fixpoint assign_many (k : nat) (self : SequentialAssigner) : M (list string) :=
  match k with
  | O => ret []
  | S k' =>
      x <- assign self ;;
      xs <- assign_many k' self ;;
      ret (x :: xs)
  end.

(** [k] items of [l] from index [i] on, going round. *)
Fixpoint cycle_from (l : list string) (i : Z) (k : nat) : list string :=
  match k with
  | O => []
  | S k' =>
      match py_index l i with
      | Some x => x :: cycle_from l ((i + 1) mod len l) k'
      | None => []
      end
  end.

(** The items that a list of source strings yields. *)
Definition clean_items (source : list string) : list string :=
  map (fun s => upper (strip s)) (filter (fun s => truthy (strip s) = true) source).

(** A value as [json.load] builds it: no dict has two items with one key. *)
Fixpoint json_wf (v : json) : bool :=
  match v with
  | JArr l => forallb json_wf l
  | JObj kvs =>
      bool_decide (NoDup (map fst kvs)) && forallb (fun kv => json_wf (snd kv)) kvs
  | _ => true
  end.

(** The number of steps the decoder spends on a value. *)
Fixpoint json_size (v : json) : nat :=
  match v with
  | JArr l => S (fold_right (fun x n => S (json_size x + n)) O l)
  | JObj kvs => S (fold_right (fun kv n => S (json_size (snd kv) + n)) O kvs)
  | _ => 1
  end.

(** The text after a number may not go on with a digit. *)
Definition no_digit_head (s : string) : bool :=
  match s with
  | EmptyString => true
  | String c _ => negb (is_digit c)
  end.

(** The first character of an encoded value. *)
Definition value_head (c : ascii) : Prop :=
  is_json_ws c = false /\ Ascii.eqb "]" c = false /\ Ascii.eqb "}" c = false.

(** The decoder, given enough fuel, reads [v] back from its encoding at any
    nesting level, whatever text follows. *)
Definition roundtrips (v : json) : Prop :=
  forall lvl rest fuel,
    json_wf v = true -> (json_size v <= fuel)%nat -> no_digit_head rest = true ->
    parse_value fuel (dumps_at lvl v +:+ rest) = Some (v, rest).

(** A computation whose result and whose effect on the files depend on the
    files only, not on the event log. *)
Definition files_only {A} (m : M A) : Prop :=
  forall w w', files w = files w' ->
    files (fst (m w)) = files (fst (m w')) /\ snd (m w) = snd (m w').

(** A computation that leaves the world as it is. *)
Definition pure_M {A} (m : M A) : Prop :=
  exists r, forall w, m w = (w, r).

(** The roster file at [path] holds the well-formed list [pl], one record
    of which carries the code name [name]. *)
Definition saved_roster (path name : string) (w : World) (pl : list json) : Prop :=
  files w !! path = Some (File (json_dumps (JArr pl)) true true)
  /\ json_wf (JArr pl) = true
  /\ forall w', any_code_name name pl w' = (w', Ok true).

(** ** Example data *)

Definition ex_items : list string := ["ALPHA"; "BRAVO"; "CHARLIE"].

Definition ex_assigner : SequentialAssigner :=
  mkAssigner "names.json" "names.idx" "names" ex_items.

(** A world whose only file is the cursor file of [ex_assigner]. *)
Definition ex_cursor_world (text : string) (can_read can_write : bool) : World :=
  mkWorld {[ "names.idx" := File text can_read can_write ]} [].

(** A world whose only file is the list file of [ex_assigner], holding the
    encoding of [v]. *)
Definition ex_list_world (v : json) : World :=
  mkWorld {[ "names.json" := File (json_dumps v) true true ]} [].

Definition ex_names : json :=
  JObj [("names", JArr [JStr " alpha "; JStr "  "; JStr "bravo"; JStr "Charlie"])].

(** A list file whose key is bound to a list with a number in it. *)
Definition ex_names_with_number : json :=
  JObj [("names", JArr [JInt 1; JStr "alpha"])].

(** A chat log of three messages, with a blank line in it. *)
Definition ex_chat_world : World :=
  mkWorld {[ "chat.txt" :=
               File ("hello" +:+ String "010" ("  " +:+ String "013" (String "010"
                       (" how are you " +:+ String "010" "fine")))) true true ]} [].

(** A constructor over two fields, [lobby_id] and [code_name], both
    strings; it raises [TypeError] on any other keys. *)
Definition ex_PlayerState_new (kw : list (string * json)) : PlayerState + exn :=
  match kw with
  | [(k1, JStr l); (k2, JStr c)] =>
      if str_eqb k1 "lobby_id" && str_eqb k2 "code_name"
      then inl (mkPlayerState l c false None)
      else if str_eqb k2 "lobby_id" && str_eqb k1 "code_name"
      then inl (mkPlayerState c l false None)
      else inr TypeError
  | _ => inr TypeError
  end.

(** The fields of that dataclass. *)
Definition ex_asdict (ps : PlayerState) : list (string * json) :=
  [("lobby_id", JStr (lobby_id ps)); ("code_name", JStr (code_name ps))].

Definition ex_player (name : string) : PlayerState :=
  mkPlayerState "7" name false None.

Definition ex_game : GameState :=
  mkGameState "./data/runtime/lobbies/lobby_7/start_time.txt"
              "./data/runtime/lobbies/lobby_7/players.json" [].

(** A world whose only file is the roster of [ex_game], holding the
    encoding of [v]. *)
Definition ex_roster_world (v : json) : World :=
  mkWorld {[ "./data/runtime/lobbies/lobby_7/players.json"
               := File (json_dumps v) true true ]} [].

Definition ex_now : datetime := mkDatetime 2024 2 29 9 5 59 123456.

(** A world in which the roster of [ex_game] is not valid JSON and its
    start-time file does not exist. *)
Definition ex_corrupt_roster_world : World :=
  mkWorld {[ "./data/runtime/lobbies/lobby_7/players.json" := File "{" true true ]} [].

(** A computation that only adds events, none of them a [sleep]. *)
Definition no_sleep {A} (m : M A) : Prop :=
  forall w, exists evs,
    events (fst (m w)) = events w ++ evs /\ forall n, EvSleep n ∉ evs.

(** A computation that ends, by returning or by raising. *)
Definition terminates {A} (m : M A) : Prop :=
  forall w, snd (m w) <> OutOfFuel.

(** ** Vocabulary of the further properties *)

(** The players of [l] saved one after the other. *)
Fixpoint save_all (asdict : PlayerState -> list (string * json))
    (l : list PlayerState) : M unit :=
  match l with
  | [] => ret tt
  | p :: l' => save_player_to_lobby_file asdict p ;;; save_all asdict l'
  end.

(** The records of the players of [l], as a roster holds them. *)
Definition roster_of (asdict : PlayerState -> list (string * json))
    (l : list PlayerState) : json :=
  JArr (map (fun p => JObj (asdict p)) l).

(** A path without a directory part. *)
Definition bare_name (p : string) : bool :=
  forall_chars (fun c => negb (Ascii.eqb c "/")) p.

(** No character that [str.upper] changes: no letter from a to z, no micro
    sign, no sharp s and no small letter of Latin-1. *)
Definition no_lower_case (s : string) : bool :=
  forall_chars (fun c => negb (between "a" "z" c)
                         && negb (code c =? 181)
                         && negb ((223 <=? code c) && (code c <=? 255)
                                  && negb (code c =? 247))) s.

(** The capitals of the characters of [s] are in the alphabet: [s] has no
    micro sign and no y with diaeresis.  On such a text [upper] is
    [str.upper]. *)
Definition upper_in_alphabet (s : string) : bool :=
  forall_chars (fun c => negb (code c =? 181) && negb (code c =? 255)) s.

(** The characters of the alphabet. *)
Definition all_chars : list ascii := map ascii_of_nat (seq 0 256).

(** No white space. *)
Definition not_space (c : ascii) : bool := negb (isspace c).

(** The source strings that yield an item. *)
Definition nonblank (source : list string) : list string :=
  filter (fun s => truthy (strip s) = true) source.

(** The text goes on as a number with a fraction or an exponent would. *)
Definition number_goes_on (s : string) : bool :=
  match s with
  | String c _ => Ascii.eqb c "." || Ascii.eqb c "e" || Ascii.eqb c "E"
  | EmptyString => false
  end.

(** What one round of the waiting loop logs. *)
Definition wait_events : list event :=
  [EvPrint "Waiting for the timekeeper to initialize the start time...";
   EvSleep 1].

(** The world at the next test of the waiting loop, after a round that
    found no file in [w]: the others have acted after the test and after
    the sleep. *)
Definition wait_round (env : World -> World) (w : World) : World :=
  env (log (EvSleep 1)
         (log (EvPrint "Waiting for the timekeeper to initialize the start time...")
            (env w))).

(** The world at the test of the waiting loop that follows [k] rounds. *)
Fixpoint after_waits (env : World -> World) (k : nat) (w : World) : World :=
  match k with
  | O => w
  | S k' => after_waits env k' (wait_round env w)
  end.

Definition is_sleep (e : event) : bool :=
  match e with
  | EvSleep _ => true
  | _ => false
  end.

(** Another process that takes the start-time file of [ex_game] away until
    the caller has slept, and then puts it back. *)
Definition ex_others : World -> World :=
  fun w =>
    if existsb is_sleep (events w)
    then mkWorld (<[start_time_path ex_game := File "2024-02-29 09:05:59" true true]>
                    (files w)) (events w)
    else mkWorld (delete (start_time_path ex_game) (files w)) (events w).

(** A world in which the start time of [ex_game] is written. *)
Definition ex_started_world : World :=
  mkWorld {[ start_time_path ex_game := File "2024-02-29 09:05:59" true true ]} [].

(** A world whose list file holds a text that is not JSON. *)
Definition ex_broken_list_world : World :=
  mkWorld {[ "names.json" := File "[1.5e]" true true ]} [].

(** * Properties *)

(** ** Digits *)

Ltac digit_cases d :=
  let H := fresh in
  assert (H : d = 0 \/ d = 1 \/ d = 2 \/ d = 3 \/ d = 4 \/ d = 5 \/ d = 6
              \/ d = 7 \/ d = 8 \/ d = 9) by lia;
  repeat (destruct H as [H | H]; [subst d; vm_compute; auto | ]);
  subst d; vm_compute; auto.

Lemma is_digit_digit_chr d : 0 <= d < 10 -> is_digit (digit_chr d) = true.
Proof. intros Hd. digit_cases d. Qed.

Lemma digit_val_digit_chr d : 0 <= d < 10 -> digit_val (digit_chr d) = d.
Proof. intros Hd. digit_cases d. Qed.

Lemma is_digit_not_space c : is_digit c = true -> isspace c = false.
Proof.
  unfold is_digit, isspace. intros H.
  apply andb_true_iff in H as [H1 H2].
  apply Z.leb_le in H1, H2.
  repeat match goal with
  | |- context [?a <=? ?b] => destruct (Z.leb_spec a b); try lia
  | |- context [?a =? ?b] => destruct (Z.eqb_spec a b); try lia
  end; reflexivity.
Qed.

Lemma is_digit_not_sign c :
  is_digit c = true -> Ascii.eqb c "-" = false /\ Ascii.eqb c "+" = false
                       /\ Ascii.eqb c "_" = false.
Proof.
  intros H. repeat split; apply Ascii.eqb_neq; intros ->; discriminate H.
Qed.

Lemma mod10_range n : 0 <= n mod 10 < 10.
Proof. apply Z.mod_pos_bound. lia. Qed.

Lemma str_digits_head fuel n acc :
  exists c r, str_digits fuel n acc = String c r /\ is_digit c = true.
Proof.
  revert n acc. induction fuel as [|f IH]; intros n acc; simpl.
  - eexists _, _. split; [reflexivity|]. apply is_digit_digit_chr, mod10_range.
  - destruct (n <? 10).
    + eexists _, _. split; [reflexivity|]. apply is_digit_digit_chr, mod10_range.
    + apply IH.
Qed.

Lemma str_digits_all_digits fuel n acc :
  forall_chars is_digit acc = true ->
  forall_chars is_digit (str_digits fuel n acc) = true.
Proof.
  revert n acc. induction fuel as [|f IH]; intros n acc Hacc; simpl.
  - rewrite is_digit_digit_chr by apply mod10_range. exact Hacc.
  - destruct (n <? 10).
    + simpl. rewrite is_digit_digit_chr by apply mod10_range. exact Hacc.
    + apply IH. simpl. rewrite is_digit_digit_chr by apply mod10_range. exact Hacc.
Qed.

Lemma div10_bound n k : 0 <= k -> 0 <= n < 2 ^ (k + 1) -> 0 <= n / 10 < 2 ^ k.
Proof.
  intros Hk [H0 H1]. split; [apply Z.div_pos; lia|].
  apply Z.div_lt_upper_bound; [lia|].
  rewrite Z.pow_add_r, Z.pow_1_r in H1 by lia. lia.
Qed.

Lemma parse_digits_str_digits fuel : forall n rest,
  0 <= n < 2 ^ (Z.of_nat fuel + 1) ->
  exists k, 0 <= k /\ forall b acc,
    parse_digits b acc (str_digits fuel n rest)
    = parse_digits true (acc * 10 ^ k + n) rest.
Proof.
  induction fuel as [|f IH]; intros n rest Hn.
  - exists 1. split; [lia|]. intros b acc. simpl.
    rewrite is_digit_digit_chr, digit_val_digit_chr by apply mod10_range.
    change (2 ^ (Z.of_nat 0 + 1)) with 2 in Hn.
    rewrite Z.mod_small by lia. f_equal. lia.
  - simpl str_digits. destruct (Z.ltb_spec n 10) as [Hlt|Hge].
    + exists 1. split; [lia|]. intros b acc. simpl.
      rewrite is_digit_digit_chr, digit_val_digit_chr by apply mod10_range.
      rewrite Z.mod_small by lia. f_equal. lia.
    + destruct (IH (n / 10) (String (digit_chr (n mod 10)) rest)) as (k & Hk & E).
      { apply div10_bound; [lia|]. rewrite Nat2Z.inj_succ in Hn.
        replace (Z.of_nat f + 1 + 1) with (Z.succ (Z.of_nat f) + 1) by lia. exact Hn. }
      exists (k + 1). split; [lia|]. intros b acc. rewrite E. simpl.
      rewrite is_digit_digit_chr, digit_val_digit_chr by apply mod10_range.
      f_equal. rewrite Z.pow_add_r, Z.pow_1_r by lia.
      pose proof (Z.div_mod n 10 ltac:(lia)). lia.
Qed.

Lemma log2_fuel n : 0 <= n -> 0 <= n < 2 ^ (Z.of_nat (Z.to_nat (Z.log2 n)) + 1).
Proof.
  intros Hn. rewrite Z2Nat.id by apply Z.log2_nonneg.
  split; [exact Hn|].
  destruct (Z.eq_dec n 0) as [->|Hnz]; [reflexivity|].
  replace (Z.log2 n + 1) with (Z.succ (Z.log2 n)) by lia.
  apply Z.log2_spec. lia.
Qed.

Lemma parse_digits_str_nonneg n :
  0 <= n -> parse_digits false 0 (str_nonneg n) = Some n.
Proof.
  intros Hn. unfold str_nonneg.
  destruct (parse_digits_str_digits _ n EmptyString (log2_fuel n Hn)) as (k & _ & E).
  rewrite E. cbn [parse_digits]. f_equal; lia.
Qed.

Lemma lstrip_no_space s : forall_chars (fun c => negb (isspace c)) s = true -> lstrip s = s.
Proof.
  destruct s as [|c r]; simpl; [reflexivity|].
  intros H. apply andb_true_iff in H as [H _].
  apply negb_true_iff in H. now rewrite H.
Qed.

Lemma rstrip_no_space s : forall_chars (fun c => negb (isspace c)) s = true -> rstrip s = s.
Proof.
  induction s as [|c r IH]; simpl; [reflexivity|].
  intros H. apply andb_true_iff in H as [Hc Hr].
  apply negb_true_iff in Hc. rewrite (IH Hr), Hc. now destruct r.
Qed.

Lemma strip_no_space s : forall_chars (fun c => negb (isspace c)) s = true -> strip s = s.
Proof.
  intros H. unfold strip. rewrite (lstrip_no_space s H). now apply rstrip_no_space.
Qed.

Lemma forall_chars_impl (P Q : ascii -> bool) s :
  (forall c, P c = true -> Q c = true) ->
  forall_chars P s = true -> forall_chars Q s = true.
Proof.
  intros HPQ. induction s as [|c r IH]; simpl; [auto|].
  intros H. apply andb_true_iff in H as [Hc Hr].
  now rewrite (HPQ c Hc), (IH Hr).
Qed.

Lemma digits_no_space s :
  forall_chars is_digit s = true -> forall_chars (fun c => negb (isspace c)) s = true.
Proof.
  apply forall_chars_impl. intros c Hc. now rewrite (is_digit_not_space c Hc).
Qed.

Lemma strip_str_nonneg n : strip (str_nonneg n) = str_nonneg n.
Proof.
  apply strip_no_space, digits_no_space, str_digits_all_digits. reflexivity.
Qed.

(** [int(str(n))] gives [n] back, for a cursor value [n]. *)
Lemma py_int_py_str n : 0 <= n -> py_int (py_str n) = Some n.
Proof.
  intros Hn. unfold py_int, py_str.
  destruct (Z.ltb_spec n 0); [lia|].
  rewrite strip_str_nonneg.
  pose proof (parse_digits_str_nonneg n Hn) as E.
  unfold str_nonneg in *.
  destruct (str_digits_head (Z.to_nat (Z.log2 n)) n EmptyString) as (c & r & Es & Hc).
  rewrite Es in *. destruct (is_digit_not_sign c Hc) as (-> & -> & _). exact E.
Qed.

Lemma strip_py_str n : 0 <= n -> strip (py_str n) = py_str n.
Proof.
  intros Hn. unfold py_str. destruct (Z.ltb_spec n 0); [lia|]. apply strip_str_nonneg.
Qed.

(** ** [strftime] and [strptime] *)

Lemma digit_chr_not_space d : 0 <= d < 10 -> isspace (digit_chr d) = false.
Proof. intros Hd. apply is_digit_not_space, is_digit_digit_chr, Hd. Qed.

Lemma match_year y rest :
  0 <= y <= 9999 ->
  match_alternatives directive_Y (pad4 y rest) = Some (y, rest).
Proof.
  intros Hy. unfold directive_Y, pad4, pad2.
  cbn [match_alternatives match_classes].
  rewrite !is_digit_digit_chr, !digit_val_digit_chr by apply mod10_range.
  do 2 f_equal. Z.div_mod_to_equations. lia.
Qed.

Lemma below_sixty_ind (P : Z -> Prop) :
  (forall k : nat, (k < 60)%nat -> P (Z.of_nat k)) ->
  forall n, 0 <= n < 60 -> P n.
Proof.
  intros H n Hn. rewrite <- (Z2Nat.id n) by lia. apply H. lia.
Qed.

(** A fact about the two digits of a number below sixty, case by case. *)
Ltac below_sixty n Hb :=
  let k := fresh "k" in
  let Hk := fresh "Hk" in
  pattern n; apply below_sixty_ind; [|exact Hb];
  intros k Hk;
  do 60 (destruct k as [|k];
         [intros; first [exfalso; lia | vm_compute; reflexivity]|]);
  exfalso; lia.

Lemma match_month m rest :
  1 <= m <= 12 ->
  match_alternatives directive_m (pad2 m rest) = Some (m, rest).
Proof.
  intros Hm. assert (Hb : 0 <= m < 60) by lia. revert rest Hm. below_sixty m Hb.
Qed.

Lemma match_day d rest :
  1 <= d <= 31 ->
  match_alternatives directive_d (pad2 d rest) = Some (d, rest).
Proof.
  intros Hd. assert (Hb : 0 <= d < 60) by lia. revert rest Hd. below_sixty d Hb.
Qed.

Lemma match_hour h rest :
  0 <= h <= 23 ->
  match_alternatives directive_H (pad2 h rest) = Some (h, rest).
Proof.
  intros Hh. assert (Hb : 0 <= h < 60) by lia. revert rest Hh. below_sixty h Hb.
Qed.

Lemma match_minute m rest :
  0 <= m <= 59 ->
  match_alternatives directive_M (pad2 m rest) = Some (m, rest).
Proof.
  intros Hm. assert (Hb : 0 <= m < 60) by lia. revert rest Hm. below_sixty m Hb.
Qed.

Lemma match_second s rest :
  0 <= s <= 59 ->
  match_alternatives directive_S (pad2 s rest) = Some (s, rest).
Proof.
  intros Hs. assert (Hb : 0 <= s < 60) by lia. revert rest Hs. below_sixty s Hb.
Qed.

Lemma valid_datetime_fields t :
  valid_datetime t = true ->
  1 <= year t <= 9999 /\ 1 <= month t <= 12
  /\ 1 <= day t <= days_in_month (year t) (month t)
  /\ 0 <= hour t <= 23 /\ 0 <= minute t <= 59 /\ 0 <= second t <= 59
  /\ 0 <= microsecond t <= 999999.
Proof.
  unfold valid_datetime. intros H.
  repeat (apply andb_true_iff in H as [H ?]).
  repeat match goal with
  | E : (_ <=? _) = true |- _ => apply Z.leb_le in E
  end.
  lia.
Qed.

Lemma days_in_month_le y m : days_in_month y m <= 31.
Proof.
  unfold days_in_month.
  repeat match goal with
  | |- context [if ?b then _ else _] => destruct b
  end; lia.
Qed.

Lemma valid_datetime_truncate t :
  valid_datetime t = true -> valid_datetime (truncate_seconds t) = true.
Proof.
  intros H.
  unfold valid_datetime, truncate_seconds in *.
  cbn [year month day hour minute second microsecond] in *.
  repeat (apply andb_true_iff in H as [H ?]).
  repeat (apply andb_true_iff; split); try assumption; reflexivity.
Qed.

Lemma lstrip_pad2 n rest : lstrip (pad2 n rest) = pad2 n rest.
Proof.
  unfold pad2. cbn [lstrip]. now rewrite digit_chr_not_space by apply mod10_range.
Qed.

(** From the year 1000 on [str] writes a year on four digits. *)
Lemma py_str_four_digits y rest :
  1000 <= y <= 9999 -> py_str y +:+ rest = pad4 y rest.
Proof.
  intros Hy. unfold py_str, str_nonneg.
  destruct (Z.ltb_spec y 0) as [|_]; [lia|].
  assert (Hl : 9 <= Z.log2 y).
  { change 9 with (Z.log2 1000). apply Z.log2_le_mono. lia. }
  destruct (Z.to_nat (Z.log2 y)) as [|[|[|f]]] eqn:Ef; try lia.
  cbn [str_digits].
  destruct (Z.ltb_spec y 10) as [|_]; [lia|].
  assert (H1 : 100 <= y / 10 < 1000).
  { split; [apply Z.div_le_lower_bound; lia|apply Z.div_lt_upper_bound; lia]. }
  destruct (Z.ltb_spec (y / 10) 10) as [|_]; [lia|].
  assert (E2 : y / 10 / 10 = y / 100) by (rewrite Z.div_div by lia; reflexivity).
  assert (H2 : 10 <= y / 100 < 100).
  { split; [apply Z.div_le_lower_bound; lia|apply Z.div_lt_upper_bound; lia]. }
  rewrite E2. destruct (Z.ltb_spec (y / 100) 10) as [|_]; [lia|].
  assert (E3 : y / 100 / 10 = y / 1000) by (rewrite Z.div_div by lia; reflexivity).
  assert (H3 : 1 <= y / 1000 < 10).
  { split; [apply Z.div_le_lower_bound; lia|apply Z.div_lt_upper_bound; lia]. }
  rewrite E3.
  assert (E4 : str_digits f (y / 1000)
                 (String (digit_chr ((y / 100) mod 10))
                    (String (digit_chr ((y / 10) mod 10))
                       (String (digit_chr (y mod 10)) "")))
               = String (digit_chr ((y / 1000) mod 10))
                   (String (digit_chr ((y / 100) mod 10))
                      (String (digit_chr ((y / 10) mod 10))
                         (String (digit_chr (y mod 10)) "")))).
  { destruct f as [|f]; cbn [str_digits]; [reflexivity|].
    destruct (Z.ltb_spec (y / 1000) 10) as [_|]; [reflexivity|lia]. }
  rewrite E4. reflexivity.
Qed.

Lemma strftime_four_digits t :
  1000 <= year t <= 9999 ->
  strftime t
  = pad4 (year t) (String "-" (pad2 (month t) (String "-" (pad2 (day t)
      (String " " (pad2 (hour t) (String ":" (pad2 (minute t)
        (String ":" (pad2 (second t) EmptyString)))))))))).
Proof. intros Hy. unfold strftime. now apply py_str_four_digits. Qed.

(** Parsing the text that [strftime] wrote gives the time back, to the
    second, for a year of four digits. *)
Lemma strptime_strftime t :
  valid_datetime t = true -> 1000 <= year t ->
  strptime (strftime t) = Some (truncate_seconds t).
Proof.
  intros H Hy1000.
  pose proof (valid_datetime_fields t H) as (Hy & Hm & Hd & Hh & Hmi & Hs & _).
  pose proof (days_in_month_le (year t) (month t)).
  pose proof (valid_datetime_truncate t H) as Hv.
  rewrite strftime_four_digits by lia. unfold strptime.
  rewrite match_year by lia. cbn [mbind option_bind expect Ascii.eqb Bool.eqb].
  rewrite match_month by lia. cbn [mbind option_bind expect Ascii.eqb Bool.eqb].
  rewrite match_day by lia. cbn [mbind option_bind expect_spaces].
  change (isspace " ") with true. cbn iota. rewrite lstrip_pad2.
  cbn [mbind option_bind].
  rewrite match_hour by lia. cbn [mbind option_bind expect Ascii.eqb Bool.eqb].
  rewrite match_minute by lia. cbn [mbind option_bind expect Ascii.eqb Bool.eqb].
  rewrite match_second by lia. cbn [mbind option_bind].
  unfold truncate_seconds in Hv. now rewrite Hv.
Qed.

Lemma rstrip_cons c r : rstrip r = r -> r <> EmptyString -> rstrip (String c r) = String c r.
Proof. intros E Hne. cbn [rstrip]. rewrite E. now destruct r. Qed.

Lemma strip_strftime t :
  1000 <= year t <= 9999 -> strip (strftime t) = strftime t.
Proof.
  intros Hy. rewrite strftime_four_digits by exact Hy.
  unfold strip, pad4.
  unfold pad2 at 1. cbn [lstrip].
  rewrite digit_chr_not_space by apply mod10_range.
  unfold pad2.
  repeat (apply rstrip_cons; [|discriminate]).
  cbn [rstrip]. now rewrite digit_chr_not_space by apply mod10_range.
Qed.

(** A year below 1000 is written on fewer than four digits, and is not
    read back. *)
Lemma strptime_strftime_short_year t :
  1 <= year t < 1000 -> strptime (strftime t) = None.
Proof.
  intros Hy. unfold strftime, strptime.
  assert (E : exists a, match_alternatives directive_Y
                          (py_str (year t) +:+ String "-" a) = None
                        /\ py_str (year t) +:+ String "-" a
                           = py_str (year t) +:+ String "-"
                               (pad2 (month t) (String "-" (pad2 (day t)
                                 (String " " (pad2 (hour t) (String ":" (pad2 (minute t)
                                   (String ":" (pad2 (second t) EmptyString)))))))))).
  { eexists. split; [|reflexivity].
    generalize (pad2 (month t) (String "-" (pad2 (day t)
                 (String " " (pad2 (hour t) (String ":" (pad2 (minute t)
                   (String ":" (pad2 (second t) EmptyString))))))))).
    intros a. remember (year t) as y eqn:Ey. clear Ey.
    assert (Hk : exists k : nat, (k < 1000)%nat /\ y = Z.of_nat k).
    { exists (Z.to_nat y). lia. }
    destruct Hk as (k & Hk & ->).
    do 1000 (destruct k as [|k]; [first [lia | reflexivity]|]). lia. }
  destruct E as (a & E1 & E2). rewrite <- E2, E1. reflexivity.
Qed.

(** ** JSON: what the encoder writes, the decoder reads back *)

Lemma app_cons_str c (a b : string) : String c a +:+ b = String c (a +:+ b).
Proof. reflexivity. Qed.

Lemma app_nil_l_str (a : string) : "" +:+ a = a.
Proof. reflexivity. Qed.

Lemma app_assoc_str (a b c : string) : (a +:+ b) +:+ c = a +:+ (b +:+ c).
Proof.
  induction a as [|x a IH]; [reflexivity|].
  rewrite !app_cons_str. now rewrite IH.
Qed.

Lemma app_nil_r_str (a : string) : a +:+ "" = a.
Proof.
  induction a as [|x a IH]; [reflexivity|].
  rewrite app_cons_str. now rewrite IH.
Qed.

Ltac norm_app := rewrite ?app_cons_str, ?app_nil_l_str, ?app_assoc_str.

Lemma json_ind' (P : json -> Prop) :
  P JNull -> (forall b, P (JBool b)) -> (forall z, P (JInt z)) ->
  (forall s, P (JStr s)) ->
  (forall l, Forall P l -> P (JArr l)) ->
  (forall kvs, Forall (fun kv => P (snd kv)) kvs -> P (JObj kvs)) ->
  forall v, P v.
Proof.
  intros Hn Hb Hz Hs Ha Ho.
  fix IH 1. intros [ | b | z | s | l | kvs].
  - exact Hn.
  - apply Hb.
  - apply Hz.
  - apply Hs.
  - apply Ha. induction l as [|x l IHl]; constructor; [apply IH|exact IHl].
  - apply Ho. induction kvs as [|[k x] kvs IHl]; constructor; [apply IH|exact IHl].
Qed.

(** *** String literals *)

Lemma scanstring_encode_char c r :
  scanstring (encode_char c +:+ r) = cons_char c (scanstring r).
Proof. destruct c as [[] [] [] [] [] [] [] []]; reflexivity. Qed.

Lemma scanstring_encode_chars s r :
  scanstring (encode_chars s +:+ String dquote r) = Some (s, r).
Proof.
  induction s as [|c s IH]; [reflexivity|].
  cbn [encode_chars]. rewrite app_assoc_str, scanstring_encode_char, IH.
  reflexivity.
Qed.

Lemma scanstring_encode_string s r :
  exists body, encode_string s +:+ r = String dquote body
               /\ scanstring body = Some (s, r).
Proof.
  exists (encode_chars s +:+ String dquote r). split.
  - unfold encode_string. now norm_app.
  - apply scanstring_encode_chars.
Qed.

(** *** Numbers *)

Lemma str_digits_app fuel : forall n acc rest,
  str_digits fuel n acc +:+ rest = str_digits fuel n (acc +:+ rest).
Proof.
  induction fuel as [|f IH]; intros n acc rest; cbn [str_digits].
  - reflexivity.
  - destruct (n <? 10); [reflexivity|]. now rewrite IH.
Qed.

Lemma take_digits_str_digits fuel : forall n tail,
  0 <= n < 2 ^ (Z.of_nat fuel + 1) ->
  exists k, 0 <= k /\ forall acc,
    take_digits acc (str_digits fuel n tail) = take_digits (acc * 10 ^ k + n) tail.
Proof.
  induction fuel as [|f IH]; intros n tail Hn.
  - exists 1. split; [lia|]. intros acc. cbn [str_digits take_digits].
    rewrite is_digit_digit_chr, digit_val_digit_chr by apply mod10_range.
    change (2 ^ (Z.of_nat 0 + 1)) with 2 in Hn.
    rewrite Z.mod_small by lia. f_equal. lia.
  - cbn [str_digits]. destruct (Z.ltb_spec n 10) as [Hlt|Hge].
    + exists 1. split; [lia|]. intros acc. cbn [take_digits].
      rewrite is_digit_digit_chr, digit_val_digit_chr by apply mod10_range.
      rewrite Z.mod_small by lia. f_equal. lia.
    + destruct (IH (n / 10) (String (digit_chr (n mod 10)) tail)) as (k & Hk & E).
      { apply div10_bound; [lia|]. rewrite Nat2Z.inj_succ in Hn.
        replace (Z.of_nat f + 1 + 1) with (Z.succ (Z.of_nat f) + 1) by lia. exact Hn. }
      exists (k + 1). split; [lia|]. intros acc. rewrite E. cbn [take_digits].
      rewrite is_digit_digit_chr, digit_val_digit_chr by apply mod10_range.
      f_equal. rewrite Z.pow_add_r, Z.pow_1_r by lia.
      pose proof (Z.div_mod n 10 ltac:(lia)). lia.
Qed.

Lemma take_digits_stop acc rest :
  no_digit_head rest = true -> take_digits acc rest = (acc, rest).
Proof.
  destruct rest as [|c r]; [reflexivity|]. cbn [no_digit_head take_digits].
  intros H. apply negb_true_iff in H. now rewrite H.
Qed.

Lemma digit_chr_nonzero d : 1 <= d < 10 -> Ascii.eqb (digit_chr d) "0" = false.
Proof.
  intros Hd.
  assert (H : d = 1 \/ d = 2 \/ d = 3 \/ d = 4 \/ d = 5 \/ d = 6
              \/ d = 7 \/ d = 8 \/ d = 9) by lia.
  repeat (destruct H as [H | H]; [subst d; reflexivity | ]).
  subst d; reflexivity.
Qed.

Lemma str_digits_lead fuel : forall n acc,
  0 < n < 2 ^ (Z.of_nat fuel + 1) ->
  exists c r, str_digits fuel n acc = String c r
              /\ is_digit c = true /\ Ascii.eqb c "0" = false.
Proof.
  induction fuel as [|f IH]; intros n acc Hn.
  - change (2 ^ (Z.of_nat 0 + 1)) with 2 in Hn. assert (n = 1) as -> by lia.
    eexists _, _. split; [reflexivity|]. split; reflexivity.
  - cbn [str_digits]. destruct (Z.ltb_spec n 10) as [Hlt|Hge].
    + eexists _, _. split; [reflexivity|]. rewrite Z.mod_small by lia.
      split; [apply is_digit_digit_chr; lia|apply digit_chr_nonzero; lia].
    + apply IH.
      assert (0 <= n / 10 < 2 ^ (Z.of_nat f + 1)).
      { apply div10_bound; [lia|]. rewrite Nat2Z.inj_succ in Hn.
        replace (Z.of_nat f + 1 + 1) with (Z.succ (Z.of_nat f) + 1) by lia. lia. }
      assert (0 < n / 10) by (apply Z.div_str_pos; lia). lia.
Qed.

Lemma parse_nat_lit_str_nonneg n rest :
  0 <= n -> no_digit_head rest = true ->
  parse_nat_lit (str_nonneg n +:+ rest) = Some (n, rest).
Proof.
  intros Hn Hrest. destruct (Z.eq_dec n 0) as [->|Hnz]; [reflexivity|].
  unfold str_nonneg. rewrite str_digits_app, app_nil_l_str.
  pose proof (log2_fuel n Hn) as Hf.
  destruct (str_digits_lead (Z.to_nat (Z.log2 n)) n rest ltac:(lia))
    as (c & r & E & Hc & H0).
  destruct (take_digits_str_digits _ n rest Hf) as (k & _ & Et).
  specialize (Et 0). rewrite E in Et |- *.
  cbn [parse_nat_lit]. rewrite H0, Hc. f_equal.
  cbn [take_digits] in Et. rewrite Hc in Et.
  change (10 * 0 + digit_val c) with (digit_val c) in Et. rewrite Et.
  rewrite take_digits_stop by exact Hrest. f_equal; lia.
Qed.

Lemma expect_minus_digit c r : is_digit c = true -> expect "-" (String c r) = None.
Proof.
  intros Hc. cbn [expect].
  destruct (Ascii.eqb_spec "-" c) as [<-|_]; [discriminate Hc|reflexivity].
Qed.

Lemma parse_int_lit_py_str z rest :
  no_digit_head rest = true ->
  parse_int_lit (py_str z +:+ rest) = Some (z, rest).
Proof.
  intros Hrest. unfold parse_int_lit, py_str.
  destruct (Z.ltb_spec z 0) as [Hneg|Hpos].
  - rewrite app_cons_str. cbn [expect]. change (Ascii.eqb "-" "-") with true. cbn iota.
    rewrite parse_nat_lit_str_nonneg by (lia || assumption).
    f_equal. f_equal. lia.
  - destruct (str_digits_head (Z.to_nat (Z.log2 z)) z EmptyString) as (c & r & E & Hc).
    pose proof (parse_nat_lit_str_nonneg z rest Hpos Hrest) as P.
    unfold str_nonneg in *. rewrite E in *. rewrite app_cons_str in *.
    now rewrite expect_minus_digit by exact Hc.
Qed.

(** *** Values *)

Lemma skip_ws_head c r : is_json_ws c = false -> skip_ws (String c r) = String c r.
Proof. intros H. cbn [skip_ws]. now rewrite H. Qed.

Lemma skip_ws_spaces n s : skip_ws (spaces n +:+ s) = skip_ws s.
Proof. induction n as [|n IH]; [reflexivity|]. cbn [spaces]. rewrite app_cons_str. exact IH. Qed.

Lemma skip_ws_newline_indent k s : skip_ws (newline_indent k +:+ s) = skip_ws s.
Proof. unfold newline_indent. rewrite app_cons_str. cbn [skip_ws]. apply skip_ws_spaces. Qed.


Lemma digit_value_head c : is_digit c = true -> value_head c.
Proof.
  intros H. unfold value_head, is_json_ws. unfold is_digit in H.
  apply andb_true_iff in H as [H1 H2]. apply Z.leb_le in H1, H2.
  repeat split.
  - repeat match goal with
    | |- context [?a =? ?b] => destruct (Z.eqb_spec a b); try lia
    end; reflexivity.
  - apply Ascii.eqb_neq. intros <-. vm_compute in H2. congruence.
  - apply Ascii.eqb_neq. intros <-. vm_compute in H2. congruence.
Qed.

Lemma dumps_at_head lvl v :
  exists c r, dumps_at lvl v = String c r /\ value_head c.
Proof.
  destruct v as [ | [|] | z | s | [|x l] | [|kv kvs]];
    try (eexists _, _; split; [reflexivity|repeat split; reflexivity]).
  cbn [dumps_at]. unfold py_str. destruct (z <? 0).
  - eexists _, _; split; [reflexivity|repeat split; reflexivity].
  - unfold str_nonneg.
    destruct (str_digits_head (Z.to_nat (Z.log2 z)) z EmptyString) as (c & r & E & Hc).
    exists c, r. split; [exact E|now apply digit_value_head].
Qed.

Lemma skip_ws_dumps lvl v rest :
  skip_ws (dumps_at lvl v +:+ rest) = dumps_at lvl v +:+ rest.
Proof.
  destruct (dumps_at_head lvl v) as (c & r & -> & Hc & _).
  rewrite app_cons_str. now apply skip_ws_head.
Qed.

Lemma no_digit_head_newline k s : no_digit_head (newline_indent k +:+ s) = true.
Proof. reflexivity. Qed.

(** *** Lists and objects *)

Lemma join_cons2 sep p q ps :
  join sep (p :: q :: ps) = p +:+ sep +:+ join sep (q :: ps).
Proof. reflexivity. Qed.

Lemma parse_value_fuel_S fuel s :
  parse_value (S fuel) s
  = match s with
    | EmptyString => None
    | String c r =>
        if Ascii.eqb c dquote then
          match scanstring r with
          | Some (str, r') => Some (JStr str, r')
          | None => None
          end
        else if Ascii.eqb c "{" then
          match expect "}" (skip_ws r) with
          | Some r' => Some (JObj [], r')
          | None =>
              match parse_members fuel (skip_ws r) with
              | Some (pairs, r') => Some (JObj (dict_of_pairs pairs), r')
              | None => None
              end
          end
        else if Ascii.eqb c "[" then
          match expect "]" (skip_ws r) with
          | Some r' => Some (JArr [], r')
          | None =>
              match parse_elems fuel (skip_ws r) with
              | Some (vs, r') => Some (JArr vs, r')
              | None => None
              end
          end
        else if Ascii.eqb c "n" then
          option_map (fun r' => (JNull, r')) (strip_prefix "ull" r)
        else if Ascii.eqb c "t" then
          option_map (fun r' => (JBool true, r')) (strip_prefix "rue" r)
        else if Ascii.eqb c "f" then
          option_map (fun r' => (JBool false, r')) (strip_prefix "alse" r)
        else
          match parse_int_lit s with
          | Some (z, r') => Some (JInt z, r')
          | None => None
          end
    end.
Proof. reflexivity. Qed.

Lemma parse_elems_fuel_S fuel s :
  parse_elems (S fuel) s
  = match parse_value fuel s with
    | None => None
    | Some (v, r) =>
        match skip_ws r with
        | String c r1 =>
            if Ascii.eqb c "," then
              match parse_elems fuel (skip_ws r1) with
              | Some (vs, r') => Some (v :: vs, r')
              | None => None
              end
            else if Ascii.eqb c "]" then Some ([v], r1)
            else None
        | EmptyString => None
        end
    end.
Proof. reflexivity. Qed.

Lemma parse_members_fuel_S fuel s :
  parse_members (S fuel) s
  = match s with
    | String q r =>
        if Ascii.eqb q dquote then
          match scanstring r with
          | None => None
          | Some (k, r1) =>
              match expect ":" (skip_ws r1) with
              | Some r2 =>
                  match parse_value fuel (skip_ws r2) with
                  | None => None
                  | Some (v, r3) =>
                      match skip_ws r3 with
                      | String c r4 =>
                          if Ascii.eqb c "," then
                            match parse_members fuel (skip_ws r4) with
                            | Some (kvs, r') => Some ((k, v) :: kvs, r')
                            | None => None
                            end
                          else if Ascii.eqb c "}" then Some ([(k, v)], r4)
                          else None
                      | EmptyString => None
                      end
                  end
              | None => None
              end
          end
        else None
    | EmptyString => None
    end.
Proof. reflexivity. Qed.

Lemma parse_elems_dumps lvl rest (l : list json) :
  Forall roundtrips l -> l <> [] ->
  forall fuel,
    forallb json_wf l = true ->
    (fold_right (fun x n => S (json_size x + n)) O l <= fuel)%nat ->
    parse_elems fuel
      (skip_ws (join "," (map (fun x => newline_indent (S lvl) +:+ dumps_at (S lvl) x) l)
                +:+ newline_indent lvl +:+ "]" +:+ rest))
    = Some (l, rest).
Proof.
  induction 1 as [|x l Hx Hl IH]; [congruence|]. intros _ fuel Hwf Hfuel.
  cbn [forallb] in Hwf. apply andb_true_iff in Hwf as [Hwx Hwl].
  cbn [fold_right] in Hfuel.
  destruct fuel as [|f]; [lia|]. rewrite parse_elems_fuel_S.
  destruct l as [|y ys].
  - cbn [map join]. rewrite !app_assoc_str, skip_ws_newline_indent, skip_ws_dumps.
    rewrite (Hx (S lvl)); [|exact Hwx|lia|reflexivity].
    rewrite skip_ws_newline_indent. rewrite app_cons_str, app_nil_l_str.
    reflexivity.
  - cbn [map]. rewrite join_cons2. rewrite !app_assoc_str.
    rewrite skip_ws_newline_indent, skip_ws_dumps.
    rewrite (Hx (S lvl)); [|exact Hwx|lia|reflexivity].
    rewrite app_cons_str, app_nil_l_str. cbn [skip_ws is_json_ws].
    change (is_json_ws ",") with false. cbn iota.
    change (Ascii.eqb "," ",") with true. cbn iota.
    specialize (IH ltac:(discriminate) f Hwl ltac:(cbn [fold_right] in *; lia)).
    cbn [map] in IH. rewrite IH. reflexivity.
Qed.

Lemma parse_members_step f lvl k x tail :
  roundtrips x -> json_wf x = true -> (json_size x <= f)%nat ->
  no_digit_head tail = true ->
  parse_members (S f)
    (skip_ws (newline_indent (S lvl) +:+ encode_string k +:+ ": "
              +:+ dumps_at (S lvl) x +:+ tail))
  = match skip_ws tail with
    | String c r4 =>
        if Ascii.eqb c "," then
          match parse_members f (skip_ws r4) with
          | Some (kvs, r') => Some ((k, x) :: kvs, r')
          | None => None
          end
        else if Ascii.eqb c "}" then Some ([(k, x)], r4)
        else None
    | EmptyString => None
    end.
Proof.
  intros Hx Hwx Hf Hd. rewrite parse_members_fuel_S, skip_ws_newline_indent.
  destruct (scanstring_encode_string k (": " +:+ dumps_at (S lvl) x +:+ tail))
    as (body & Eb & Es).
  rewrite Eb, skip_ws_head by reflexivity.
  change (Ascii.eqb dquote dquote) with true. cbn iota. rewrite Es.
  rewrite !app_cons_str, app_nil_l_str.
  rewrite skip_ws_head by reflexivity. cbn [expect].
  change (Ascii.eqb ":" ":") with true. cbn iota.
  cbn [skip_ws]. change (is_json_ws " ") with true. cbn iota.
  rewrite skip_ws_dumps, (Hx (S lvl)); [reflexivity|exact Hwx|exact Hf|exact Hd].
Qed.

Lemma parse_members_dumps lvl rest (kvs : list (string * json)) :
  Forall (fun kv => roundtrips (snd kv)) kvs -> kvs <> [] ->
  forall fuel,
    forallb (fun kv => json_wf (snd kv)) kvs = true ->
    (fold_right (fun kv n => S (json_size (snd kv) + n)) O kvs <= fuel)%nat ->
    parse_members fuel
      (skip_ws (join ","
                  (map (fun kv => newline_indent (S lvl) +:+ encode_string (fst kv)
                                  +:+ ": " +:+ dumps_at (S lvl) (snd kv)) kvs)
                +:+ newline_indent lvl +:+ "}" +:+ rest))
    = Some (kvs, rest).
Proof.
  induction 1 as [|[k x] l Hx Hl IH]; [congruence|]. intros _ fuel Hwf Hfuel.
  cbn [forallb snd] in Hwf. apply andb_true_iff in Hwf as [Hwx Hwl].
  cbn [fold_right snd] in Hfuel. cbn [snd] in Hx.
  destruct fuel as [|f]; [lia|].
  destruct l as [|y ys].
  - cbn [map join fst snd]. rewrite !app_assoc_str.
    rewrite parse_members_step; [|exact Hx|exact Hwx|lia|reflexivity].
    rewrite skip_ws_newline_indent. rewrite app_cons_str, app_nil_l_str.
    reflexivity.
  - cbn [map fst snd]. rewrite join_cons2. rewrite !app_assoc_str.
    rewrite parse_members_step; [|exact Hx|exact Hwx|lia|reflexivity].
    rewrite app_cons_str, app_nil_l_str. rewrite skip_ws_head by reflexivity.
    change (Ascii.eqb "," ",") with true. cbn iota.
    specialize (IH ltac:(discriminate) f Hwl ltac:(cbn [fold_right] in *; lia)).
    cbn [map] in IH. rewrite IH. reflexivity.
Qed.

Lemma dict_set_fresh k v d :
  k ∉ map fst d -> dict_set k v d = d ++ [(k, v)].
Proof.
  induction d as [|[k' v'] d IH]; intros Hk; [reflexivity|].
  cbn [dict_set map fst] in *. apply not_elem_of_cons in Hk as [Hne Hk].
  unfold str_eqb. rewrite bool_decide_eq_false_2 by congruence.
  cbn [app]. now rewrite IH.
Qed.

Lemma dict_of_pairs_acc (kvs : list (string * json)) : forall acc,
  NoDup (map fst (acc ++ kvs)) ->
  fold_left (fun d kv => dict_set (fst kv) (snd kv) d) kvs acc = acc ++ kvs.
Proof.
  induction kvs as [|[k v] kvs IH]; intros acc Hnd.
  - now rewrite app_nil_r.
  - cbn [fold_left fst snd]. rewrite dict_set_fresh.
    + rewrite IH; rewrite <- app_assoc; [reflexivity|exact Hnd].
    + rewrite map_app in Hnd. apply NoDup_app in Hnd as (_ & Hd & _).
      intros Hin. apply (Hd k Hin). cbn [map fst]. left.
Qed.

(** A list of items with distinct keys is the dict it builds. *)
Lemma dict_of_pairs_nodup kvs :
  NoDup (map fst kvs) -> dict_of_pairs kvs = kvs.
Proof. intros H. unfold dict_of_pairs. now rewrite dict_of_pairs_acc. Qed.

Lemma join_head sep p ps t :
  exists t', join sep (p :: ps) +:+ t = p +:+ t'.
Proof.
  destruct ps as [|q ps].
  - exists t. reflexivity.
  - exists (sep +:+ join sep (q :: ps) +:+ t). rewrite join_cons2.
    now rewrite !app_assoc_str.
Qed.

Lemma number_start c :
  c = "-"%char \/ is_digit c = true ->
  Ascii.eqb c dquote = false /\ Ascii.eqb c "{" = false /\ Ascii.eqb c "[" = false
  /\ Ascii.eqb c "n" = false /\ Ascii.eqb c "t" = false /\ Ascii.eqb c "f" = false.
Proof.
  intros [->|H]; [repeat split; reflexivity|].
  repeat split; apply Ascii.eqb_neq; intros ->; discriminate H.
Qed.

Lemma py_str_head z :
  exists c r, py_str z = String c r /\ (c = "-"%char \/ is_digit c = true).
Proof.
  unfold py_str. destruct (z <? 0).
  - eexists _, _. split; [reflexivity|now left].
  - destruct (str_digits_head (Z.to_nat (Z.log2 z)) z EmptyString) as (c & r & E & Hc).
    exists c, r. split; [exact E|now right].
Qed.

(** The decoder reads back every value the encoder wrote. *)
Lemma parse_value_dumps v : roundtrips v.
Proof.
  induction v as [ | b | z | s | l IH | kvs IH] using json_ind';
    intros lvl rest fuel Hwf Hfuel Hd;
    (destruct fuel as [|f]; [cbn [json_size] in Hfuel; lia|]);
    rewrite parse_value_fuel_S.
  - reflexivity.
  - destruct b; reflexivity.
  - cbn [dumps_at].
    destruct (py_str_head z) as (c & r & E & Hc).
    pose proof (parse_int_lit_py_str z rest Hd) as P.
    rewrite E in *. rewrite app_cons_str in *.
    destruct (number_start c Hc) as (-> & -> & -> & -> & -> & ->).
    now rewrite P.
  - cbn [dumps_at].
    destruct (scanstring_encode_string s rest) as (body & -> & ->).
    reflexivity.
  - destruct l as [|x xs]; [reflexivity|].
    cbn [json_wf] in Hwf. cbn [json_size] in Hfuel.
    pose proof (parse_elems_dumps lvl rest (x :: xs) IH ltac:(discriminate) f Hwf
                  ltac:(lia)) as P.
    cbn [dumps_at]. rewrite !app_cons_str, app_nil_l_str, !app_assoc_str.
    change (Ascii.eqb "[" dquote) with false.
    change (Ascii.eqb "[" "{") with false.
    change (Ascii.eqb "[" "[") with true. cbn iota.
    rewrite P.
    cbn [map].
    destruct (join_head ","
                (newline_indent (S lvl) +:+ dumps_at (S lvl) x)
                (map (fun x0 => newline_indent (S lvl) +:+ dumps_at (S lvl) x0) xs)
                (newline_indent lvl +:+ "]" +:+ rest)) as (t' & ->).
    rewrite app_assoc_str, skip_ws_newline_indent, skip_ws_dumps.
    destruct (dumps_at_head (S lvl) x) as (c & r & -> & _ & Hc & _).
    rewrite app_cons_str. cbn [expect]. now rewrite Hc.
  - destruct kvs as [|[k x] kvs]; [reflexivity|].
    cbn [json_wf] in Hwf. apply andb_true_iff in Hwf as [Hnd Hwf].
    apply bool_decide_eq_true in Hnd.
    cbn [json_size] in Hfuel.
    pose proof (parse_members_dumps lvl rest ((k, x) :: kvs) IH ltac:(discriminate) f Hwf
                  ltac:(lia)) as P.
    cbn [dumps_at]. rewrite !app_cons_str, app_nil_l_str, !app_assoc_str.
    change (Ascii.eqb "{" dquote) with false.
    change (Ascii.eqb "{" "{") with true. cbn iota.
    rewrite P, (dict_of_pairs_nodup _ Hnd).
    cbn [map fst snd].
    destruct (join_head ","
                (newline_indent (S lvl) +:+ encode_string k +:+ ": "
                 +:+ dumps_at (S lvl) x)
                (map (fun kv => newline_indent (S lvl) +:+ encode_string (fst kv)
                                +:+ ": " +:+ dumps_at (S lvl) (snd kv)) kvs)
                (newline_indent lvl +:+ "}" +:+ rest)) as (t' & ->).
    rewrite !app_assoc_str, skip_ws_newline_indent.
    destruct (scanstring_encode_string k (": " +:+ dumps_at (S lvl) x +:+ t'))
      as (body & -> & _).
    reflexivity.
Qed.

(** *** Enough fuel *)

Lemma str_len_app a b : str_len (a +:+ b) = (str_len a + str_len b)%nat.
Proof.
  unfold str_len. induction a as [|c a IH]; [reflexivity|].
  rewrite app_cons_str. cbn [String.length]. now rewrite IH.
Qed.

Lemma join_len_ge {A} (g : A -> string) (m : A -> nat) (l : list A) :
  Forall (fun x => (S (m x) <= str_len (g x))%nat) l ->
  (fold_right (fun x n => S (m x + n)) O l <= str_len (join "," (map g l)))%nat.
Proof.
  induction 1 as [|x l Hx Hl IH]; [cbn; lia|].
  destruct l as [|y ys].
  - cbn [map join fold_right]. lia.
  - cbn [map]. rewrite join_cons2. rewrite !str_len_app.
    cbn [map] in IH. cbn [fold_right] in *. lia.
Qed.

Lemma json_size_le_len v : forall lvl, (json_size v <= str_len (dumps_at lvl v))%nat.
Proof.
  induction v as [ | b | z | s | l IH | kvs IH] using json_ind'; intros lvl.
  - cbn. lia.
  - destruct b; cbn; lia.
  - cbn [dumps_at json_size]. destruct (py_str_head z) as (c & r & -> & _).
    unfold str_len. cbn [String.length]. lia.
  - cbn [dumps_at json_size]. unfold encode_string, str_len. cbn [String.length]. lia.
  - destruct l as [|x xs]; [cbn; lia|].
    cbn [dumps_at json_size]. rewrite !str_len_app.
    pose proof (join_len_ge
      (fun y => newline_indent (S lvl) +:+ dumps_at (S lvl) y) json_size (x :: xs)) as J.
    assert (Forall (fun y => (S (json_size y)
              <= str_len (newline_indent (S lvl) +:+ dumps_at (S lvl) y))%nat) (x :: xs)) as F.
    { eapply Forall_impl; [exact IH|]. intros y Hy. cbn beta.
      rewrite str_len_app. specialize (Hy (S lvl)).
      unfold newline_indent, str_len in *. cbn [String.length]. lia. }
    specialize (J F). unfold newline_indent, str_len in *.
    cbn [String.length] in *. lia.
  - destruct kvs as [|kv kvs]; [cbn; lia|].
    cbn [dumps_at json_size]. rewrite !str_len_app.
    pose proof (join_len_ge
      (fun kv => newline_indent (S lvl) +:+ encode_string (fst kv) +:+ ": "
                 +:+ dumps_at (S lvl) (snd kv))
      (fun kv => json_size (snd kv)) (kv :: kvs)) as J.
    assert (Forall (fun kv => (S (json_size (snd kv))
              <= str_len (newline_indent (S lvl) +:+ encode_string (fst kv) +:+ ": "
                          +:+ dumps_at (S lvl) (snd kv)))%nat) (kv :: kvs)) as F.
    { eapply Forall_impl; [exact IH|]. intros y Hy. cbn beta.
      rewrite !str_len_app. specialize (Hy (S lvl)).
      unfold newline_indent, str_len in *. cbn [String.length]. lia. }
    specialize (J F). unfold newline_indent, str_len in *.
    cbn [String.length] in *. lia.
Qed.

(** [json.loads(json.dumps(v, indent=2))] is [v]. *)
Lemma json_loads_dumps v : json_wf v = true -> json_loads (json_dumps v) = Some v.
Proof.
  intros Hwf. unfold json_loads, json_dumps.
  pose proof (skip_ws_dumps 0 v "") as E. rewrite app_nil_r_str in E. rewrite E.
  pose proof (parse_value_dumps v 0%nat "" (2 * str_len (dumps_at 0 v) + 2)%nat Hwf) as P.
  rewrite app_nil_r_str in P. rewrite P; [reflexivity| |reflexivity].
  pose proof (json_size_le_len v 0%nat). lia.
Qed.

(** *** What the decoder builds is well formed *)

Lemma dict_set_keys k v d :
  map fst (dict_set k v d) = if bool_decide (k ∈ map fst d) then map fst d
                             else map fst d ++ [k].
Proof.
  induction d as [|[k' v'] d IH]; [reflexivity|].
  cbn [dict_set map fst]. unfold str_eqb.
  destruct (bool_decide_reflect (k' = k)) as [->|Hne].
  - cbn [map fst]. rewrite bool_decide_eq_true_2 by left. reflexivity.
  - cbn [map fst]. rewrite IH.
    destruct (bool_decide_reflect (k ∈ map fst d)) as [Hin|Hnin].
    + rewrite bool_decide_eq_true_2 by now right. reflexivity.
    + rewrite bool_decide_eq_false_2; [reflexivity|].
      intros [?|?]%elem_of_cons; congruence.
Qed.

Lemma dict_set_nodup k v d : NoDup (map fst d) -> NoDup (map fst (dict_set k v d)).
Proof.
  intros H. rewrite dict_set_keys.
  destruct (bool_decide_reflect (k ∈ map fst d)) as [Hin|Hnin]; [exact H|].
  apply NoDup_app. split; [exact H|]. split.
  - intros x Hx Hx'. apply list_elem_of_singleton in Hx'. congruence.
  - apply NoDup_singleton.
Qed.

Lemma dict_set_wf k v d :
  json_wf v = true -> forallb (fun kv => json_wf (snd kv)) d = true ->
  forallb (fun kv => json_wf (snd kv)) (dict_set k v d) = true.
Proof.
  intros Hv. induction d as [|[k' v'] d IH]; cbn [dict_set forallb snd].
  - intros _. now rewrite Hv.
  - intros H. apply andb_true_iff in H as [H1 H2].
    destruct (str_eqb k' k); cbn [forallb snd].
    + now rewrite Hv, H2.
    + now rewrite H1, IH.
Qed.

Lemma dict_of_pairs_wf pairs :
  forallb (fun kv => json_wf (snd kv)) pairs = true ->
  json_wf (JObj (dict_of_pairs pairs)) = true.
Proof.
  intros H. unfold dict_of_pairs.
  assert (G : forall acc,
    NoDup (map fst acc) -> forallb (fun kv => json_wf (snd kv)) acc = true ->
    json_wf (JObj (fold_left (fun d kv => dict_set (fst kv) (snd kv) d) pairs acc)) = true).
  { induction pairs as [|[k v] pairs IH]; intros acc Hnd Hacc.
    - cbn [fold_left json_wf]. apply andb_true_iff. split; [|exact Hacc].
      now apply bool_decide_eq_true.
    - cbn [forallb snd] in H. apply andb_true_iff in H as [Hv Hp].
      cbn [fold_left fst snd]. apply IH; [exact Hp| |].
      + now apply dict_set_nodup.
      + now apply dict_set_wf. }
  apply G; [constructor|reflexivity].
Qed.

Lemma parse_wf fuel :
  (forall s v r, parse_value fuel s = Some (v, r) -> json_wf v = true)
  /\ (forall s vs r, parse_elems fuel s = Some (vs, r) -> forallb json_wf vs = true)
  /\ (forall s kvs r, parse_members fuel s = Some (kvs, r) ->
        forallb (fun kv => json_wf (snd kv)) kvs = true).
Proof.
  induction fuel as [|f (IHv & IHe & IHm)]; [repeat split; discriminate|].
  repeat split.
  - intros s v r. rewrite parse_value_fuel_S.
    destruct s as [|c s]; [discriminate|]. unfold option_map.
    repeat match goal with
    | |- context [if ?b then _ else _] => destruct b
    | |- context [match ?o with Some _ => _ | None => _ end] =>
        let E := fresh "E" in destruct o as [[? ?]|] eqn:E
    | |- context [match ?o with Some _ => _ | None => _ end] =>
        let E := fresh "E" in destruct o as [?|] eqn:E
    end; cbn [option_map]; try discriminate; intros [= <- <-]; try reflexivity.
    + apply dict_of_pairs_wf. eapply IHm; eassumption.
    + cbn [json_wf]. eapply IHe; eassumption.
  - intros s vs r. rewrite parse_elems_fuel_S.
    destruct (parse_value f s) as [[v r0]|] eqn:Ev; [|discriminate].
    destruct (skip_ws r0) as [|c r1]; [discriminate|].
    destruct (Ascii.eqb c ",").
    + destruct (parse_elems f (skip_ws r1)) as [[vs' r']|] eqn:Ee; [|discriminate].
      intros [= <- <-]. cbn [forallb]. now rewrite (IHv _ _ _ Ev), (IHe _ _ _ Ee).
    + destruct (Ascii.eqb c "]"); [|discriminate].
      intros [= <- <-]. cbn [forallb]. now rewrite (IHv _ _ _ Ev).
  - intros s kvs r. rewrite parse_members_fuel_S.
    destruct s as [|q s]; [discriminate|].
    destruct (Ascii.eqb q dquote); [|discriminate].
    destruct (scanstring s) as [[k r1]|]; [|discriminate].
    destruct (expect ":" (skip_ws r1)) as [r2|]; [|discriminate].
    destruct (parse_value f (skip_ws r2)) as [[v r3]|] eqn:Ev; [|discriminate].
    destruct (skip_ws r3) as [|c r4]; [discriminate|].
    destruct (Ascii.eqb c ",").
    + destruct (parse_members f (skip_ws r4)) as [[kvs' r']|] eqn:Em; [|discriminate].
      intros [= <- <-]. cbn [forallb snd]. now rewrite (IHv _ _ _ Ev), (IHm _ _ _ Em).
    + destruct (Ascii.eqb c "}"); [|discriminate].
      intros [= <- <-]. cbn [forallb snd]. now rewrite (IHv _ _ _ Ev).
Qed.

Lemma json_loads_wf s v : json_loads s = Some v -> json_wf v = true.
Proof.
  unfold json_loads.
  destruct (parse_value _ _) as [[v' r]|] eqn:E; [|discriminate].
  destruct (skip_ws r); [|discriminate]. intros [= <-].
  eapply (proj1 (parse_wf _)). exact E.
Qed.

(** *** The fuel of [json_loads] is enough for every text *)

Lemma skip_ws_len s : (str_len (skip_ws s) <= str_len s)%nat.
Proof.
  unfold str_len. induction s as [|c s IH]; [reflexivity|].
  cbn [skip_ws]. destruct (is_json_ws c); cbn [String.length]; lia.
Qed.

Lemma cons_char_some c o x r :
  cons_char c o = Some (x, r) -> exists x', o = Some (x', r).
Proof. destruct o as [[x' r']|]; [|discriminate]. intros [= _ <-]. eauto. Qed.

Lemma scanstring_len n : forall s x r,
  (str_len s <= n)%nat -> scanstring s = Some (x, r) -> (str_len r < str_len s)%nat.
Proof.
  unfold str_len. induction n as [|n IH]; intros s x r Hn.
  - destruct s; [discriminate|cbn [String.length] in Hn; lia].
  - destruct s as [|c s]; [discriminate|]. cbn [scanstring String.length] in *.
    destruct (Ascii.eqb c dquote); [intros [= _ <-]; lia|].
    destruct (Ascii.eqb c backslash).
    + destruct s as [|e s1]; [discriminate|].
      destruct (Ascii.eqb e "u").
      * destruct s1 as [|h1 [|h2 [|h3 [|h4 s2]]]]; try discriminate.
        destruct (hex4 h1 h2 h3 h4) as [k|]; [|discriminate].
        destruct (k <? 256); [|discriminate].
        intros (x' & E)%cons_char_some. cbn [String.length] in *.
        apply IH in E; lia.
      * destruct (unescape e); [|discriminate].
        intros (x' & E)%cons_char_some. cbn [String.length] in *.
        apply IH in E; lia.
    + destruct (code c <? 32); [discriminate|].
      intros (x' & E)%cons_char_some. apply IH in E; lia.
Qed.

Lemma take_digits_len s : forall acc,
  (str_len (snd (take_digits acc s)) <= str_len s)%nat.
Proof.
  unfold str_len. induction s as [|c s IH]; intros acc; [reflexivity|].
  cbn [take_digits]. destruct (is_digit c); cbn [snd String.length]; [|lia].
  specialize (IH (10 * acc + digit_val c)). lia.
Qed.

Lemma expect_len c s r : expect c s = Some r -> (str_len r < str_len s)%nat.
Proof.
  unfold str_len. destruct s as [|c' s]; [discriminate|]. cbn [expect].
  destruct (Ascii.eqb c c'); [|discriminate]. intros [= <-]. cbn. lia.
Qed.

Lemma parse_nat_lit_len s z r :
  parse_nat_lit s = Some (z, r) -> (str_len r < str_len s)%nat.
Proof.
  unfold str_len. destruct s as [|c s]; [discriminate|]. cbn [parse_nat_lit].
  destruct (Ascii.eqb c "0"); [intros [= _ <-]; cbn; lia|].
  destruct (is_digit c); [|discriminate].
  pose proof (take_digits_len s (digit_val c)) as H. unfold str_len in H.
  destruct (take_digits (digit_val c) s) as [z' r']. intros [= _ <-].
  cbn [snd String.length] in *. lia.
Qed.

Lemma parse_int_lit_len s z r :
  parse_int_lit s = Some (z, r) -> (str_len r < str_len s)%nat.
Proof.
  unfold parse_int_lit. destruct (expect "-" s) as [r0|] eqn:E.
  - apply expect_len in E.
    destruct (parse_nat_lit r0) as [[n r']|] eqn:En; [|discriminate].
    apply parse_nat_lit_len in En. intros [= _ <-]. lia.
  - apply parse_nat_lit_len.
Qed.

Lemma strip_prefix_len p : forall s r,
  strip_prefix p s = Some r -> (str_len r <= str_len s)%nat.
Proof.
  unfold str_len. induction p as [|a p IH]; intros s r.
  - cbn. intros [= <-]. lia.
  - destruct s as [|b s]; [discriminate|]. cbn [strip_prefix].
    destruct (Ascii.eqb a b); [|discriminate]. intros E%IH. cbn. lia.
Qed.

(** A successful step of the decoder takes at least one character. *)
Lemma parse_consumes fuel :
  (forall s v r, parse_value fuel s = Some (v, r) -> (str_len r < str_len s)%nat)
  /\ (forall s vs r, parse_elems fuel s = Some (vs, r) -> (str_len r < str_len s)%nat)
  /\ (forall s kvs r, parse_members fuel s = Some (kvs, r) ->
        (str_len r < str_len s)%nat).
Proof.
  induction fuel as [|f (IHv & IHe & IHm)]; [repeat split; discriminate|].
  split_and!.
  - intros s v r. rewrite parse_value_fuel_S.
    destruct s as [|c s]; [discriminate|].
    assert (Hc : str_len (String c s) = S (str_len s)) by reflexivity.
    pose proof (skip_ws_len s) as Hws.
    destruct (Ascii.eqb c dquote).
    { destruct (scanstring s) as [[x r']|] eqn:E; [|discriminate].
      apply (scanstring_len _ _ _ _ (le_n _)) in E. intros [= _ <-]. lia. }
    destruct (Ascii.eqb c "{").
    { destruct (expect "}" (skip_ws s)) as [r'|] eqn:E.
      - apply expect_len in E. intros [= _ <-]. lia.
      - destruct (parse_members f (skip_ws s)) as [[p r']|] eqn:Em; [|discriminate].
        apply IHm in Em. intros [= _ <-]. lia. }
    destruct (Ascii.eqb c "[").
    { destruct (expect "]" (skip_ws s)) as [r'|] eqn:E.
      - apply expect_len in E. intros [= _ <-]. lia.
      - destruct (parse_elems f (skip_ws s)) as [[p r']|] eqn:Em; [|discriminate].
        apply IHe in Em. intros [= _ <-]. lia. }
    unfold option_map.
    destruct (Ascii.eqb c "n").
    { destruct (strip_prefix "ull" s) as [r'|] eqn:E; [|discriminate].
      apply strip_prefix_len in E. intros [= _ <-]. lia. }
    destruct (Ascii.eqb c "t").
    { destruct (strip_prefix "rue" s) as [r'|] eqn:E; [|discriminate].
      apply strip_prefix_len in E. intros [= _ <-]. lia. }
    destruct (Ascii.eqb c "f").
    { destruct (strip_prefix "alse" s) as [r'|] eqn:E; [|discriminate].
      apply strip_prefix_len in E. intros [= _ <-]. lia. }
    destruct (parse_int_lit (String c s)) as [[z r']|] eqn:E; [|discriminate].
    apply parse_int_lit_len in E. intros [= _ <-]. lia.
  - intros s vs r. rewrite parse_elems_fuel_S.
    destruct (parse_value f s) as [[v r0]|] eqn:Ev; [|discriminate].
    apply IHv in Ev. pose proof (skip_ws_len r0) as Hws.
    destruct (skip_ws r0) as [|c r1] eqn:Es; [discriminate|].
    assert (Hc : str_len (String c r1) = S (str_len r1)) by reflexivity.
    pose proof (skip_ws_len r1) as Hws1.
    destruct (Ascii.eqb c ",").
    + destruct (parse_elems f (skip_ws r1)) as [[vs' r']|] eqn:Ee; [|discriminate].
      apply IHe in Ee. intros [= _ <-]. lia.
    + destruct (Ascii.eqb c "]"); [|discriminate]. intros [= _ <-]. lia.
  - intros s kvs r. rewrite parse_members_fuel_S.
    destruct s as [|q s]; [discriminate|].
    assert (Hc : str_len (String q s) = S (str_len s)) by reflexivity.
    destruct (Ascii.eqb q dquote); [|discriminate].
    destruct (scanstring s) as [[k r1]|] eqn:Ek; [|discriminate].
    apply (scanstring_len _ _ _ _ (le_n _)) in Ek.
    pose proof (skip_ws_len r1) as Hws1.
    destruct (expect ":" (skip_ws r1)) as [r2|] eqn:Ex; [|discriminate].
    apply expect_len in Ex. pose proof (skip_ws_len r2) as Hws2.
    destruct (parse_value f (skip_ws r2)) as [[v r3]|] eqn:Ev; [|discriminate].
    apply IHv in Ev. pose proof (skip_ws_len r3) as Hws3.
    destruct (skip_ws r3) as [|c r4] eqn:Es; [discriminate|].
    assert (Hc4 : str_len (String c r4) = S (str_len r4)) by reflexivity.
    pose proof (skip_ws_len r4) as Hws4.
    destruct (Ascii.eqb c ",").
    + destruct (parse_members f (skip_ws r4)) as [[kvs' r']|] eqn:Em; [|discriminate].
      apply IHm in Em. intros [= _ <-]. lia.
    + destruct (Ascii.eqb c "}"); [|discriminate]. intros [= _ <-]. lia.
Qed.

(** With fuel above twice the length of the text, more fuel changes
    nothing. *)
Lemma parse_stable fuel : forall fuel',
  (forall s, (2 * str_len s + 2 <= fuel)%nat -> (2 * str_len s + 2 <= fuel')%nat ->
     parse_value fuel s = parse_value fuel' s)
  /\ (forall s, (2 * str_len s + 3 <= fuel)%nat -> (2 * str_len s + 3 <= fuel')%nat ->
        parse_elems fuel s = parse_elems fuel' s)
  /\ (forall s, (2 * str_len s + 3 <= fuel)%nat -> (2 * str_len s + 3 <= fuel')%nat ->
        parse_members fuel s = parse_members fuel' s).
Proof.
  induction fuel as [|f IH]; intros fuel'.
  { split_and!; intros s H; lia. }
  destruct fuel' as [|f']; [split_and!; intros s _ H; lia|].
  destruct (IH f') as (IHv & IHe & IHm).
  split_and!.
  - intros s H H'. rewrite !parse_value_fuel_S.
    destruct s as [|c s]; [reflexivity|].
    assert (Hc : str_len (String c s) = S (str_len s)) by reflexivity.
    pose proof (skip_ws_len s) as Hws.
    rewrite (IHm (skip_ws s)) by lia. rewrite (IHe (skip_ws s)) by lia.
    reflexivity.
  - intros s H H'. rewrite !parse_elems_fuel_S.
    rewrite (IHv s) by lia.
    destruct (parse_value f' s) as [[v r0]|] eqn:Ev; [|reflexivity].
    apply (proj1 (parse_consumes f')) in Ev.
    pose proof (skip_ws_len r0) as Hws.
    destruct (skip_ws r0) as [|c r1] eqn:Es; [reflexivity|].
    assert (Hc : str_len (String c r1) = S (str_len r1)) by reflexivity.
    pose proof (skip_ws_len r1) as Hws1.
    rewrite (IHe (skip_ws r1)) by lia. reflexivity.
  - intros s H H'. rewrite !parse_members_fuel_S.
    destruct s as [|q s]; [reflexivity|].
    assert (Hc : str_len (String q s) = S (str_len s)) by reflexivity.
    destruct (Ascii.eqb q dquote); [|reflexivity].
    destruct (scanstring s) as [[k r1]|] eqn:Ek; [|reflexivity].
    apply (scanstring_len _ _ _ _ (le_n _)) in Ek.
    pose proof (skip_ws_len r1) as Hws1.
    destruct (expect ":" (skip_ws r1)) as [r2|] eqn:Ex; [|reflexivity].
    apply expect_len in Ex. pose proof (skip_ws_len r2) as Hws2.
    rewrite (IHv (skip_ws r2)) by lia.
    destruct (parse_value f' (skip_ws r2)) as [[v r3]|] eqn:Ev; [|reflexivity].
    apply (proj1 (parse_consumes f')) in Ev. pose proof (skip_ws_len r3) as Hws3.
    destruct (skip_ws r3) as [|c r4] eqn:Es; [reflexivity|].
    assert (Hc4 : str_len (String c r4) = S (str_len r4)) by reflexivity.
    pose proof (skip_ws_len r4) as Hws4.
    rewrite (IHm (skip_ws r4)) by lia. reflexivity.
Qed.

(** [json_loads] does not fail for want of fuel: with any amount of fuel
    more, the decoder gives the same answer. *)
Lemma json_loads_fuel_is_enough s more :
  parse_value (2 * str_len s + 2 + more) (skip_ws s)
  = parse_value (2 * str_len s + 2) (skip_ws s).
Proof.
  pose proof (skip_ws_len s). apply (proj1 (parse_stable _ _)); lia.
Qed.

(** *** The texts that are JSON and the texts that are decoded *)

Lemma scan_value_fuel_S fuel s :
  scan_value (S fuel) s
  = match s with
    | EmptyString => None
    | String c r =>
        if Ascii.eqb c dquote then scan_string r
        else if Ascii.eqb c "{" then
          match expect "}" (skip_ws r) with
          | Some r' => Some r'
          | None => scan_members fuel (skip_ws r)
          end
        else if Ascii.eqb c "[" then
          match expect "]" (skip_ws r) with
          | Some r' => Some r'
          | None => scan_elems fuel (skip_ws r)
          end
        else if Ascii.eqb c "n" then strip_prefix "ull" r
        else if Ascii.eqb c "t" then strip_prefix "rue" r
        else if Ascii.eqb c "f" then strip_prefix "alse" r
        else if Ascii.eqb c "N" then strip_prefix "aN" r
        else if Ascii.eqb c "I" then strip_prefix "nfinity" r
        else
          match strip_prefix "-Infinity" s with
          | Some r' => Some r'
          | None => scan_number s
          end
    end.
Proof. reflexivity. Qed.

Lemma scan_elems_fuel_S fuel s :
  scan_elems (S fuel) s
  = match scan_value fuel s with
    | None => None
    | Some r =>
        match skip_ws r with
        | String c r1 =>
            if Ascii.eqb c "," then scan_elems fuel (skip_ws r1)
            else if Ascii.eqb c "]" then Some r1
            else None
        | EmptyString => None
        end
    end.
Proof. reflexivity. Qed.

Lemma scan_members_fuel_S fuel s :
  scan_members (S fuel) s
  = match s with
    | String q r =>
        if Ascii.eqb q dquote then
          match scan_string r with
          | None => None
          | Some r1 =>
              match expect ":" (skip_ws r1) with
              | Some r2 =>
                  match scan_value fuel (skip_ws r2) with
                  | None => None
                  | Some r3 =>
                      match skip_ws r3 with
                      | String c r4 =>
                          if Ascii.eqb c "," then scan_members fuel (skip_ws r4)
                          else if Ascii.eqb c "}" then Some r4
                          else None
                      | EmptyString => None
                      end
                  end
              | None => None
              end
          end
        else None
    | EmptyString => None
    end.
Proof. reflexivity. Qed.

(** A string literal that is decoded is a string literal of the grammar. *)
Lemma scanstring_scan_string n : forall s x r,
  (str_len s <= n)%nat -> scanstring s = Some (x, r) -> scan_string s = Some r.
Proof.
  unfold str_len. induction n as [|n IH]; intros s x r Hn.
  - destruct s; [discriminate|cbn [String.length] in Hn; lia].
  - destruct s as [|c s]; [discriminate|]. cbn [scanstring scan_string String.length] in *.
    destruct (Ascii.eqb c dquote); [now intros [= _ <-]|].
    destruct (Ascii.eqb c backslash).
    + destruct s as [|e s1]; [discriminate|].
      destruct (Ascii.eqb e "u").
      * destruct s1 as [|h1 [|h2 [|h3 [|h4 s2]]]]; try discriminate.
        destruct (hex4 h1 h2 h3 h4) as [k|]; [|discriminate].
        destruct (k <? 256); [|discriminate].
        intros (x' & E)%cons_char_some. cbn [String.length] in *.
        apply IH in E; [exact E|lia].
      * destruct (unescape e); [|discriminate].
        intros (x' & E)%cons_char_some. cbn [String.length] in *.
        apply IH in E; [exact E|lia].
    + destruct (code c <? 32); [discriminate|].
      intros (x' & E)%cons_char_some. apply IH in E; [exact E|lia].
Qed.

Lemma scan_fraction_stops r : number_goes_on r = false -> scan_fraction r = r.
Proof.
  destruct r as [|c r]; [reflexivity|]. cbn [number_goes_on scan_fraction].
  intros H. apply orb_false_iff in H as [H _]. apply orb_false_iff in H as [H _].
  now rewrite H.
Qed.

Lemma scan_exponent_stops r : number_goes_on r = false -> scan_exponent r = r.
Proof.
  destruct r as [|c r]; [reflexivity|]. cbn [number_goes_on scan_exponent].
  intros H. apply orb_false_iff in H as [H H3]. apply orb_false_iff in H as [_ H2].
  now rewrite H2, H3.
Qed.

Lemma scan_number_int s z r :
  parse_int_lit s = Some (z, r) -> number_goes_on r = false -> scan_number s = Some r.
Proof.
  intros E H. unfold scan_number. rewrite E.
  now rewrite (scan_fraction_stops r H), (scan_exponent_stops r H).
Qed.

(** An integer starts with a digit or with a minus sign and a digit. *)
Lemma parse_int_lit_start c s z r :
  parse_int_lit (String c s) = Some (z, r) ->
  Ascii.eqb c "N" = false /\ Ascii.eqb c "I" = false
  /\ strip_prefix "-Infinity" (String c s) = None.
Proof.
  intros E. split_and!.
  - destruct (Ascii.eqb_spec c "N") as [->|]; [discriminate E|reflexivity].
  - destruct (Ascii.eqb_spec c "I") as [->|]; [discriminate E|reflexivity].
  - cbn [strip_prefix]. destruct (Ascii.eqb_spec "-" c) as [<-|]; [|reflexivity].
    destruct s as [|i s]; [reflexivity|].
    destruct (Ascii.eqb_spec "I" i) as [<-|]; [discriminate E|reflexivity].
Qed.

Lemma json_ws_not_number c :
  is_json_ws c = true ->
  Ascii.eqb c "." || Ascii.eqb c "e" || Ascii.eqb c "E" = false.
Proof.
  destruct (Ascii.eqb_spec c ".") as [->|]; [discriminate|].
  destruct (Ascii.eqb_spec c "e") as [->|]; [discriminate|].
  destruct (Ascii.eqb_spec c "E") as [->|]; [discriminate|]. reflexivity.
Qed.

(** What comes before a comma or a closing bracket is no number that goes
    on. *)
Lemma number_ends_before r c r1 :
  skip_ws r = String c r1 ->
  number_goes_on (String c r1) = false -> number_goes_on r = false.
Proof.
  destruct r as [|c0 r0]; [discriminate|]. cbn [skip_ws].
  destruct (is_json_ws c0) eqn:W.
  - intros _ _. cbn [number_goes_on]. now apply json_ws_not_number.
  - now intros [= -> ->].
Qed.

Lemma number_ends_at_end r : skip_ws r = EmptyString -> number_goes_on r = false.
Proof.
  destruct r as [|c0 r0]; [reflexivity|]. cbn [skip_ws].
  destruct (is_json_ws c0) eqn:W; [|discriminate].
  intros _. cbn [number_goes_on]. now apply json_ws_not_number.
Qed.

(** What the decoder reads is of the grammar, and the grammar takes the
    same text for it. *)
Lemma scan_of_parse fuel :
  (forall s v r, parse_value fuel s = Some (v, r) -> number_goes_on r = false ->
     scan_value fuel s = Some r)
  /\ (forall s vs r, parse_elems fuel s = Some (vs, r) -> scan_elems fuel s = Some r)
  /\ (forall s kvs r, parse_members fuel s = Some (kvs, r) ->
        scan_members fuel s = Some r).
Proof.
  induction fuel as [|f (IHv & IHe & IHm)]; [repeat split; discriminate|].
  split_and!.
  - intros s v r. rewrite parse_value_fuel_S, scan_value_fuel_S.
    destruct s as [|c s]; [discriminate|].
    destruct (Ascii.eqb c dquote).
    { destruct (scanstring s) as [[x r']|] eqn:E; [|discriminate].
      apply (scanstring_scan_string _ _ _ _ (le_n _)) in E. now intros [= _ <-]. }
    destruct (Ascii.eqb c "{").
    { destruct (expect "}" (skip_ws s)) as [r'|] eqn:E; [now intros [= _ <-]|].
      destruct (parse_members f (skip_ws s)) as [[p r']|] eqn:Em; [|discriminate].
      apply IHm in Em. now intros [= _ <-]. }
    destruct (Ascii.eqb c "[").
    { destruct (expect "]" (skip_ws s)) as [r'|] eqn:E; [now intros [= _ <-]|].
      destruct (parse_elems f (skip_ws s)) as [[p r']|] eqn:Em; [|discriminate].
      apply IHe in Em. now intros [= _ <-]. }
    unfold option_map.
    destruct (Ascii.eqb c "n").
    { destruct (strip_prefix "ull" s) as [r'|]; [|discriminate]. now intros [= _ <-]. }
    destruct (Ascii.eqb c "t").
    { destruct (strip_prefix "rue" s) as [r'|]; [|discriminate]. now intros [= _ <-]. }
    destruct (Ascii.eqb c "f").
    { destruct (strip_prefix "alse" s) as [r'|]; [|discriminate]. now intros [= _ <-]. }
    destruct (parse_int_lit (String c s)) as [[z r']|] eqn:E; [|discriminate].
    destruct (parse_int_lit_start _ _ _ _ E) as (-> & -> & ->).
    intros [= _ <-] H. now apply (scan_number_int _ z).
  - intros s vs r. rewrite parse_elems_fuel_S, scan_elems_fuel_S.
    destruct (parse_value f s) as [[v r0]|] eqn:Ev; [|discriminate].
    destruct (skip_ws r0) as [|c r1] eqn:Es; [discriminate|].
    destruct (Ascii.eqb c ",") eqn:Ec.
    + apply Ascii.eqb_eq in Ec as ->.
      rewrite (IHv _ _ _ Ev (number_ends_before _ _ _ Es eq_refl)), Es.
      change (Ascii.eqb "," ",") with true. cbn iota.
      destruct (parse_elems f (skip_ws r1)) as [[vs' r']|] eqn:Ee; [|discriminate].
      apply IHe in Ee. now intros [= _ <-].
    + destruct (Ascii.eqb c "]") eqn:Ec2; [|discriminate].
      apply Ascii.eqb_eq in Ec2 as ->.
      rewrite (IHv _ _ _ Ev (number_ends_before _ _ _ Es eq_refl)), Es.
      change (Ascii.eqb "]" ",") with false. change (Ascii.eqb "]" "]") with true.
      cbn iota. now intros [= _ <-].
  - intros s kvs r. rewrite parse_members_fuel_S, scan_members_fuel_S.
    destruct s as [|q s]; [discriminate|].
    destruct (Ascii.eqb q dquote); [|discriminate].
    destruct (scanstring s) as [[k r1]|] eqn:Ek; [|discriminate].
    apply (scanstring_scan_string _ _ _ _ (le_n _)) in Ek. rewrite Ek.
    destruct (expect ":" (skip_ws r1)) as [r2|] eqn:Ex; [|discriminate].
    destruct (parse_value f (skip_ws r2)) as [[v r3]|] eqn:Ev; [|discriminate].
    destruct (skip_ws r3) as [|c r4] eqn:Es; [discriminate|].
    destruct (Ascii.eqb c ",") eqn:Ec.
    + apply Ascii.eqb_eq in Ec as ->.
      rewrite (IHv _ _ _ Ev (number_ends_before _ _ _ Es eq_refl)), Es.
      change (Ascii.eqb "," ",") with true. cbn iota.
      destruct (parse_members f (skip_ws r4)) as [[kvs' r']|] eqn:Em; [|discriminate].
      apply IHm in Em. now intros [= _ <-].
    + destruct (Ascii.eqb c "}") eqn:Ec2; [|discriminate].
      apply Ascii.eqb_eq in Ec2 as ->.
      rewrite (IHv _ _ _ Ev (number_ends_before _ _ _ Es eq_refl)), Es.
      change (Ascii.eqb "}" ",") with false. change (Ascii.eqb "}" "}") with true.
      cbn iota. now intros [= _ <-].
Qed.

(** A text that is decoded is JSON. *)
Lemma json_loads_is_json s v : json_loads s = Some v -> json_syntax s = true.
Proof.
  unfold json_loads, json_syntax.
  destruct (parse_value _ _) as [[v' r]|] eqn:E; [|discriminate].
  destruct (skip_ws r) eqn:Es; [|discriminate]. intros _.
  rewrite (proj1 (scan_of_parse _) _ _ _ E (number_ends_at_end _ Es)).
  now rewrite Es.
Qed.

(** A text that is not JSON is not decoded. *)
Lemma not_json_not_decoded s : json_syntax s = false -> json_loads s = None.
Proof.
  intros H. destruct (json_loads s) as [v|] eqn:E; [|reflexivity].
  apply json_loads_is_json in E. congruence.
Qed.

(** *** The fuel of [json_syntax] is enough for every text *)

Lemma scan_string_len n : forall s r,
  (str_len s <= n)%nat -> scan_string s = Some r -> (str_len r < str_len s)%nat.
Proof.
  unfold str_len. induction n as [|n IH]; intros s r Hn.
  - destruct s; [discriminate|cbn [String.length] in Hn; lia].
  - destruct s as [|c s]; [discriminate|]. cbn [scan_string String.length] in *.
    destruct (Ascii.eqb c dquote); [intros [= <-]; lia|].
    destruct (Ascii.eqb c backslash).
    + destruct s as [|e s1]; [discriminate|].
      destruct (Ascii.eqb e "u").
      * destruct s1 as [|h1 [|h2 [|h3 [|h4 s2]]]]; try discriminate.
        destruct (hex4 h1 h2 h3 h4) as [k|]; [|discriminate].
        intros E. cbn [String.length] in *. apply IH in E; lia.
      * destruct (unescape e); [|discriminate].
        intros E. cbn [String.length] in *. apply IH in E; lia.
    + destruct (code c <? 32); [discriminate|].
      intros E. apply IH in E; lia.
Qed.

Lemma scan_digits_len s r : scan_digits s = Some r -> (str_len r < str_len s)%nat.
Proof.
  destruct s as [|c s]; [discriminate|]. cbn [scan_digits].
  destruct (is_digit c); [|discriminate]. intros [= <-].
  pose proof (take_digits_len s 0). unfold str_len in *. cbn [String.length]. lia.
Qed.

Lemma scan_fraction_len s : (str_len (scan_fraction s) <= str_len s)%nat.
Proof.
  destruct s as [|c s]; [reflexivity|]. cbn [scan_fraction].
  destruct (Ascii.eqb c "."); [|reflexivity].
  destruct (scan_digits s) as [r|] eqn:E; [|reflexivity].
  apply scan_digits_len in E. unfold str_len in *. cbn [String.length]. lia.
Qed.

Lemma scan_exponent_len s : (str_len (scan_exponent s) <= str_len s)%nat.
Proof.
  destruct s as [|c s]; [reflexivity|]. cbn [scan_exponent].
  destruct (Ascii.eqb c "e" || Ascii.eqb c "E"); [|reflexivity].
  destruct s as [|sign s'].
  - cbn [scan_digits]. reflexivity.
  - destruct (Ascii.eqb sign "-" || Ascii.eqb sign "+").
    + destruct (scan_digits s') as [r|] eqn:E; [|reflexivity].
      apply scan_digits_len in E. unfold str_len in *. cbn [String.length]. lia.
    + destruct (scan_digits (String sign s')) as [r|] eqn:E; [|reflexivity].
      apply scan_digits_len in E. unfold str_len in *. cbn [String.length] in *. lia.
Qed.

Lemma scan_number_len s r : scan_number s = Some r -> (str_len r < str_len s)%nat.
Proof.
  unfold scan_number. destruct (parse_int_lit s) as [[z r0]|] eqn:E; [|discriminate].
  apply parse_int_lit_len in E. intros [= <-].
  pose proof (scan_fraction_len r0). pose proof (scan_exponent_len (scan_fraction r0)).
  lia.
Qed.

Lemma strip_prefix_cons_len a p s r :
  strip_prefix (String a p) s = Some r -> (str_len r < str_len s)%nat.
Proof.
  destruct s as [|b s]; [discriminate|]. cbn [strip_prefix].
  destruct (Ascii.eqb a b); [|discriminate]. intros E%strip_prefix_len.
  unfold str_len in *. cbn [String.length]. lia.
Qed.

(** A successful step of the grammar takes at least one character. *)
Lemma scan_consumes fuel :
  (forall s r, scan_value fuel s = Some r -> (str_len r < str_len s)%nat)
  /\ (forall s r, scan_elems fuel s = Some r -> (str_len r < str_len s)%nat)
  /\ (forall s r, scan_members fuel s = Some r -> (str_len r < str_len s)%nat).
Proof.
  induction fuel as [|f (IHv & IHe & IHm)]; [repeat split; discriminate|].
  split_and!.
  - intros s r. rewrite scan_value_fuel_S.
    destruct s as [|c s]; [discriminate|].
    assert (Hc : str_len (String c s) = S (str_len s)) by reflexivity.
    pose proof (skip_ws_len s) as Hws.
    destruct (Ascii.eqb c dquote).
    { intros E. apply (scan_string_len _ _ _ (le_n _)) in E. lia. }
    destruct (Ascii.eqb c "{").
    { destruct (expect "}" (skip_ws s)) as [r'|] eqn:E.
      - apply expect_len in E. intros [= <-]. lia.
      - intros Em. apply IHm in Em. lia. }
    destruct (Ascii.eqb c "[").
    { destruct (expect "]" (skip_ws s)) as [r'|] eqn:E.
      - apply expect_len in E. intros [= <-]. lia.
      - intros Em. apply IHe in Em. lia. }
    destruct (Ascii.eqb c "n"); [intros E%strip_prefix_len; lia|].
    destruct (Ascii.eqb c "t"); [intros E%strip_prefix_len; lia|].
    destruct (Ascii.eqb c "f"); [intros E%strip_prefix_len; lia|].
    destruct (Ascii.eqb c "N"); [intros E%strip_prefix_len; lia|].
    destruct (Ascii.eqb c "I"); [intros E%strip_prefix_len; lia|].
    destruct (strip_prefix "-Infinity" (String c s)) as [r'|] eqn:E.
    + intros [= <-]. apply strip_prefix_cons_len in E. lia.
    + apply scan_number_len.
  - intros s r. rewrite scan_elems_fuel_S.
    destruct (scan_value f s) as [r0|] eqn:Ev; [|discriminate].
    apply IHv in Ev. pose proof (skip_ws_len r0) as Hws.
    destruct (skip_ws r0) as [|c r1] eqn:Es; [discriminate|].
    assert (Hc : str_len (String c r1) = S (str_len r1)) by reflexivity.
    pose proof (skip_ws_len r1) as Hws1.
    destruct (Ascii.eqb c ",").
    + intros Ee. apply IHe in Ee. lia.
    + destruct (Ascii.eqb c "]"); [|discriminate]. intros [= <-]. lia.
  - intros s r. rewrite scan_members_fuel_S.
    destruct s as [|q s]; [discriminate|].
    assert (Hc : str_len (String q s) = S (str_len s)) by reflexivity.
    destruct (Ascii.eqb q dquote); [|discriminate].
    destruct (scan_string s) as [r1|] eqn:Ek; [|discriminate].
    apply (scan_string_len _ _ _ (le_n _)) in Ek.
    pose proof (skip_ws_len r1) as Hws1.
    destruct (expect ":" (skip_ws r1)) as [r2|] eqn:Ex; [|discriminate].
    apply expect_len in Ex. pose proof (skip_ws_len r2) as Hws2.
    destruct (scan_value f (skip_ws r2)) as [r3|] eqn:Ev; [|discriminate].
    apply IHv in Ev. pose proof (skip_ws_len r3) as Hws3.
    destruct (skip_ws r3) as [|c r4] eqn:Es; [discriminate|].
    assert (Hc4 : str_len (String c r4) = S (str_len r4)) by reflexivity.
    pose proof (skip_ws_len r4) as Hws4.
    destruct (Ascii.eqb c ",").
    + intros Em. apply IHm in Em. lia.
    + destruct (Ascii.eqb c "}"); [|discriminate]. intros [= <-]. lia.
Qed.

(** With fuel above twice the length of the text, more fuel changes
    nothing. *)
Lemma scan_stable fuel : forall fuel',
  (forall s, (2 * str_len s + 2 <= fuel)%nat -> (2 * str_len s + 2 <= fuel')%nat ->
     scan_value fuel s = scan_value fuel' s)
  /\ (forall s, (2 * str_len s + 3 <= fuel)%nat -> (2 * str_len s + 3 <= fuel')%nat ->
        scan_elems fuel s = scan_elems fuel' s)
  /\ (forall s, (2 * str_len s + 3 <= fuel)%nat -> (2 * str_len s + 3 <= fuel')%nat ->
        scan_members fuel s = scan_members fuel' s).
Proof.
  induction fuel as [|f IH]; intros fuel'.
  { split_and!; intros s H; lia. }
  destruct fuel' as [|f']; [split_and!; intros s _ H; lia|].
  destruct (IH f') as (IHv & IHe & IHm).
  split_and!.
  - intros s H H'. rewrite !scan_value_fuel_S.
    destruct s as [|c s]; [reflexivity|].
    assert (Hc : str_len (String c s) = S (str_len s)) by reflexivity.
    pose proof (skip_ws_len s) as Hws.
    rewrite (IHm (skip_ws s)) by lia. rewrite (IHe (skip_ws s)) by lia.
    reflexivity.
  - intros s H H'. rewrite !scan_elems_fuel_S.
    rewrite (IHv s) by lia.
    destruct (scan_value f' s) as [r0|] eqn:Ev; [|reflexivity].
    apply (proj1 (scan_consumes f')) in Ev.
    pose proof (skip_ws_len r0) as Hws.
    destruct (skip_ws r0) as [|c r1] eqn:Es; [reflexivity|].
    assert (Hc : str_len (String c r1) = S (str_len r1)) by reflexivity.
    pose proof (skip_ws_len r1) as Hws1.
    rewrite (IHe (skip_ws r1)) by lia. reflexivity.
  - intros s H H'. rewrite !scan_members_fuel_S.
    destruct s as [|q s]; [reflexivity|].
    assert (Hc : str_len (String q s) = S (str_len s)) by reflexivity.
    destruct (Ascii.eqb q dquote); [|reflexivity].
    destruct (scan_string s) as [r1|] eqn:Ek; [|reflexivity].
    apply (scan_string_len _ _ _ (le_n _)) in Ek.
    pose proof (skip_ws_len r1) as Hws1.
    destruct (expect ":" (skip_ws r1)) as [r2|] eqn:Ex; [|reflexivity].
    apply expect_len in Ex. pose proof (skip_ws_len r2) as Hws2.
    rewrite (IHv (skip_ws r2)) by lia.
    destruct (scan_value f' (skip_ws r2)) as [r3|] eqn:Ev; [|reflexivity].
    apply (proj1 (scan_consumes f')) in Ev. pose proof (skip_ws_len r3) as Hws3.
    destruct (skip_ws r3) as [|c r4] eqn:Es; [reflexivity|].
    assert (Hc4 : str_len (String c r4) = S (str_len r4)) by reflexivity.
    pose proof (skip_ws_len r4) as Hws4.
    rewrite (IHm (skip_ws r4)) by lia. reflexivity.
Qed.

(** [json_syntax] does not say no for want of fuel: with any amount of fuel
    more, the grammar gives the same answer. *)
Lemma json_syntax_fuel_is_enough s more :
  scan_value (2 * str_len s + 2 + more) (skip_ws s)
  = scan_value (2 * str_len s + 2) (skip_ws s).
Proof.
  pose proof (skip_ws_len s). apply (proj1 (scan_stable _ _)); lia.
Qed.

(** Numbers with a fraction or an exponent, [NaN] and the infinities are
    JSON for [json.load], and beyond what the decoder reads; a number that
    stops at its point is not JSON. *)
Lemma json_beyond_the_decoder :
  json_syntax "[1.5, -2e3, 0E+7, NaN, -Infinity, Infinity]" = true
  /\ json_loads "[1.5, -2e3, 0E+7, NaN, -Infinity, Infinity]" = None
  /\ json_syntax "[1., 2]" = false
  /\ json_syntax "[1.5e]" = false
  /\ json_syntax "[01]" = false
  /\ json_syntax "{" = false.
Proof. split_and!; vm_compute; reflexivity. Qed.

(** ** [_read_index], case by case *)

Ltac unfold_M :=
  unfold bind, ret, raise, try_except, of_option, path_exists, read_text,
    write_text, print, sleep, log in *.

Ltac use E := repeat (progress (cbn; rewrite ?E)); cbn.


Lemma in_bounds_dec i n : {0 <= i < n} + {~ 0 <= i < n}.
Proof. destruct (Z_le_dec 0 i), (Z_lt_dec i n); (left; lia) || (right; lia). Qed.

Lemma in_bounds_true i n : 0 <= i < n -> (0 <=? i) && (i <? n) = true.
Proof. intros. apply andb_true_iff. split; [apply Z.leb_le | apply Z.ltb_lt]; lia. Qed.

Lemma in_bounds_false i n : ~ 0 <= i < n -> (0 <=? i) && (i <? n) = false.
Proof.
  intros H. apply not_true_is_false. intros E. apply H.
  apply andb_true_iff in E as [E1 E2]. apply Z.leb_le in E1. apply Z.ltb_lt in E2. lia.
Qed.

Lemma read_index_missing self w :
  files w !! index_path self = None -> _read_index self w = (w, Ok 0).
Proof. intros E. unfold _read_index. unfold_M. use E; reflexivity. Qed.

Lemma read_index_unreadable self w f :
  files w !! index_path self = Some f -> readable f = false ->
  _read_index self w = (log (EvOpenRead (index_path self)) w, Ok 0).
Proof. intros E R. unfold _read_index. unfold_M. use E; use R; reflexivity. Qed.

Lemma read_index_not_int self w f :
  files w !! index_path self = Some f -> readable f = true ->
  py_int (strip (content f)) = None ->
  _read_index self w = (log (EvOpenRead (index_path self)) w, Ok 0).
Proof. intros E R P. unfold _read_index. unfold_M. use E; use R; use P; reflexivity. Qed.

Lemma read_index_out_of_range self w f i :
  files w !! index_path self = Some f -> readable f = true ->
  py_int (strip (content f)) = Some i -> ~ 0 <= i < len (items self) ->
  _read_index self w = (log (EvOpenRead (index_path self)) w, Ok 0).
Proof.
  intros E R P B. unfold _read_index. unfold_M.
  use E; use R; use P; use (in_bounds_false _ _ B); reflexivity.
Qed.

Lemma read_index_in_range self w f i :
  files w !! index_path self = Some f -> readable f = true ->
  py_int (strip (content f)) = Some i -> 0 <= i < len (items self) ->
  _read_index self w = (log (EvOpenRead (index_path self)) w, Ok i).
Proof.
  intros E R P B. unfold _read_index. unfold_M.
  use E; use R; use P; use (in_bounds_true _ _ B); reflexivity.
Qed.

(** The cursor that [_read_index] returns, as a function of the files. *)
Lemma read_index_returns self w :
  exists r w', _read_index self w = (w', Ok r) /\ files w' = files w
    /\ (exists evs, events w' = events w ++ evs
                    /\ forall e, e ∈ evs -> e = EvOpenRead (index_path self))
    /\ (r = 0 \/ (index_file_holds self w r /\ 0 <= r < len (items self))).
Proof.
  destruct (files w !! index_path self) as [f|] eqn:E.
  2:{ exists 0, w. rewrite (read_index_missing _ _ E). repeat split; auto.
      exists []. rewrite app_nil_r. split; [reflexivity|]. intros e He. inversion He. }
  assert (Hev : exists evs, events (log (EvOpenRead (index_path self)) w) = events w ++ evs
                    /\ forall e, e ∈ evs -> e = EvOpenRead (index_path self)).
  { exists [EvOpenRead (index_path self)]. split; [reflexivity|].
    intros e He. apply list_elem_of_singleton in He. exact He. }
  destruct (readable f) eqn:R.
  2:{ eexists 0, _. rewrite (read_index_unreadable _ _ _ E R). repeat split; auto. }
  destruct (py_int (strip (content f))) as [i|] eqn:P.
  2:{ eexists 0, _. rewrite (read_index_not_int _ _ _ E R P). repeat split; auto. }
  destruct (in_bounds_dec i (len (items self))) as [B|B].
  - eexists i, _. rewrite (read_index_in_range _ _ _ _ E R P B). repeat split; auto.
    right. split; [|exact B]. exists f. auto.
  - eexists 0, _. rewrite (read_index_out_of_range _ _ _ _ E R P B). repeat split; auto.
Qed.

Lemma len_pos_nonempty {A} (l : list A) : l <> [] -> 0 < len l.
Proof. destruct l; [congruence|]. unfold len. simpl. lia. Qed.

Lemma read_index_bounds self w r w' :
  items self <> [] -> _read_index self w = (w', Ok r) -> 0 <= r < len (items self).
Proof.
  intros Hne E. destruct (read_index_returns self w) as (r0 & w0 & E0 & _ & _ & Hr).
  rewrite E in E0. injection E0 as <- <-.
  destruct Hr as [->|[_ B]]; [|exact B]. pose proof (len_pos_nonempty _ Hne). lia.
Qed.

(** ** [_write_index] and one call of [assign] *)




Lemma write_text_ok w path text :
  can_write w path = true ->
  write_text path text w
  = (mkWorld (<[path := written_file w path text]> (files w))
             (events w ++ [EvWrite path text]), Ok tt).
Proof.
  unfold can_write, written_file, write_text.
  destruct (files w !! path) as [f|]; [|reflexivity].
  now intros ->.
Qed.

Lemma write_text_denied w path text :
  can_write w path = false -> write_text path text w = (w, Raise PermissionError).
Proof.
  unfold can_write, write_text.
  destruct (files w !! path) as [f|]; [|discriminate].
  now intros ->.
Qed.

Lemma write_index_ok self j w :
  can_write w (index_path self) = true ->
  _write_index self j w
  = (mkWorld (<[index_path self := written_file w (index_path self) (py_str j)]> (files w))
             (events w ++ [EvWrite (index_path self) (py_str j)]), Ok tt).
Proof.
  intros C. unfold _write_index, try_except. now rewrite (write_text_ok _ _ _ C).
Qed.

Lemma write_index_denied self j w :
  can_write w (index_path self) = false ->
  _write_index self j w = (log (EvPrint "Error writing index file") w, Ok tt).
Proof.
  intros C. unfold _write_index, try_except. now rewrite (write_text_denied _ _ _ C).
Qed.

Lemma py_index_in_range {A} (l : list A) i :
  0 <= i < len l -> exists x, py_index l i = Some x /\ l !! Z.to_nat i = Some x.
Proof.
  intros B. unfold py_index. rewrite (in_bounds_true _ _ B).
  destruct (l !! Z.to_nat i) as [x|] eqn:E; [eauto|].
  apply lookup_ge_None in E. unfold len in B. lia.
Qed.

Lemma str_eqb_refl s : str_eqb s s = true.
Proof. unfold str_eqb. now apply bool_decide_eq_true. Qed.

Lemma str_in_elem x (l : list string) : x ∈ l -> str_in x l = true.
Proof.
  intros H. unfold str_in. apply existsb_exists. exists x. split.
  - now apply list_elem_of_In.
  - apply str_eqb_refl.
Qed.

Lemma py_mod_pos a n : 0 < n -> py_mod a n = Some (a mod n).
Proof. intros H. unfold py_mod. destruct (Z.eqb_spec n 0); [lia|reflexivity]. Qed.

(** One call of [assign] on an assigner with valid items: the item under
    the cursor is returned and the next cursor is handed to [_write_index]. *)
Lemma assign_run self w :
  valid_items self ->
  exists idx w1 item,
    _read_index self w = (w1, Ok idx)
    /\ 0 <= idx < len (items self)
    /\ items self !! Z.to_nat idx = Some item
    /\ assign self w
       = (fst (_write_index self ((idx + 1) mod len (items self)) w1), Ok item).
Proof.
  intros [Hne Hall].
  destruct (read_index_returns self w) as (idx & w1 & E & _ & _ & _).
  pose proof (read_index_bounds _ _ _ _ Hne E) as B.
  destruct (py_index_in_range _ _ B) as (item & Ei & El).
  exists idx, w1, item. repeat split; try assumption; try lia.
  unfold assign. unfold bind at 1. rewrite E.
  unfold bind at 1. rewrite Ei. cbn [of_option ret].
  assert (Ht : truthy item = true).
  { rewrite Forall_forall in Hall. apply Hall.
    apply list_elem_of_lookup. eauto. }
  assert (Hin : str_in item (items self) = true).
  { apply str_in_elem, list_elem_of_lookup. eauto. }
  rewrite Ht, Hin. cbn [negb orb].
  unfold bind at 1. cbn [ret].
  unfold bind at 1. rewrite py_mod_pos by lia. cbn [of_option ret].
  unfold bind.
  destruct (can_write w1 (index_path self)) eqn:C.
  - now rewrite write_index_ok.
  - now rewrite write_index_denied.
Qed.

(** ** Calls of [assign] in a row *)





Lemma index_file_holds_cursor_written self w j :
  0 <= j -> index_file_holds self (cursor_written self w j) j.
Proof.
  intros Hj. exists (File (py_str j) true true). cbn [files cursor_written].
  rewrite lookup_insert_eq. repeat split.
  cbn [content]. rewrite strip_py_str by exact Hj. now apply py_int_py_str.
Qed.

Lemma can_write_cursor_written self w j :
  can_write (cursor_written self w j) (index_path self) = true.
Proof. unfold can_write. cbn [files cursor_written]. now rewrite lookup_insert_eq. Qed.

Lemma next_cursor_bounds i n : 0 < n -> 0 <= (i + 1) mod n < n.
Proof. intros. apply Z.mod_pos_bound. lia. Qed.

(** One call on a cursor file that can be read and written. *)
Lemma assign_step self w i :
  valid_items self -> index_file_holds self w i -> 0 <= i < len (items self) ->
  can_write w (index_path self) = true ->
  exists item,
    items self !! Z.to_nat i = Some item
    /\ assign self w
       = (cursor_written self w ((i + 1) mod len (items self)), Ok item).
Proof.
  intros V (f & E & R & P) B C.
  destruct (assign_run self w V) as (idx & w1 & item & Er & _ & El & Ea).
  rewrite (read_index_in_range _ _ _ _ E R P B) in Er. injection Er as <- <-.
  exists item. split; [exact El|]. rewrite Ea.
  rewrite write_index_ok by exact C. cbn [fst]. unfold cursor_written, log.
  cbn [files events]. f_equal. f_equal.
  - unfold written_file. cbn [files]. rewrite E. now rewrite R.
  - now rewrite <- app_assoc.
Qed.

Lemma assign_many_cycle self k : forall w i,
  valid_items self -> index_file_holds self w i -> 0 <= i < len (items self) ->
  can_write w (index_path self) = true ->
  exists w',
    assign_many k self w = (w', Ok (cycle_from (items self) i k))
    /\ index_file_holds self w' ((i + Z.of_nat k) mod len (items self))
    /\ can_write w' (index_path self) = true.
Proof.
  induction k as [|k IH]; intros w i V H B C.
  - exists w. cbn. rewrite Z.add_0_r, Z.mod_small by lia. auto.
  - destruct (assign_step self w i V H B C) as (item & El & Ea).
    pose proof (next_cursor_bounds i (len (items self)) ltac:(lia)) as B'.
    destruct (IH (cursor_written self w ((i + 1) mod len (items self)))
                 ((i + 1) mod len (items self)) V
                 (index_file_holds_cursor_written _ _ _ (proj1 B')) B'
                 (can_write_cursor_written _ _ _)) as (w' & Em & H' & C').
    exists w'. split; [|split; [|exact C']].
    + cbn [assign_many]. unfold bind at 1. rewrite Ea.
      unfold bind at 1. rewrite Em. cbn [ret cycle_from].
      destruct (py_index_in_range (items self) i B) as (x & -> & Ex).
      rewrite El in Ex. now injection Ex as ->.
    + rewrite Nat2Z.inj_succ.
      replace (i + Z.succ (Z.of_nat k)) with ((i + 1) + Z.of_nat k) by lia.
      rewrite Zplus_mod_idemp_l in H'. exact H'.
Qed.

Lemma cycle_from_take (l : list string) k : forall i,
  0 <= i -> i + Z.of_nat k <= len l ->
  cycle_from l i k = take k (drop (Z.to_nat i) l).
Proof.
  induction k as [|k IH]; intros i H0 H1; [reflexivity|].
  cbn [cycle_from].
  destruct (py_index_in_range l i ltac:(lia)) as (x & -> & Ex).
  erewrite drop_S by exact Ex. cbn [take]. f_equal.
  destruct k as [|k']; [reflexivity|].
  rewrite Z.mod_small by lia. rewrite IH by lia.
  now replace (Z.to_nat (i + 1)) with (S (Z.to_nat i)) by lia.
Qed.

Lemma cycle_from_app (l : list string) a : forall i b,
  0 <= i < len l ->
  cycle_from l i (a + b)
  = cycle_from l i a ++ cycle_from l ((i + Z.of_nat a) mod len l) b.
Proof.
  induction a as [|a IH]; intros i b B.
  - cbn. now rewrite Z.add_0_r, Z.mod_small by lia.
  - cbn [Nat.add cycle_from].
    destruct (py_index_in_range l i B) as (x & -> & _).
    cbn [app]. f_equal. rewrite IH by (apply Z.mod_pos_bound; lia).
    f_equal. f_equal. rewrite Zplus_mod_idemp_l. f_equal. lia.
Qed.

(** A full round from cursor [i] is the list, rotated to start at [i]. *)
Lemma cycle_from_full (l : list string) i :
  0 <= i < len l ->
  cycle_from l i (length l) = drop (Z.to_nat i) l ++ take (Z.to_nat i) l.
Proof.
  intros B. unfold len in B.
  replace (length l) with ((length l - Z.to_nat i) + Z.to_nat i)%nat at 1 by lia.
  rewrite cycle_from_app by exact B.
  rewrite cycle_from_take by (unfold len; lia).
  rewrite take_ge by (rewrite length_drop; lia).
  f_equal.
  replace ((i + Z.of_nat (length l - Z.to_nat i)) mod len l) with 0.
  - rewrite cycle_from_take by (unfold len; lia). now rewrite drop_0.
  - unfold len. replace (i + Z.of_nat (length l - Z.to_nat i)) with (Z.of_nat (length l)) by lia.
    now rewrite Z_mod_same_full.
Qed.

(** ** Computations that depend on the files only *)

Lemma files_only_ret {A} (a : A) : files_only (ret a).
Proof. intros w w' E. now split. Qed.

Lemma files_only_raise {A} e : files_only (@raise A e).
Proof. intros w w' E. now split. Qed.

Lemma files_only_bind {A B} (m : M A) (k : A -> M B) :
  files_only m -> (forall a, files_only (k a)) -> files_only (bind m k).
Proof.
  intros Hm Hk w w' E. unfold bind.
  destruct (Hm w w' E) as [Ef Er].
  destruct (m w) as [w1 r1], (m w') as [w1' r1']. cbn [fst snd] in *. subst r1'.
  destruct r1 as [a|e|]; [apply Hk; exact Ef| |]; now split.
Qed.

Lemma files_only_try_except {A} (m : M A) c h :
  files_only m -> (forall e, files_only (h e)) -> files_only (try_except m c h).
Proof.
  intros Hm Hh w w' E. unfold try_except.
  destruct (Hm w w' E) as [Ef Er].
  destruct (m w) as [w1 r1], (m w') as [w1' r1']. cbn [fst snd] in *. subst r1'.
  destruct r1 as [a|e|]; [now split| |now split].
  destruct (c e); [apply Hh; exact Ef|now split].
Qed.

Lemma files_only_of_option {A} e (o : option A) : files_only (of_option e o).
Proof. destruct o; [apply files_only_ret|apply files_only_raise]. Qed.

Lemma files_only_path_exists p : files_only (path_exists p).
Proof. intros w w' E. unfold path_exists. cbn [fst snd]. now rewrite E. Qed.

Lemma files_only_read_text p : files_only (read_text p).
Proof.
  intros w w' E. unfold read_text, log. rewrite E.
  destruct (files w' !! p) as [f|]; [destruct (readable f)|]; now split.
Qed.

Lemma files_only_write_text p t : files_only (write_text p t).
Proof.
  intros w w' E. unfold write_text. rewrite E.
  destruct (files w' !! p) as [f|]; [destruct (writable f)|]; cbn [fst snd files];
    now split.
Qed.

Lemma files_only_print s : files_only (print s).
Proof. intros w w' E. now split. Qed.

Lemma files_only_sleep n : files_only (sleep n).
Proof. intros w w' E. now split. Qed.

Lemma files_only_pure {A} (m : M A) : pure_M m -> files_only m.
Proof. intros [r Hr] w w' E. now rewrite !Hr. Qed.

Create HintDb files_only.
#[local] Hint Resolve files_only_ret files_only_raise files_only_of_option
  files_only_path_exists files_only_read_text files_only_write_text
  files_only_print files_only_sleep : files_only.

Ltac files_only_tac :=
  repeat first
    [ progress auto with files_only
    | apply files_only_bind; [|intros]
    | apply files_only_try_except; [|intros]
    | match goal with
      | |- files_only (if ?b then _ else _) => destruct b
      | |- files_only (match ?x with _ => _ end) => destruct x
      end ].

(** ** Pure computations on JSON values *)

Lemma pure_ret {A} (a : A) : pure_M (ret a).
Proof. now exists (Ok a). Qed.

Lemma pure_raise {A} e : pure_M (@raise A e).
Proof. now exists (Raise e). Qed.

Lemma pure_bind {A B} (m : M A) (k : A -> M B) :
  pure_M m -> (forall a, pure_M (k a)) -> pure_M (bind m k).
Proof.
  intros [r Hr] Hk. unfold bind. destruct r as [a|e|].
  - destruct (Hk a) as [r' Hr']. exists r'. intros w. now rewrite Hr, Hr'.
  - exists (Raise e). intros w. now rewrite Hr.
  - exists OutOfFuel. intros w. now rewrite Hr.
Qed.

Lemma pure_of_option {A} e (o : option A) : pure_M (of_option e o).
Proof. destruct o; [apply pure_ret|apply pure_raise]. Qed.

Lemma pure_py_iter v : pure_M (py_iter v).
Proof. destruct v; cbn [py_iter]; (apply pure_ret || apply pure_raise). Qed.

Lemma pure_py_getitem v k : pure_M (py_getitem v k).
Proof. destruct v; cbn [py_getitem]; (apply pure_of_option || apply pure_raise). Qed.

Lemma pure_py_append v x : pure_M (py_append v x).
Proof. destruct v; cbn [py_append]; (apply pure_ret || apply pure_raise). Qed.

Lemma pure_json_load t : pure_M (json_load t).
Proof. apply pure_of_option. Qed.

Lemma pure_any_code_name name l : pure_M (any_code_name name l).
Proof.
  induction l as [|p l IH]; cbn [any_code_name]; [apply pure_ret|].
  apply pure_bind; [apply pure_py_getitem|]. intros v.
  destruct (json_eq_str v name); [apply pure_ret|exact IH].
Qed.

Lemma any_code_name_app name l l' w :
  any_code_name name l w = (w, Ok false) ->
  any_code_name name (l ++ l') w = any_code_name name l' w.
Proof.
  induction l as [|p l IH]; [reflexivity|].
  cbn [any_code_name app]. unfold bind.
  destruct (pure_py_getitem p "code_name") as [r Hr]. rewrite Hr.
  destruct r as [v|e|]; try discriminate.
  destruct (json_eq_str v name); [discriminate|exact IH].
Qed.

(** ** [save_player_to_lobby_file] *)

Lemma json_wf_arr l : json_wf (JArr l) = forallb json_wf l.
Proof. reflexivity. Qed.

(** The lobby directory is never the empty path, so making it passes. *)
Lemma save_player_body asdict ps :
  save_player_to_lobby_file asdict ps
  = (e <- path_exists (lobby_file_path ps) ;;
     players <-
       (if e then
          text <- read_text (lobby_file_path ps) ;;
          try_except (json_load text) is_JSONDecodeError (fun _ => ret (JArr []))
        else ret (JArr [])) ;;
     elems <- py_iter players ;;
     found <- any_code_name (code_name ps) elems ;;
     players <-
       (if negb found then py_append players (JObj (asdict ps))
        else ret players) ;;
     write_text (lobby_file_path ps) (json_dumps players)).
Proof. reflexivity. Qed.

Section SaveOnce.

Variable asdict : PlayerState -> list (string * json).
Variable ps : PlayerState.

Hypothesis asdict_code_name :
  dict_get "code_name" (asdict ps) = Some (JStr (code_name ps)).
Hypothesis asdict_wf : json_wf (JObj (asdict ps)) = true.

Local Abbreviation path := (lobby_file_path ps).

Lemma save_files_only : files_only (save_player_to_lobby_file asdict ps).
Proof.
  rewrite save_player_body.
  files_only_tac; apply files_only_pure;
    (apply pure_json_load || apply pure_py_iter || apply pure_any_code_name
     || apply pure_py_append || apply pure_ret).
Qed.

Lemma any_code_name_self l w :
  any_code_name (code_name ps) l w = (w, Ok false) ->
  any_code_name (code_name ps) (l ++ [JObj (asdict ps)]) w = (w, Ok true).
Proof.
  intros H. rewrite (any_code_name_app _ _ _ _ H).
  cbn [any_code_name py_getitem]. unfold bind. rewrite asdict_code_name.
  cbn [of_option ret json_eq_str]. now rewrite str_eqb_refl.
Qed.

(** A call either leaves the files alone or writes a roster. *)
Lemma save_once w w1 r :
  save_player_to_lobby_file asdict ps w = (w1, r) ->
  files w1 = files w
  \/ exists pl, saved_roster path (code_name ps) w1 pl
       /\ files w1 = <[path := File (json_dumps (JArr pl)) true true]> (files w).
Proof.
  rewrite save_player_body.
  unfold bind at 1. unfold path_exists.
  destruct (files w !! path) as [f|] eqn:Ef.
  - (* the roster file exists *)
    unfold bind at 1. unfold bind at 1. unfold read_text. rewrite Ef.
    destruct (readable f) eqn:R; [|intros [= <- <-]; left; reflexivity].
    set (w0 := log (EvOpenRead path) w).
    assert (Ew0 : files w0 !! path = Some f) by exact Ef.
    assert (Hload : exists v, json_wf v = true /\
              try_except (json_load (content f)) is_JSONDecodeError
                (fun _ => ret (JArr [])) w0 = (w0, Ok v)).
    { unfold try_except, json_load, of_option.
      destruct (json_loads (content f)) as [v|] eqn:El.
      - exists v. split; [eapply json_loads_wf; exact El|reflexivity].
      - exists (JArr []). split; reflexivity. }
    destruct Hload as (v & Hv & ->).
    unfold bind at 1. destruct (pure_py_iter v) as [ri Hri]. rewrite Hri.
    destruct ri as [elems|e|]; try (intros [= <- <-]; left; reflexivity).
    unfold bind at 1.
    destruct (pure_any_code_name (code_name ps) elems) as [ra Hra]. rewrite Hra.
    destruct ra as [found|e|]; try (intros [= <- <-]; left; reflexivity).
    unfold bind.
    destruct v as [ | b | z | s | l | kvs];
      try (cbn [py_iter] in Hri; specialize (Hri w0); discriminate Hri).
    + (* a string: only the empty one gets this far, and cannot append *)
      destruct found; cbn [negb py_append raise ret];
        [|intros [= <- <-]; left; reflexivity].
      exfalso. specialize (Hri w0). cbn [py_iter ret] in Hri.
      injection Hri as <-. specialize (Hra w0).
      destruct s as [|c s]; cbn in Hra; discriminate Hra.
    + (* a list *)
      specialize (Hri w0). cbn [py_iter ret] in Hri. injection Hri as <-.
      destruct found; cbn [negb py_append ret].
      * unfold write_text. rewrite Ew0.
        destruct (writable f); [|intros [= <- <-]; left; reflexivity].
        intros [= <- <-]. right. exists l. cbn [files]. rewrite R.
        split; [|reflexivity].
        split; [apply lookup_insert_eq|]. split; [exact Hv|exact Hra].
      * unfold write_text. rewrite Ew0.
        destruct (writable f); [|intros [= <- <-]; left; reflexivity].
        intros [= <- <-]. right. exists (l ++ [JObj (asdict ps)]).
        cbn [files]. rewrite R. split; [|reflexivity].
        split; [apply lookup_insert_eq|]. split.
        -- rewrite json_wf_arr in *. rewrite forallb_app, Hv. cbn [forallb].
           now rewrite asdict_wf.
        -- intros w'. apply any_code_name_self. apply Hra.
    + (* a dict: its keys are strings, which have no items *)
      destruct found; cbn [negb py_append raise ret];
        [|intros [= <- <-]; left; reflexivity].
      exfalso. specialize (Hri w0). cbn [py_iter ret] in Hri.
      injection Hri as <-. specialize (Hra w0).
      destruct kvs as [|kv kvs]; cbn in Hra; discriminate Hra.
  - (* no roster file yet *)
    cbn [negb]. unfold bind at 1. cbn [ret py_iter]. unfold bind at 1.
    cbn [ret any_code_name]. unfold bind at 1. cbn [ret negb py_append app].
    unfold bind. cbn [ret]. unfold write_text. rewrite Ef.
    intros [= <- <-].
    right. exists [JObj (asdict ps)]. cbn [files]. split; [|reflexivity].
    split; [apply lookup_insert_eq|]. split.
    + rewrite json_wf_arr. cbn [forallb]. now rewrite asdict_wf.
    + intros w'. apply (any_code_name_self [] w'). reflexivity.
Qed.

(** A call on a world whose roster file was written by a call before. *)
Lemma save_again w1 pl :
  saved_roster path (code_name ps) w1 pl ->
  files (fst (save_player_to_lobby_file asdict ps w1)) = files w1.
Proof.
  intros (Ef & Hwf & Hany).
  rewrite save_player_body.
  unfold bind at 1. unfold path_exists. rewrite Ef.
  unfold bind at 1. unfold bind at 1. unfold read_text. rewrite Ef.
  cbn [readable content negb].
  unfold try_except, json_load. rewrite (json_loads_dumps _ Hwf).
  cbn [of_option ret]. unfold bind at 1. cbn [py_iter ret].
  unfold bind at 1. rewrite Hany. unfold bind. cbn [negb ret].
  unfold write_text, log. cbn [files]. rewrite Ef. cbn [writable readable fst files].
  apply insert_id. exact Ef.
Qed.

End SaveOnce.

(** ** [_load_items] *)

Lemma strip_upper_items_strings source w :
  strip_upper_items (map JStr source) w = (w, Ok (clean_items source)).
Proof.
  induction source as [|s source IH]; [reflexivity|].
  cbn [map strip_upper_items]. unfold bind. rewrite IH. cbn [ret].
  unfold clean_items. rewrite filter_cons.
  destruct (truthy (strip s)) eqn:E.
  - rewrite decide_True by reflexivity. reflexivity.
  - rewrite decide_False by discriminate. reflexivity.
Qed.

Lemma strip_upper_items_result l w :
  (exists source, l = map JStr source
                  /\ strip_upper_items l w = (w, Ok (clean_items source)))
  \/ (strip_upper_items l w = (w, Raise AttributeError)
      /\ ~ exists source, l = map JStr source).
Proof.
  induction l as [|x l IH].
  - left. exists []. split; reflexivity.
  - destruct x as [ | b | z | s | l' | kvs];
      try (right; split; [reflexivity|]; intros [[|s0 src] E]; discriminate E).
    destruct IH as [(source & -> & E)|[E Hn]].
    + left. exists (s :: source). split; [reflexivity|].
      apply (strip_upper_items_strings (s :: source)).
    + right. split.
      * cbn [strip_upper_items]. unfold bind. now rewrite E.
      * intros [[|s0 src] E']; [discriminate|]. injection E' as _ ->.
        apply Hn. now exists src.
Qed.

(** What [_load_items] does, file by file. *)
Lemma load_items_cases list_path key w :
  match files w !! list_path with
  | None => _load_items list_path key w = (w, Raise FileNotFoundError)
  | Some f =>
      let w' := log (EvOpenRead list_path) w in
      if negb (readable f) then _load_items list_path key w = (w', Raise IOError)
      else
        match json_loads (content f) with
        | None => _load_items list_path key w = (w', Raise IOError)
        | Some (JObj kvs) =>
            match dict_get key kvs with
            | None => _load_items list_path key w = (w', Raise ValueError)
            | Some (JArr l) =>
                (exists source, l = map JStr source
                   /\ _load_items list_path key w
                      = (w', match clean_items source with
                             | [] => Raise ValueError
                             | its => Ok its
                             end))
                \/ ((~ exists source, l = map JStr source)
                    /\ _load_items list_path key w = (w', Raise AttributeError))
            | Some _ => _load_items list_path key w = (w', Raise ValueError)
            end
        | Some (JArr l) =>
            _load_items list_path key w
            = (w', Raise (if existsb (fun x => json_eq_str x key) l
                          then TypeError else ValueError))
        | Some (JStr s) =>
            _load_items list_path key w
            = (w', Raise (if substring_of key s then TypeError else ValueError))
        | Some _ => _load_items list_path key w = (w', Raise TypeError)
        end
  end.
Proof.
  destruct (files w !! list_path) as [f|] eqn:Ef.
  2:{ unfold _load_items, bind, path_exists. now rewrite Ef. }
  cbn zeta. destruct (readable f) eqn:R; cbn [negb].
  2:{ unfold _load_items, json_load. unfold_M. use Ef. use R. reflexivity. }
  destruct (json_loads (content f)) as [data|] eqn:El.
  2:{ unfold _load_items, json_load. unfold_M. use Ef. use R. use El. reflexivity. }
  destruct data as [ | b | z | s | l | kvs].
  - unfold _load_items, json_load. unfold_M. use Ef. use R. use El. reflexivity.
  - unfold _load_items, json_load. unfold_M. use Ef. use R. use El. reflexivity.
  - unfold _load_items, json_load. unfold_M. use Ef. use R. use El. reflexivity.
  - unfold _load_items, json_load. unfold_M. use Ef. use R. use El.
    destruct (substring_of key s); reflexivity.
  - unfold _load_items, json_load. unfold_M. use Ef. use R. use El.
    destruct (existsb (fun x => json_eq_str x key) l); reflexivity.
  - destruct (dict_get key kvs) as [bound|] eqn:Eg.
    2:{ unfold _load_items, json_load. unfold_M. use Ef. use R. use El. use Eg.
        reflexivity. }
    destruct bound as [ | b | z | s | l | kvs'];
      try (unfold _load_items, json_load; unfold_M; use Ef; use R; use El; use Eg;
           reflexivity).
    destruct (strip_upper_items_result l (log (EvOpenRead list_path) w))
      as [(source & -> & E)|[E Hn]].
    + left. exists source. split; [reflexivity|].
      unfold _load_items, json_load. unfold_M. use Ef. use R. use El. use Eg.
      unfold log in E. rewrite E. now destruct (clean_items source).
    + right. split; [exact Hn|].
      unfold _load_items, json_load. unfold_M. use Ef. use R. use El. use Eg.
      unfold log in E. now rewrite E.
Qed.

(** ** The cursor of [SequentialAssigner] *)

(** One call of [assign] on an assigner with some items: the cursor is read,
    a warning may be printed, and the next cursor is handed to
    [_write_index]. *)
Lemma assign_run_any self w :
  items self <> [] ->
  exists idx w1 w2 item,
    _read_index self w = (w1, Ok idx)
    /\ 0 <= idx < len (items self)
    /\ (w2 = w1 \/ exists x, w2 = log (EvPrint (invalid_item_warning x)) w1)
    /\ item ∈ items self
    /\ assign self w
       = (fst (_write_index self ((idx + 1) mod len (items self)) w2), Ok item).
Proof.
  intros Hne.
  destruct (read_index_returns self w) as (idx & w1 & E & _ & _ & _).
  pose proof (read_index_bounds _ _ _ _ Hne E) as B.
  destruct (py_index_in_range _ _ B) as (item & Ei & El).
  assert (Hin : str_in item (items self) = true).
  { apply str_in_elem, list_elem_of_lookup. eauto. }
  assert (Hw : forall w2 (sel : string),
    (_write_index self ((idx + 1) mod len (items self)) ;;; ret sel) w2
    = (fst (_write_index self ((idx + 1) mod len (items self)) w2), Ok sel)).
  { intros w2 sel. unfold bind.
    destruct (can_write w2 (index_path self)) eqn:C.
    - now rewrite write_index_ok.
    - now rewrite write_index_denied. }
  unfold assign. unfold bind at 1. rewrite E.
  unfold bind at 1. rewrite Ei. cbn [of_option ret].
  rewrite Hin. cbn [negb]. rewrite orb_false_r.
  destruct (truthy item) eqn:Ht; cbn [negb].
  - exists idx, w1, w1, item. split_and!; try lia; auto.
    { apply list_elem_of_lookup. eauto. }
    unfold bind at 1. cbn [ret].
    unfold bind at 1. rewrite py_mod_pos by lia. cbn [of_option ret].
    apply Hw.
  - destruct (py_index_in_range (items self) 0 ltac:(lia)) as (first & E0 & El0).
    exists idx, w1, (log (EvPrint (invalid_item_warning item)) w1), first.
    split_and!; try lia; auto.
    { right. eauto. }
    { apply list_elem_of_lookup. eauto. }
    unfold bind at 1. unfold bind at 1. cbn [print]. rewrite E0. cbn [of_option ret].
    unfold bind at 1. rewrite py_mod_pos by lia. cbn [of_option ret].
    apply Hw.
Qed.

(** C3. [_read_index] falls back to the cursor 0 in every failure case: no
    cursor file, a text that is not an integer, a read that raises an
    [IOError], an integer outside the bounds of the list.  Only a cursor
    file that holds an integer within the bounds makes it return that
    integer; the files are left as they are. *)
Theorem read_index_falls_back_to_zero (self : SequentialAssigner) (w : World) :
  (files w !! index_path self = None -> snd (_read_index self w) = Ok 0)
  /\ (forall f, files w !! index_path self = Some f ->
        (readable f = false ->
           (exists e, snd (read_text (index_path self) w) = Raise e
                      /\ is_IOError e = true)
           /\ snd (_read_index self w) = Ok 0)
        /\ (readable f = true -> py_int (strip (content f)) = None ->
              snd (_read_index self w) = Ok 0)
        /\ (forall i, readable f = true -> py_int (strip (content f)) = Some i ->
              ~ 0 <= i < len (items self) -> snd (_read_index self w) = Ok 0)
        /\ (forall i, readable f = true -> py_int (strip (content f)) = Some i ->
              0 <= i < len (items self) -> snd (_read_index self w) = Ok i))
  /\ (forall r, snd (_read_index self w) = Ok r -> r <> 0 ->
        index_file_holds self w r /\ 0 <= r < len (items self))
  /\ files (fst (_read_index self w)) = files w.
Proof.
  split_and!.
  - intros E. now rewrite (read_index_missing _ _ E).
  - intros f E. split_and!.
    + intros R. split.
      * exists PermissionError. unfold read_text. now rewrite E, R.
      * now rewrite (read_index_unreadable _ _ _ E R).
    + intros R P. now rewrite (read_index_not_int _ _ _ E R P).
    + intros i R P B. now rewrite (read_index_out_of_range _ _ _ _ E R P B).
    + intros i R P B. now rewrite (read_index_in_range _ _ _ _ E R P B).
  - intros r Er Hr.
    destruct (read_index_returns self w) as (r0 & w0 & E0 & _ & _ & H).
    rewrite E0 in Er. injection Er as ->. destruct H as [->|H]; [congruence|exact H].
  - destruct (read_index_returns self w) as (r0 & w0 & E0 & Hf & _).
    now rewrite E0.
Qed.

Lemma read_index_falls_back_to_zero_witness :
  snd (_read_index ex_assigner (ex_cursor_world "seven" true true)) = Ok 0
  /\ snd (_read_index ex_assigner (ex_cursor_world "7" true true)) = Ok 0
  /\ snd (_read_index ex_assigner (ex_cursor_world "2" false true)) = Ok 0
  /\ snd (_read_index ex_assigner (ex_cursor_world " 2 " true true)) = Ok 2
  /\ snd (_read_index ex_assigner (mkWorld ∅ [])) = Ok 0.
Proof.
  split_and!.
  - destruct (read_index_falls_back_to_zero ex_assigner
                (ex_cursor_world "seven" true true)) as (_ & H & _).
    destruct (H (File "seven" true true) eq_refl) as (_ & H2 & _).
    apply H2; reflexivity.
  - destruct (read_index_falls_back_to_zero ex_assigner
                (ex_cursor_world "7" true true)) as (_ & H & _).
    destruct (H (File "7" true true) eq_refl) as (_ & _ & H3 & _).
    apply (H3 7); [reflexivity|reflexivity|].
    unfold len. cbn. lia.
  - destruct (read_index_falls_back_to_zero ex_assigner
                (ex_cursor_world "2" false true)) as (_ & H & _).
    destruct (H (File "2" false true) eq_refl) as (H1 & _).
    apply H1. reflexivity.
  - destruct (read_index_falls_back_to_zero ex_assigner
                (ex_cursor_world " 2 " true true)) as (_ & H & _).
    destruct (H (File " 2 " true true) eq_refl) as (_ & _ & _ & H4).
    apply (H4 2); [reflexivity|reflexivity|].
    unfold len. cbn. lia.
  - destruct (read_index_falls_back_to_zero ex_assigner (mkWorld ∅ [])) as (H & _).
    apply H. reflexivity.
Defined.

Lemma write_index_effect self j w :
  0 <= j ->
  exists w', _write_index self j w = (w', Ok tt)
    /\ ((files w' = files w
         /\ events w' = events w ++ [EvPrint "Error writing index file"])
        \/ (files w' = <[index_path self := written_file w (index_path self) (py_str j)]>
                         (files w)
            /\ events w' = events w ++ [EvWrite (index_path self) (py_str j)])).
Proof.
  intros Hj. destruct (can_write w (index_path self)) eqn:C.
  - rewrite write_index_ok by exact C. eexists. split; [reflexivity|]. right. now split.
  - rewrite write_index_denied by exact C. eexists. split; [reflexivity|]. left. now split.
Qed.

Lemma cursor_in_bounds_written self w j :
  0 <= j < len (items self) ->
  cursor_in_bounds self
    (mkWorld (<[index_path self := written_file w (index_path self) (py_str j)]> (files w))
             (events w)).
Proof.
  intros B. unfold cursor_in_bounds. cbn [files]. rewrite lookup_insert_eq.
  exists j. split; [|exact B].
  assert (content (written_file w (index_path self) (py_str j)) = py_str j) as ->.
  { unfold written_file. now destruct (files w !! index_path self). }
  rewrite strip_py_str by lia. apply py_int_py_str. lia.
Qed.

Lemma cursor_in_bounds_files self w w' :
  files w = files w' -> cursor_in_bounds self w -> cursor_in_bounds self w'.
Proof. unfold cursor_in_bounds. now intros ->. Qed.

(** C5. The cursor stays within the bounds of a non-empty list: what
    [_read_index] returns is an index of the list; the value that [assign]
    hands to [_write_index] is one; every text that [assign] writes is such
    an index, written to the cursor file; and a cursor file whose text is an
    index of the list still is one after [assign]. *)
Theorem cursor_stays_within_bounds (self : SequentialAssigner) (w : World) :
  items self <> [] ->
  (exists r w1, _read_index self w = (w1, Ok r) /\ 0 <= r < len (items self))
  /\ (exists idx w2 item,
        0 <= idx < len (items self)
        /\ 0 <= (idx + 1) mod len (items self) < len (items self)
        /\ assign self w
           = (fst (_write_index self ((idx + 1) mod len (items self)) w2), Ok item))
  /\ (exists evs, events (fst (assign self w)) = events w ++ evs
        /\ forall p t, EvWrite p t ∈ evs ->
             p = index_path self
             /\ exists j, t = py_str j /\ 0 <= j < len (items self))
  /\ (cursor_in_bounds self w -> cursor_in_bounds self (fst (assign self w))).
Proof.
  intros Hne.
  destruct (assign_run_any self w Hne) as (idx & w1 & w2 & item & Er & B & Hw2 & _ & Ea).
  pose proof (next_cursor_bounds idx (len (items self)) ltac:(lia)) as B'.
  destruct (read_index_returns self w) as (r0 & w0 & E0 & Hf & (evs0 & Hev0 & Hread) & _).
  rewrite Er in E0. injection E0 as <- <-.
  destruct (write_index_effect self ((idx + 1) mod len (items self)) w2 (proj1 B'))
    as (w' & Ew & Hw').
  assert (Hw2' : files w2 = files w /\ exists evs2, events w2 = events w ++ evs2
            /\ forall p t, EvWrite p t ∈ evs2 -> False).
  { destruct Hw2 as [->|(x & ->)].
    - split; [exact Hf|]. exists evs0. split; [exact Hev0|].
      intros p t Hin. apply Hread in Hin. discriminate Hin.
    - split; [exact Hf|]. exists (evs0 ++ [EvPrint (invalid_item_warning x)]).
      cbn [log events]. rewrite Hev0, <- app_assoc. split; [reflexivity|].
      intros p t [Hin|Hin]%elem_of_app.
      + apply Hread in Hin. discriminate Hin.
      + apply list_elem_of_singleton in Hin. discriminate Hin. }
  destruct Hw2' as (Hf2 & evs2 & Hev2 & Hnow).
  split_and!.
  - exists idx, w1. split; [exact Er|exact B].
  - exists idx, w2, item. split_and!; try lia. exact Ea.
  - rewrite Ea, Ew. cbn [fst].
    destruct Hw' as [[_ Hev]|[_ Hev]]; rewrite Hev, Hev2, <- app_assoc;
      eexists; (split; [reflexivity|]);
      intros p t [Hin|Hin]%elem_of_app; try (exfalso; eapply Hnow; exact Hin);
      apply list_elem_of_singleton in Hin; [discriminate Hin|].
    injection Hin as -> ->. split; [reflexivity|]. eexists. split; [reflexivity|exact B'].
  - intros Hinv. rewrite Ea, Ew. cbn [fst].
    destruct Hw' as [[Hfw _]|[Hfw _]].
    + eapply cursor_in_bounds_files; [|exact Hinv]. now rewrite Hfw, Hf2.
    + eapply cursor_in_bounds_files;
        [|apply (cursor_in_bounds_written self w2 _ B')].
      cbn [files]. now rewrite Hfw.
Qed.

Lemma cursor_stays_within_bounds_witness :
  (exists r w1, _read_index ex_assigner (ex_cursor_world "2" true true) = (w1, Ok r)
                /\ 0 <= r < len (items ex_assigner))
  /\ cursor_in_bounds ex_assigner
       (fst (assign ex_assigner (ex_cursor_world "2" true true))).
Proof.
  assert (Hne : items ex_assigner <> []) by discriminate.
  destruct (cursor_stays_within_bounds ex_assigner (ex_cursor_world "2" true true) Hne)
    as (H1 & _ & _ & H4).
  split; [exact H1|]. apply H4.
  exists 2. split; [reflexivity|]. unfold len. cbn. lia.
Defined.

(** C1, as stated, fails on a cursor file that may not be written: the
    cursor file holds 1, [assign] returns the item at index 1, and the file
    still holds 1 afterwards, not 2. *)
Lemma assign_read_only_cursor_not_persisted :
  valid_items ex_assigner
  /\ index_file_holds ex_assigner (ex_cursor_world "1" true false) 1
  /\ 0 <= 1 < len (items ex_assigner)
  /\ snd (assign ex_assigner (ex_cursor_world "1" true false)) = Ok "BRAVO"
  /\ index_file_holds ex_assigner
       (fst (assign ex_assigner (ex_cursor_world "1" true false))) 1
  /\ ~ index_file_holds ex_assigner
         (fst (assign ex_assigner (ex_cursor_world "1" true false)))
         ((1 + 1) mod len (items ex_assigner)).
Proof.
  split_and!.
  - split; [discriminate|]. repeat constructor.
  - exists (File "1" true false). split_and!; reflexivity.
  - lia.
  - unfold len. cbn. lia.
  - reflexivity.
  - exists (File "1" true false). split_and!; reflexivity.
  - intros (f & Ef & _ & Hp).
    assert (f = File "1" true false) as -> by (vm_compute in Ef; congruence).
    vm_compute in Hp. discriminate Hp.
Qed.

Lemma rotation_permutation {A} (l : list A) (n : nat) : drop n l ++ take n l ≡ₚ l.
Proof. rewrite Permutation_app_comm. now rewrite take_drop. Qed.

(** C1, amended.  On an assigner with valid items whose cursor file can be
    read and written and holds an index [i] of the list, [assign] returns
    the item at [i] and leaves (i+1) mod n in the cursor file.  So n calls
    in a row return the list rotated to start at [i], which is every item
    once, in list order from the cursor on; the cursor is then back at [i]
    and the next call returns the item at [i] again. *)
Theorem assign_round_robin (self : SequentialAssigner) (w : World) (i : Z) :
  valid_items self ->
  index_file_holds self w i ->
  0 <= i < len (items self) ->
  can_write w (index_path self) = true ->
  (exists item,
     items self !! Z.to_nat i = Some item
     /\ assign self w = (cursor_written self w ((i + 1) mod len (items self)), Ok item)
     /\ index_file_holds self (cursor_written self w ((i + 1) mod len (items self)))
          ((i + 1) mod len (items self)))
  /\ (exists wn,
        assign_many (length (items self)) self w
        = (wn, Ok (drop (Z.to_nat i) (items self) ++ take (Z.to_nat i) (items self)))
        /\ drop (Z.to_nat i) (items self) ++ take (Z.to_nat i) (items self)
           ≡ₚ items self
        /\ index_file_holds self wn i
        /\ exists item wn',
             items self !! Z.to_nat i = Some item
             /\ assign self wn = (wn', Ok item)).
Proof.
  intros V H B C. split.
  - destruct (assign_step self w i V H B C) as (item & El & Ea).
    exists item. split_and!; [exact El|exact Ea|].
    apply index_file_holds_cursor_written. apply next_cursor_bounds. lia.
  - destruct (assign_many_cycle self (length (items self)) w i V H B C)
      as (wn & Em & Hn & Cn).
    exists wn. rewrite cycle_from_full in Em by exact B.
    assert ((i + Z.of_nat (length (items self))) mod len (items self) = i) as Ei.
    { unfold len in *. rewrite <- (Z.mul_1_l (Z.of_nat (length (items self)))) at 1.
      rewrite Z_mod_plus_full. apply Z.mod_small. exact B. }
    rewrite Ei in Hn.
    split_and!; [exact Em|apply rotation_permutation|exact Hn|].
    destruct (assign_step self wn i V Hn B Cn) as (item & El & Ea).
    exists item. eexists. split; [exact El|exact Ea].
Qed.

Lemma assign_round_robin_witness :
  exists wn,
    assign_many 3 ex_assigner (ex_cursor_world "1" true true)
    = (wn, Ok ["BRAVO"; "CHARLIE"; "ALPHA"])
    /\ index_file_holds ex_assigner wn 1.
Proof.
  assert (V : valid_items ex_assigner) by (split; [discriminate|repeat constructor]).
  assert (H : index_file_holds ex_assigner (ex_cursor_world "1" true true) 1).
  { exists (File "1" true true). split_and!; reflexivity. }
  assert (B : 0 <= 1 < len (items ex_assigner)) by (unfold len; cbn; lia).
  destruct (assign_round_robin ex_assigner (ex_cursor_world "1" true true) 1 V H B eq_refl)
    as (_ & wn & Em & _ & Hn & _).
  exists wn. split; [exact Em|exact Hn].
Defined.

(** ** The items of a [SequentialAssigner] *)

Lemma upper_char_head c : exists d t, upper_char c = String d t.
Proof.
  unfold upper_char.
  repeat match goal with
         | |- context [if ?b then _ else _] => destruct b
         end; eexists _, _; reflexivity.
Qed.

Lemma upper_truthy s : truthy (upper s) = truthy s.
Proof.
  destruct s as [|c r]; [reflexivity|]. cbn [upper].
  destruct (upper_char_head c) as (d & t & ->). reflexivity.
Qed.

Lemma truthy_nonempty s : truthy s = true <-> s <> EmptyString.
Proof. destruct s; cbn; split; congruence. Qed.

Lemma clean_items_elem x source :
  x ∈ clean_items source ->
  truthy x = true /\ exists s, s ∈ source /\ x = upper (strip s).
Proof.
  unfold clean_items. intros (s & -> & Hs)%list_elem_of_fmap.
  apply list_elem_of_filter in Hs as [Ht Hs]. split.
  - now rewrite upper_truthy.
  - now exists s.
Qed.

Lemma clean_items_length source :
  length (clean_items source) = length (nonblank source).
Proof. unfold clean_items, nonblank. apply length_map. Qed.

Lemma clean_items_nil source : clean_items source = [] <-> nonblank source = [].
Proof.
  pose proof (clean_items_length source) as H.
  split; intros E; rewrite E in H; cbn [length] in H.
  - now destruct (nonblank source).
  - now destruct (clean_items source).
Qed.

Lemma map_JStr_eq source source' : map JStr source' = map JStr source -> source' = source.
Proof.
  revert source'. induction source as [|s src IH]; intros [|s' src'] Em;
    try discriminate; [reflexivity|].
  injection Em as -> Em. f_equal. now apply IH.
Qed.

(** When [_load_items] returns, the file held an object whose key is bound
    to a list of strings, and the result is what those strings yield. *)
Lemma load_items_ok list_path key w w' its :
  _load_items list_path key w = (w', Ok its) ->
  exists f kvs source,
    files w !! list_path = Some f /\ readable f = true
    /\ json_loads (content f) = Some (JObj kvs)
    /\ dict_get key kvs = Some (JArr (map JStr source))
    /\ its = clean_items source /\ its <> [].
Proof.
  intros E. pose proof (load_items_cases list_path key w) as H.
  destruct (files w !! list_path) as [f|] eqn:Ef; [|rewrite H in E; discriminate E].
  cbn zeta in H. destruct (readable f) eqn:R; cbn [negb] in H;
    [|rewrite H in E; discriminate E].
  destruct (json_loads (content f)) as [data|] eqn:Ej;
    [|rewrite H in E; discriminate E].
  destruct data as [ | b | z | s | l | kvs];
    try (rewrite H in E; discriminate E).
  destruct (dict_get key kvs) as [bound|] eqn:Eg; [|rewrite H in E; discriminate E].
  destruct bound as [ | b | z | s | l | kvs'];
    try (rewrite H in E; discriminate E).
  destruct H as [(source & -> & H)|[_ H]]; [|rewrite H in E; discriminate E].
  rewrite H in E. exists f, kvs, source.
  destruct (clean_items source) as [|x xs] eqn:Ec; [discriminate E|].
  apply (f_equal snd) in E. cbn [snd] in E. injection E as <-.
  split_and!; auto; discriminate.
Qed.

Lemma invalid_item_warning_head x :
  exists r, invalid_item_warning x = String "W" r.
Proof. eexists. reflexivity. Qed.

(** C10. A constructed assigner holds some items, none of them empty.
    When the list file holds a value that the decoder reads, the value is
    an object whose key is bound to a list of strings, there are as many
    items as strings that are not blank, and, the capitals of those strings
    being in the alphabet, the items are the stripped, upper-cased
    non-blank strings of the list.  In every call of [assign] the index is
    within the list, the item returned is a member of the list, and no
    warning about an invalid item is printed: the fallback branch is not
    taken. *)
Theorem constructed_assigner_is_safe
    (list_path index_path key : string) (w0 w1 : World) (self : SequentialAssigner) :
  SequentialAssigner_init list_path index_path key w0 = (w1, Ok self) ->
  items self <> []
  /\ Forall (fun x => x <> EmptyString) (items self)
  /\ (forall f v,
        files w0 !! list_path = Some f -> json_loads (content f) = Some v ->
        exists kvs source,
          v = JObj kvs
          /\ dict_get key kvs = Some (JArr (map JStr source))
          /\ length (items self) = length (nonblank source)
          /\ (Forall (fun s => upper_in_alphabet s = true) (nonblank source) ->
                items self = clean_items source
                /\ Forall (fun x => exists s, s ∈ source /\ x = upper (strip s))
                          (items self)))
  /\ forall w,
       exists idx w' item,
         0 <= idx < len (items self)
         /\ py_index (items self) idx = Some item
         /\ item ∈ items self
         /\ assign self w = (w', Ok item)
         /\ exists evs, events w' = events w ++ evs
              /\ forall x, EvPrint (invalid_item_warning x) ∉ evs.
Proof.
  unfold SequentialAssigner_init, bind. intros E.
  destruct (_load_items list_path key w0) as [w0' [its|e|]] eqn:El; try discriminate E.
  cbn [ret] in E. injection E as <- <-. cbn [items].
  destruct (load_items_ok _ _ _ _ _ El) as (f & kvs & source & Ef & _ & Ej & Eg & -> & Hne).
  assert (Hall : Forall (fun x => truthy x = true) (clean_items source)).
  { apply Forall_forall. intros x Hx. now apply clean_items_elem in Hx as [? _]. }
  split_and!.
  - exact Hne.
  - eapply Forall_impl; [exact Hall|]. intros x Hx. now apply truthy_nonempty.
  - intros f' v Ef' Ej'. rewrite Ef in Ef'. injection Ef' as <-.
    rewrite Ej in Ej'. injection Ej' as <-.
    exists kvs, source. split_and!; auto using clean_items_length.
    intros _. split; [reflexivity|].
    apply Forall_forall. intros x Hx. now apply clean_items_elem in Hx as [_ Hs].
  - intros w.
    set (self := mkAssigner list_path index_path key (clean_items source)).
    assert (V : valid_items self) by (split; assumption).
    destruct (assign_run self w V) as (idx & wr & item & Er & B & Hl & Ea).
    destruct (read_index_returns self w) as (r0 & wr0 & E0 & _ & (evs0 & Hev0 & Hread) & _).
    rewrite Er in E0. injection E0 as <- <-.
    pose proof (next_cursor_bounds idx (len (items self)) ltac:(lia)) as B'.
    destruct (write_index_effect self ((idx + 1) mod len (items self)) wr (proj1 B'))
      as (w' & Ew & Hw').
    rewrite Ew in Ea. cbn [fst] in Ea.
    subst self. cbn [items] in *.
    exists idx, w', item. split_and!; try lia.
    + destruct (py_index_in_range (clean_items source) idx B) as (x & Ex & Hx).
      rewrite Hl in Hx. now injection Hx as <-.
    + apply list_elem_of_lookup. eauto.
    + exact Ea.
    + destruct Hw' as [[_ Hev]|[_ Hev]]; rewrite Hev, Hev0, <- app_assoc;
        eexists; (split; [reflexivity|]);
        intros x [Hin|Hin]%elem_of_app;
        try (apply Hread in Hin; discriminate Hin);
        apply list_elem_of_singleton in Hin;
        destruct (invalid_item_warning_head x) as [r Hr]; rewrite Hr in Hin;
        discriminate Hin.
Qed.

Lemma constructed_assigner_is_safe_witness :
  exists self,
    snd (SequentialAssigner_init "names.json" "names.idx" "names"
           (ex_list_world ex_names)) = Ok self
    /\ items self = ["ALPHA"; "BRAVO"; "CHARLIE"]
    /\ items self <> []
    /\ Forall (fun x => x <> EmptyString) (items self).
Proof.
  destruct (SequentialAssigner_init "names.json" "names.idx" "names"
              (ex_list_world ex_names)) as [w1 r] eqn:E.
  assert (Er : r = Ok ex_assigner).
  { apply (f_equal snd) in E. cbn [snd] in E. rewrite <- E. vm_compute. reflexivity. }
  subst r. exists ex_assigner.
  destruct (constructed_assigner_is_safe _ _ _ _ _ _ E) as (Hne & Hall & _).
  split_and!; [reflexivity|reflexivity|exact Hne|exact Hall].
Defined.

(** C4, as stated, fails on a list that holds something else than strings:
    the file exists and is valid JSON, the key is bound to a list, the list
    has an item that is non-empty after stripping, and yet [_load_items]
    raises, an [AttributeError]. *)
Lemma load_items_number_in_list_raises :
  files (ex_list_world ex_names_with_number) !! "names.json"
  = Some (File (json_dumps ex_names_with_number) true true)
  /\ json_loads (json_dumps ex_names_with_number) = Some ex_names_with_number
  /\ dict_get "names" [("names", JArr [JInt 1; JStr "alpha"])]
     = Some (JArr [JInt 1; JStr "alpha"])
  /\ is_list (JArr [JInt 1; JStr "alpha"]) = true
  /\ truthy (strip "alpha") = true
  /\ snd (_load_items "names.json" "names" (ex_list_world ex_names_with_number))
     = Raise AttributeError.
Proof. split_and!; vm_compute; reflexivity. Qed.

(** C4, amended.  [_load_items] raises [FileNotFoundError] when the list
    file does not exist, and [IOError] when the file cannot be read or its
    text is not JSON.  When the text is decoded to an object, it raises
    [ValueError] if the key is absent or bound to something that is not a
    list, and [AttributeError] if the key is bound to a list with an entry
    that is no string; if the key is bound to a list of strings, it raises
    [ValueError] when all of them are blank, and returns otherwise, one item
    for each string that is not blank: the stripped, upper-cased strings,
    their capitals being in the alphabet.  When the text is decoded to a
    value that is no object, it raises [TypeError] or [ValueError], as the
    key is found in the value or not.  So on a decoded text it returns
    exactly when the value is an object whose key is bound to a list of
    strings of which one at least is not blank. *)
Theorem load_items_outcomes (list_path key : string) (w : World) :
  (files w !! list_path = None ->
     snd (_load_items list_path key w) = Raise FileNotFoundError)
  /\ (forall f, files w !! list_path = Some f ->
        (readable f = false \/ json_syntax (content f) = false ->
           snd (_load_items list_path key w) = Raise IOError)
        /\ (forall v, readable f = true -> json_loads (content f) = Some v ->
              (forall kvs, v = JObj kvs ->
                 (dict_get key kvs = None ->
                    snd (_load_items list_path key w) = Raise ValueError)
                 /\ (forall b, dict_get key kvs = Some b -> is_list b = false ->
                       snd (_load_items list_path key w) = Raise ValueError)
                 /\ (forall l, dict_get key kvs = Some (JArr l) ->
                       (forall source, l <> map JStr source) ->
                       snd (_load_items list_path key w) = Raise AttributeError)
                 /\ (forall source, dict_get key kvs = Some (JArr (map JStr source)) ->
                       (nonblank source = [] ->
                          snd (_load_items list_path key w) = Raise ValueError)
                       /\ (nonblank source <> [] ->
                             exists its,
                               snd (_load_items list_path key w) = Ok its
                               /\ length its = length (nonblank source)
                               /\ (Forall (fun s => upper_in_alphabet s = true)
                                          (nonblank source) ->
                                   its = clean_items source))))
              /\ ((forall kvs, v <> JObj kvs) ->
                    snd (_load_items list_path key w)
                    = Raise (match v with
                             | JArr l =>
                                 if existsb (fun x => json_eq_str x key) l
                                 then TypeError else ValueError
                             | JStr s =>
                                 if substring_of key s then TypeError else ValueError
                             | _ => TypeError
                             end))
              /\ (forall its, snd (_load_items list_path key w) = Ok its ->
                    exists kvs source,
                      v = JObj kvs
                      /\ dict_get key kvs = Some (JArr (map JStr source))
                      /\ nonblank source <> [])))
  /\ files (fst (_load_items list_path key w)) = files w.
Proof.
  pose proof (load_items_cases list_path key w) as H.
  split_and!.
  - intros E. rewrite E in H. now rewrite H.
  - intros f E. rewrite E in H. cbn zeta in H. split.
    + intros [R|Ej].
      * rewrite R in H. cbn [negb] in H. now rewrite H.
      * destruct (readable f); cbn [negb] in H; [|now rewrite H].
        rewrite (not_json_not_decoded _ Ej) in H. now rewrite H.
    + intros v R Ej. rewrite R, Ej in H. cbn [negb] in H. split_and!.
      * intros kvs ->. split_and!.
        -- intros Eg. rewrite Eg in H. now rewrite H.
        -- intros b Eg Hb. rewrite Eg in H.
           destruct b; try discriminate Hb; now rewrite H.
        -- intros l Eg Hl. rewrite Eg in H.
           destruct H as [(source & Em & _)|[_ H]]; [now destruct (Hl source)|].
           now rewrite H.
        -- intros source Eg. rewrite Eg in H.
           assert (Hs : snd (_load_items list_path key w)
                        = match clean_items source with
                          | [] => Raise ValueError
                          | its => Ok its
                          end).
           { destruct H as [(source' & Em & H)|[Hn _]].
             - apply map_JStr_eq in Em as <-. now rewrite H.
             - exfalso. apply Hn. now exists source. }
           split; intros Hc.
           ++ apply clean_items_nil in Hc. now rewrite Hs, Hc.
           ++ exists (clean_items source). split_and!.
              ** rewrite Hs. destruct (clean_items source) eqn:Ec; [|reflexivity].
                 apply clean_items_nil in Ec. contradiction.
              ** apply clean_items_length.
              ** reflexivity.
      * intros Hv. destruct v as [ | b | z | s | l | kvs]; try (now rewrite H).
        now destruct (Hv kvs).
      * intros its Eo.
        destruct (_load_items list_path key w) as [w' r] eqn:El. cbn [snd] in Eo.
        subst r.
        destruct (load_items_ok _ _ _ _ _ El)
          as (f' & kvs & source & Ef' & _ & Ej' & Eg & -> & Hne).
        rewrite E in Ef'. injection Ef' as <-. rewrite Ej in Ej'. injection Ej' as ->.
        exists kvs, source. split_and!; auto.
        intros Hc. apply clean_items_nil in Hc. contradiction.
  - destruct (files w !! list_path) as [f|]; [|now rewrite H].
    cbn zeta in H. destruct (readable f); cbn [negb] in H; [|now rewrite H].
    destruct (json_loads (content f)) as [data|]; [|now rewrite H].
    destruct data as [ | b | z | s | l | kvs]; try (now rewrite H).
    destruct (dict_get key kvs) as [bound|]; [|now rewrite H].
    destruct bound as [ | b | z | s | l | kvs']; try (now rewrite H).
    destruct H as [(source & _ & H)|[_ H]]; now rewrite H.
Qed.

Lemma load_items_outcomes_witness :
  snd (_load_items "names.json" "names" (ex_list_world ex_names))
  = Ok ["ALPHA"; "BRAVO"; "CHARLIE"]
  /\ snd (_load_items "names.json" "names" (mkWorld ∅ [])) = Raise FileNotFoundError
  /\ snd (_load_items "names.json" "roles" (ex_list_world ex_names)) = Raise ValueError
  /\ snd (_load_items "names.json" "names" ex_broken_list_world) = Raise IOError.
Proof.
  split_and!.
  - destruct (load_items_outcomes "names.json" "names" (ex_list_world ex_names))
      as (_ & H & _).
    destruct (H (File (json_dumps ex_names) true true) eq_refl) as (_ & H2).
    destruct (H2 ex_names eq_refl ltac:(vm_compute; reflexivity)) as (H3 & _).
    destruct (H3 _ eq_refl) as (_ & _ & _ & H4).
    destruct (H4 [" alpha "; "  "; "bravo"; "Charlie"] eq_refl) as (_ & H5).
    destruct H5 as (its & E & _ & Hits); [vm_compute; discriminate|].
    rewrite E, Hits; [reflexivity|].
    vm_compute. repeat constructor.
  - destruct (load_items_outcomes "names.json" "names" (mkWorld ∅ [])) as (H & _).
    apply H. reflexivity.
  - destruct (load_items_outcomes "names.json" "roles" (ex_list_world ex_names))
      as (_ & H & _).
    destruct (H (File (json_dumps ex_names) true true) eq_refl) as (_ & H2).
    destruct (H2 ex_names eq_refl ltac:(vm_compute; reflexivity)) as (H3 & _).
    destruct (H3 _ eq_refl) as (H4 & _).
    apply H4. reflexivity.
  - destruct (load_items_outcomes "names.json" "names" ex_broken_list_world)
      as (_ & H & _).
    destruct (H (File "[1.5e]" true true) eq_refl) as (H2 & _).
    apply H2. right. vm_compute. reflexivity.
Defined.

(** ** The message log *)

(** C9. For a log that can be read, with [L] the stripped non-blank lines
    of its text, and a counter between 0 and the length of [L],
    [read_new_messages] returns [L], the part of [L] from the counter on,
    and the length of [L]; the files are left as they are. *)
Theorem read_new_messages_cursor (path : string) (w : World) (f : file)
    (last_line : Z) :
  files w !! path = Some f ->
  readable f = true ->
  0 <= last_line <= len (stripped_nonblank (readlines (content f))) ->
  snd (read_new_messages path last_line w)
  = Ok (stripped_nonblank (readlines (content f)),
        drop (Z.to_nat last_line) (stripped_nonblank (readlines (content f))),
        len (stripped_nonblank (readlines (content f))))
  /\ files (fst (read_new_messages path last_line w)) = files w.
Proof.
  intros Ef R B. unfold read_new_messages, bind, read_text. rewrite Ef, R.
  cbn [ret snd fst log files]. split; [|reflexivity].
  unfold py_slice_from. destruct (Z.leb_spec 0 last_line); [|lia].
  do 2 f_equal. unfold len in *. rewrite length_drop. lia.
Qed.

Lemma read_new_messages_cursor_witness :
  snd (read_new_messages "chat.txt" 1 ex_chat_world)
  = Ok (["hello"; "how are you"; "fine"], ["how are you"; "fine"], 3).
Proof.
  refine (proj1 (read_new_messages_cursor "chat.txt" ex_chat_world _ 1 eq_refl eq_refl _)).
  vm_compute. split; discriminate.
Defined.

(** ** The roster *)

Section Roster.

Variable PlayerState_new : list (string * json) -> PlayerState + exn.

Lemma map_M_kwargs recs ps w :
  Forall2 (fun kw p => PlayerState_new kw = inl p) recs ps ->
  map_M (PlayerState_kwargs PlayerState_new) (map JObj recs) w = (w, Ok ps).
Proof.
  induction 1 as [|kw p recs ps Hp _ IH]; [reflexivity|].
  cbn [map map_M]. unfold bind. cbn [PlayerState_kwargs]. rewrite Hp.
  cbn [ret]. now rewrite IH.
Qed.

(** C7. Without a roster file [load_players_from_lobby] returns the empty
    list and leaves the world as it is, so nothing is read.  With a roster
    file that can be read and holds a list of records that the constructor
    accepts, it returns the players of those records, in the order of the
    file. *)
Theorem load_players_from_lobby_spec (gs : GameState) (w : World) :
  (files w !! player_path gs = None ->
     load_players_from_lobby PlayerState_new gs w = (w, Ok []))
  /\ (forall f recs ps,
        files w !! player_path gs = Some f ->
        readable f = true ->
        json_loads (content f) = Some (JArr (map JObj recs)) ->
        Forall2 (fun kw p => PlayerState_new kw = inl p) recs ps ->
        snd (load_players_from_lobby PlayerState_new gs w) = Ok ps
        /\ length ps = length recs).
Proof.
  split.
  - intros E. unfold load_players_from_lobby, bind, path_exists. now rewrite E.
  - intros f recs ps E R Ej Hrec.
    unfold load_players_from_lobby. unfold bind at 1. unfold path_exists. rewrite E.
    cbn [negb]. unfold bind at 1. unfold read_text. rewrite E, R.
    unfold bind at 1. unfold json_load. rewrite Ej. cbn [of_option ret].
    unfold bind. cbn [py_iter ret]. rewrite (map_M_kwargs _ _ _ Hrec).
    split; [reflexivity|]. symmetry. eapply Forall2_length. exact Hrec.
Qed.

End Roster.

Lemma load_players_from_lobby_spec_witness :
  snd (load_players_from_lobby ex_PlayerState_new ex_game
         (ex_roster_world (JArr [JObj (ex_asdict (ex_player "ALPHA"));
                                 JObj (ex_asdict (ex_player "BRAVO"))])))
  = Ok [ex_player "ALPHA"; ex_player "BRAVO"]
  /\ load_players_from_lobby ex_PlayerState_new ex_game (mkWorld ∅ [])
     = (mkWorld ∅ [], Ok []).
Proof.
  split.
  - set (v := JArr [JObj (ex_asdict (ex_player "ALPHA"));
                    JObj (ex_asdict (ex_player "BRAVO"))]).
    refine (proj1 (proj2 (load_players_from_lobby_spec ex_PlayerState_new ex_game
                            (ex_roster_world v))
             (File (json_dumps v) true true)
             [ex_asdict (ex_player "ALPHA"); ex_asdict (ex_player "BRAVO")]
             [ex_player "ALPHA"; ex_player "BRAVO"] eq_refl eq_refl _ _)).
    + vm_compute. reflexivity.
    + repeat constructor.
  - apply (proj1 (load_players_from_lobby_spec ex_PlayerState_new ex_game (mkWorld ∅ []))).
    reflexivity.
Defined.

(** A call on a roster file that can be read and written and holds the
    list [l]: the record of the player is appended when no record of [l]
    carries the code name, and [l] is written back as it is otherwise. *)
Lemma save_on_list asdict ps w f l found :
  files w !! lobby_file_path ps = Some f ->
  readable f = true -> writable f = true ->
  json_loads (content f) = Some (JArr l) ->
  (forall w', any_code_name (code_name ps) l w' = (w', Ok found)) ->
  files (fst (save_player_to_lobby_file asdict ps w))
  = <[lobby_file_path ps :=
        File (json_dumps (JArr (if found then l else l ++ [JObj (asdict ps)])))
             true true]> (files w).
Proof.
  intros Ef R Wr Ej Hany.
  rewrite save_player_body.
  unfold bind at 1. unfold path_exists. rewrite Ef.
  unfold bind at 1. unfold bind at 1. unfold read_text. rewrite Ef, R.
  unfold try_except, json_load. rewrite Ej.
  cbn [of_option ret]. unfold bind at 1. cbn [py_iter ret].
  unfold bind at 1. rewrite Hany. unfold bind.
  destruct found; cbn [negb ret py_append];
    unfold write_text, log; cbn [files]; rewrite Ef, Wr, R; reflexivity.
Qed.

(** C8. Saving a player twice leaves the files as saving the player once
    does.  Without a roster file the roster written is the record of the
    player alone; on a roster file that holds a list, the record is appended
    only when no record of the list carries the code name of the player,
    and the list is written back unchanged otherwise. *)
Theorem save_player_to_lobby_file_idempotent
    (asdict : PlayerState -> list (string * json)) (ps : PlayerState) (w : World) :
  dict_get "code_name" (asdict ps) = Some (JStr (code_name ps)) ->
  json_wf (JObj (asdict ps)) = true ->
  files (fst (save_player_to_lobby_file asdict ps
                (fst (save_player_to_lobby_file asdict ps w))))
  = files (fst (save_player_to_lobby_file asdict ps w))
  /\ (files w !! lobby_file_path ps = None ->
        files (fst (save_player_to_lobby_file asdict ps w))
        = <[lobby_file_path ps :=
              File (json_dumps (JArr [JObj (asdict ps)])) true true]> (files w))
  /\ (forall f l found,
        files w !! lobby_file_path ps = Some f ->
        readable f = true -> writable f = true ->
        json_loads (content f) = Some (JArr l) ->
        (forall w', any_code_name (code_name ps) l w' = (w', Ok found)) ->
        files (fst (save_player_to_lobby_file asdict ps w))
        = <[lobby_file_path ps :=
              File (json_dumps (JArr (if found then l else l ++ [JObj (asdict ps)])))
                   true true]> (files w)).
Proof.
  intros Hname Hwf. split_and!.
  - destruct (save_player_to_lobby_file asdict ps w) as [w1 r] eqn:E. cbn [fst].
    destruct (save_once asdict ps Hname Hwf w w1 r E) as [Hsame|(pl & Hpl & _)].
    + destruct (save_files_only asdict ps w1 w Hsame) as [Hf _].
      rewrite Hf, E. cbn [fst]. now symmetry.
    + now apply (save_again asdict ps w1 pl).
  - intros Ef. rewrite save_player_body.
    unfold bind at 1. unfold path_exists. rewrite Ef. cbn [negb].
    unfold bind at 1. cbn [ret py_iter]. unfold bind at 1.
    cbn [ret any_code_name]. unfold bind at 1. cbn [ret negb py_append app].
    unfold bind. cbn [ret]. unfold write_text. now rewrite Ef.
  - intros f l found. apply save_on_list.
Qed.

Lemma save_player_to_lobby_file_idempotent_witness :
  files (fst (save_player_to_lobby_file ex_asdict (ex_player "BRAVO")
                (fst (save_player_to_lobby_file ex_asdict (ex_player "BRAVO")
                        (ex_roster_world (JArr [JObj (ex_asdict (ex_player "ALPHA"))]))))))
  = files (fst (save_player_to_lobby_file ex_asdict (ex_player "BRAVO")
                  (ex_roster_world (JArr [JObj (ex_asdict (ex_player "ALPHA"))])))).
Proof.
  apply (proj1 (save_player_to_lobby_file_idempotent ex_asdict (ex_player "BRAVO")
                  (ex_roster_world (JArr [JObj (ex_asdict (ex_player "ALPHA"))]))
                  eq_refl eq_refl)).
Defined.

(** ** The start time *)

Lemma no_sleep_ret {A} (a : A) : no_sleep (ret a).
Proof. intros w. exists []. rewrite app_nil_r. split; [reflexivity|]. intros n H. inversion H. Qed.

Lemma no_sleep_raise {A} e : no_sleep (@raise A e).
Proof. intros w. exists []. rewrite app_nil_r. split; [reflexivity|]. intros n H. inversion H. Qed.

Lemma no_sleep_pure {A} (m : M A) : pure_M m -> no_sleep m.
Proof.
  intros [r Hr] w. exists []. rewrite Hr, app_nil_r. split; [reflexivity|].
  intros n H. inversion H.
Qed.

Lemma no_sleep_bind {A B} (m : M A) (k : A -> M B) :
  no_sleep m -> (forall a, no_sleep (k a)) -> no_sleep (bind m k).
Proof.
  intros Hm Hk w. unfold bind. destruct (Hm w) as (evs & E & Hn).
  destruct (m w) as [w1 [a|e|]]; cbn [fst] in *; try (exists evs; now split).
  destruct (Hk a w1) as (evs' & E' & Hn').
  exists (evs ++ evs'). rewrite E', E, app_assoc. split; [reflexivity|].
  intros n [H|H]%elem_of_app; [now apply (Hn n)|now apply (Hn' n)].
Qed.

Lemma no_sleep_one {A} (m : M A) ev :
  (forall n, ev <> EvSleep n) ->
  (forall w, events (fst (m w)) = events w ++ [ev] \/ events (fst (m w)) = events w) ->
  no_sleep m.
Proof.
  intros Hev Hm w. destruct (Hm w) as [E|E].
  - exists [ev]. split; [exact E|]. intros n H.
    apply list_elem_of_singleton in H. now apply (Hev n).
  - exists []. rewrite app_nil_r. split; [exact E|]. intros n H. inversion H.
Qed.

Lemma no_sleep_path_exists p : no_sleep (path_exists p).
Proof.
  intros w. exists []. rewrite app_nil_r. split; [reflexivity|]. intros n H. inversion H.
Qed.

Lemma no_sleep_read_text p : no_sleep (read_text p).
Proof.
  apply (no_sleep_one _ (EvOpenRead p)); [discriminate|].
  intros w. left. unfold read_text.
  destruct (files w !! p) as [f|]; [destruct (readable f)|]; reflexivity.
Qed.

Lemma no_sleep_write_text p t : no_sleep (write_text p t).
Proof.
  apply (no_sleep_one _ (EvWrite p t)); [discriminate|].
  intros w. unfold write_text.
  destruct (files w !! p) as [f|]; [destruct (writable f)|]; auto.
Qed.

Lemma pure_map_M {A B} (f : A -> M B) l :
  (forall a, pure_M (f a)) -> pure_M (map_M f l).
Proof.
  intros Hf. induction l as [|x l IH]; cbn [map_M]; [apply pure_ret|].
  apply pure_bind; [apply Hf|]. intros y.
  apply pure_bind; [exact IH|]. intros ys. apply pure_ret.
Qed.

Lemma pure_PlayerState_kwargs new p : pure_M (PlayerState_kwargs new p).
Proof.
  destruct p; cbn [PlayerState_kwargs]; try apply pure_raise.
  destruct (new kvs); [apply pure_ret|apply pure_raise].
Qed.

Lemma terminates_bind {A B} (m : M A) (k : A -> M B) :
  terminates m -> (forall a, terminates (k a)) -> terminates (bind m k).
Proof.
  intros Hm Hk w. unfold bind. specialize (Hm w).
  destruct (m w) as [w1 [a|e|]]; cbn [snd] in *; [apply Hk|discriminate|congruence].
Qed.

Lemma terminates_of_option {A} e (o : option A) : terminates (of_option e o).
Proof. destruct o; discriminate. Qed.

Lemma terminates_read_text p : terminates (read_text p).
Proof.
  intros w. unfold read_text.
  destruct (files w !! p) as [f|]; [destruct (readable f)|]; discriminate.
Qed.

Lemma terminates_write_text p t : terminates (write_text p t).
Proof.
  intros w. unfold write_text.
  destruct (files w !! p) as [f|]; [destruct (writable f)|]; discriminate.
Qed.

Lemma terminates_map_M {A B} (f : A -> M B) l :
  (forall a, terminates (f a)) -> terminates (map_M f l).
Proof.
  intros Hf. induction l as [|x l IH]; cbn [map_M]; [discriminate|].
  apply terminates_bind; [apply Hf|]. intros y.
  apply terminates_bind; [exact IH|]. discriminate.
Qed.

Section StartTime.

Variable PlayerState_new : list (string * json) -> PlayerState + exn.

Lemma load_players_keeps_files gs w :
  files (fst (load_players_from_lobby PlayerState_new gs w)) = files w.
Proof.
  unfold load_players_from_lobby. unfold bind at 1. unfold path_exists.
  destruct (files w !! player_path gs) as [f|] eqn:E; [|reflexivity].
  cbn [negb]. unfold bind at 1. unfold read_text. rewrite E.
  destruct (readable f); [|reflexivity].
  assert (P : pure_M (data <- json_load (content f) ;;
                      elems <- py_iter data ;;
                      map_M (PlayerState_kwargs PlayerState_new) elems)).
  { apply pure_bind; [apply pure_json_load|]. intros data.
    apply pure_bind; [apply pure_py_iter|]. intros elems.
    apply pure_map_M. apply pure_PlayerState_kwargs. }
  destruct P as [r Hr]. now rewrite Hr.
Qed.

Lemma no_sleep_load_players gs :
  no_sleep (load_players_from_lobby PlayerState_new gs).
Proof.
  unfold load_players_from_lobby.
  apply no_sleep_bind; [apply no_sleep_path_exists|]. intros e.
  destruct e; cbn [negb]; [|apply no_sleep_ret].
  apply no_sleep_bind; [apply no_sleep_read_text|]. intros text.
  apply no_sleep_pure.
  apply pure_bind; [apply pure_json_load|]. intros data.
  apply pure_bind; [apply pure_py_iter|]. intros elems.
  apply pure_map_M. apply pure_PlayerState_kwargs.
Qed.

Lemma terminates_load_players gs :
  terminates (load_players_from_lobby PlayerState_new gs).
Proof.
  unfold load_players_from_lobby.
  apply terminates_bind; [discriminate|]. intros e.
  destruct e; cbn [negb]; [|discriminate].
  apply terminates_bind; [apply terminates_read_text|]. intros text.
  apply terminates_bind; [apply terminates_of_option|]. intros data.
  apply terminates_bind; [destruct data; discriminate|]. intros elems.
  apply terminates_map_M. intros p.
  destruct p; cbn [PlayerState_kwargs]; try discriminate.
  destruct (PlayerState_new kvs); discriminate.
Qed.

(** The loop does not wait for a file that is there. *)
Lemma wait_for_file_present fuel path w f :
  files w !! path = Some f ->
  wait_for_file (S fuel) path w = (w, Ok tt).
Proof. intros E. cbn [wait_for_file]. unfold bind, path_exists. now rewrite E. Qed.

Lemma wait_for_file_no_fuel path w : wait_for_file 0 path w = (w, OutOfFuel).
Proof. reflexivity. Qed.

Lemma wait_for_file_step fuel path w :
  files w !! path = None ->
  wait_for_file (S fuel) path w
  = wait_for_file fuel path
      (log (EvSleep 1)
         (log (EvPrint "Waiting for the timekeeper to initialize the start time...") w)).
Proof.
  intros E. cbn [wait_for_file]. unfold bind, path_exists, print, sleep.
  rewrite E. cbn [negb].
  now destruct (wait_for_file fuel path _) as [w2 [[]|e|]].
Qed.

(** Entered without the file, the loop sleeps for as long as it has fuel:
    alone, a call cannot make the file appear. *)
Lemma wait_for_file_missing fuel path : forall w,
  files w !! path = None ->
  snd (wait_for_file fuel path w) = OutOfFuel
  /\ events (fst (wait_for_file fuel path w))
     = events w
       ++ concat (replicate fuel
            [EvPrint "Waiting for the timekeeper to initialize the start time...";
             EvSleep 1]).
Proof.
  induction fuel as [|fuel IH]; intros w E.
  - cbn. now rewrite app_nil_r.
  - rewrite (wait_for_file_step fuel path w E).
    destruct (IH (log (EvSleep 1)
                    (log (EvPrint "Waiting for the timekeeper to initialize the start time...") w))
                E) as [Hs He].
    split; [exact Hs|]. rewrite He. cbn [log events replicate concat].
    now rewrite <- !app_assoc.
Qed.

Lemma among_alone {A} (m : M A) w : among alone m w = m w.
Proof. unfold among, alone. now destruct (m w). Qed.

Lemma wait_for_file_among_alone fuel path : forall w,
  wait_for_file_among alone fuel path w = wait_for_file fuel path w.
Proof.
  induction fuel as [|fuel IH]; intros w; [reflexivity|].
  cbn [wait_for_file_among wait_for_file]. unfold bind.
  rewrite among_alone. destruct (path_exists path w) as [w1 [[]|e|]]; try reflexivity.
  cbn [negb]. destruct (print _ w1) as [w2 [[]|e|]]; try reflexivity.
  rewrite among_alone. destruct (sleep 1 w2) as [w3 [[]|e|]]; try reflexivity.
  apply IH.
Qed.

(** *** The waiting loop among other processes *)

Lemma wait_among_found env fuel path w f :
  files w !! path = Some f ->
  wait_for_file_among env (S fuel) path w = (env w, Ok tt).
Proof.
  intros E. cbn [wait_for_file_among]. unfold bind, among, path_exists. now rewrite E.
Qed.

Lemma wait_among_step env fuel path w :
  files w !! path = None ->
  wait_for_file_among env (S fuel) path w
  = wait_for_file_among env fuel path (wait_round env w).
Proof.
  intros E. cbn [wait_for_file_among]. unfold bind, among, path_exists, print, sleep.
  rewrite E. cbn [negb]. unfold wait_round.
  now destruct (wait_for_file_among env fuel path _) as [w2 [[]|e|]].
Qed.

(** The loop ends at the first test that finds the file, after as many
    rounds as tests that found none. *)
Lemma wait_among_ok env path : forall k fuel w,
  (k < fuel)%nat ->
  (forall j, (j < k)%nat -> files (after_waits env j w) !! path = None) ->
  files (after_waits env k w) !! path <> None ->
  wait_for_file_among env fuel path w = (env (after_waits env k w), Ok tt).
Proof.
  induction k as [|k IH]; intros fuel w Hk Hm Hf;
    (destruct fuel as [|fuel]; [lia|]).
  - cbn [after_waits] in *.
    destruct (files w !! path) as [f|] eqn:E; [|congruence].
    apply (wait_among_found env fuel path w f E).
  - rewrite wait_among_step by apply (Hm 0%nat ltac:(lia)).
    cbn [after_waits] in *. apply IH; [lia| |exact Hf].
    intros j Hj. apply (Hm (S j)). lia.
Qed.

(** It runs out of fuel when no test finds the file. *)
Lemma wait_among_out env path : forall fuel w,
  (forall j, (j < fuel)%nat -> files (after_waits env j w) !! path = None) ->
  wait_for_file_among env fuel path w = (after_waits env fuel w, OutOfFuel).
Proof.
  induction fuel as [|fuel IH]; intros w Hm; [reflexivity|].
  rewrite wait_among_step by apply (Hm 0%nat ltac:(lia)).
  cbn [after_waits]. apply IH. intros j Hj. apply (Hm (S j)). lia.
Qed.

Lemma after_waits_events env :
  (forall w, events (env w) = events w) ->
  forall k w, events (after_waits env k w)
              = events w ++ concat (replicate k wait_events).
Proof.
  intros Henv. induction k as [|k IH]; intros w.
  - cbn. now rewrite app_nil_r.
  - cbn [after_waits replicate concat]. rewrite IH. unfold wait_round.
    rewrite Henv. cbn [log events]. rewrite Henv.
    unfold wait_events. now rewrite <- !app_assoc.
Qed.

(** *** The call, on the two objects *)

(** The call of a player that finds a start-time file, among others. *)
Lemma in_place_present env now fuel gs ps w f :
  files w !! start_time_path gs = Some f ->
  synchronize_start_time_in_place PlayerState_new env now fuel (gs, ps) w
  = match wait_for_file_among env fuel (start_time_path gs) (env w) with
    | (w1, Ok _) =>
        match read_text (start_time_path gs) w1 with
        | (w2, Ok text) =>
            match strptime (strip text) with
            | Some t =>
                ((env w2,
                  (gs, mkPlayerState (lobby_id ps) (code_name ps) (timekeeper ps)
                         (Some t))), Ok tt)
            | None => ((env w2, (gs, ps)), Raise ValueError)
            end
        | (w2, Raise e) => ((env w2, (gs, ps)), Raise e)
        | (w2, OutOfFuel) => ((env w2, (gs, ps)), OutOfFuel)
        end
    | (w1, Raise e) => ((w1, (gs, ps)), Raise e)
    | (w1, OutOfFuel) => ((w1, (gs, ps)), OutOfFuel)
    end.
Proof.
  intros E. unfold synchronize_start_time_in_place.
  unfold bind_o at 1. unfold get_game. cbn [fst snd].
  unfold bind_o at 1. unfold on_world at 1. unfold among at 1. unfold path_exists.
  rewrite E. cbn [negb].
  unfold bind_o at 1. unfold on_world at 1.
  destruct (wait_for_file_among env fuel (start_time_path gs) (env w))
    as [w1 [[]|e|]]; try reflexivity.
  unfold bind_o at 1. unfold on_world at 1. unfold among.
  destruct (read_text (start_time_path gs) w1) as [w2 [text|e|]]; try reflexivity.
  unfold bind_o, on_world, set_starttime.
  destruct (strptime (strip text)) as [t|]; reflexivity.
Qed.

(** The call of a player that finds no start-time file and runs alone. *)
Lemma in_place_absent now fuel gs ps w :
  files w !! start_time_path gs = None ->
  synchronize_start_time_in_place PlayerState_new alone now fuel (gs, ps) w
  = match load_players_from_lobby PlayerState_new gs w with
    | (w1, Ok loaded) =>
        let gs1 := mkGameState (start_time_path gs) (player_path gs) loaded in
        match init_game_file (start_time_path gs) w1 with
        | (w2, Ok _) =>
            match write_text (start_time_path gs) (strftime now) w2 with
            | (w3, r) =>
                ((w3, (gs1, mkPlayerState (lobby_id ps) (code_name ps) true
                              (Some now))), r)
            end
        | (w2, Raise e) =>
            ((w2, (gs1, mkPlayerState (lobby_id ps) (code_name ps) true
                          (starttime ps))), Raise e)
        | (w2, OutOfFuel) =>
            ((w2, (gs1, mkPlayerState (lobby_id ps) (code_name ps) true
                          (starttime ps))), OutOfFuel)
        end
    | (w1, Raise e) => ((w1, (gs, ps)), Raise e)
    | (w1, OutOfFuel) => ((w1, (gs, ps)), OutOfFuel)
    end.
Proof.
  intros E. unfold synchronize_start_time_in_place.
  unfold bind_o at 1. unfold get_game. cbn [fst snd].
  unfold bind_o at 1. unfold on_world at 1. rewrite among_alone. unfold path_exists.
  rewrite E. cbn [negb].
  unfold bind_o at 1. unfold on_world at 1. rewrite among_alone.
  destruct (load_players_from_lobby PlayerState_new gs w) as [w1 [loaded|e|]];
    try reflexivity.
  unfold bind_o at 1. unfold set_players at 1. cbn [fst snd].
  unfold bind_o at 1. unfold set_timekeeper at 1. cbn [fst snd].
  unfold bind_o at 1. unfold on_world at 1. rewrite among_alone.
  destruct (init_game_file (start_time_path gs) w1) as [w2 [[]|e|]]; try reflexivity.
  unfold bind_o, set_starttime, on_world. cbn [fst snd lobby_id code_name timekeeper].
  rewrite among_alone.
  now destruct (write_text (start_time_path gs) (strftime now) w2) as [w3 r].
Qed.

Lemma init_game_file_creates path w :
  dirname path <> EmptyString -> ends_with_slash path = false ->
  files w !! path = None ->
  init_game_file path w
  = (mkWorld (<[path := File "" true true]> (files w))
             (events w ++ [EvWrite path ""]), Ok tt).
Proof.
  intros Hd Hs E. apply truthy_nonempty in Hd.
  unfold init_game_file. unfold bind at 1. unfold makedirs. rewrite Hd. cbn [ret].
  unfold bind at 1. unfold path_exists_in_made_dir, bind, path_exists, ret.
  rewrite E, Hs. cbn [orb negb]. unfold write_text. now rewrite E.
Qed.

(** The call of a player that finds no start-time file, once the roster is
    loaded. *)
Lemma in_place_timekeeper now fuel gs ps w w1 loaded :
  files w !! start_time_path gs = None ->
  dirname (start_time_path gs) <> EmptyString ->
  ends_with_slash (start_time_path gs) = false ->
  load_players_from_lobby PlayerState_new gs w = (w1, Ok loaded) ->
  exists w2,
    synchronize_start_time_in_place PlayerState_new alone now fuel (gs, ps) w
    = ((w2, (mkGameState (start_time_path gs) (player_path gs) loaded,
             mkPlayerState (lobby_id ps) (code_name ps) true (Some now))), Ok tt)
    /\ files w2 = <[start_time_path gs := File (strftime now) true true]> (files w).
Proof.
  intros E Hd Hs El.
  assert (Ef1 : files w1 = files w).
  { pose proof (load_players_keeps_files gs w) as H. now rewrite El in H. }
  rewrite (in_place_absent now fuel gs ps w E), El. cbv zeta.
  rewrite (init_game_file_creates _ w1 Hd Hs) by now rewrite Ef1.
  unfold write_text. cbn [files]. rewrite lookup_insert_eq. cbn [writable readable].
  eexists. split; [reflexivity|].
  cbn [files]. now rewrite insert_insert_eq, Ef1.
Qed.

Lemma synchronize_absent now fuel gs ps w w1 loaded :
  files w !! start_time_path gs = None ->
  dirname (start_time_path gs) <> EmptyString ->
  ends_with_slash (start_time_path gs) = false ->
  load_players_from_lobby PlayerState_new gs w = (w1, Ok loaded) ->
  exists w2,
    synchronize_start_time PlayerState_new now fuel gs ps w
    = (w2, Ok (mkGameState (start_time_path gs) (player_path gs) loaded,
               mkPlayerState (lobby_id ps) (code_name ps) true (Some now)))
    /\ files w2 = <[start_time_path gs := File (strftime now) true true]> (files w).
Proof.
  intros E Hd Hs El.
  destruct (in_place_timekeeper now fuel gs ps w w1 loaded E Hd Hs El) as (w2 & Er & Ef).
  exists w2. split; [|exact Ef]. unfold synchronize_start_time. now rewrite Er.
Qed.

(** The call of a player that finds a start-time file and runs alone. *)
Lemma in_place_present_alone now fuel gs ps w f :
  files w !! start_time_path gs = Some f ->
  synchronize_start_time_in_place PlayerState_new alone now (S fuel) (gs, ps) w
  = ((log (EvOpenRead (start_time_path gs)) w,
      (gs, if readable f then
             match strptime (strip (content f)) with
             | Some t => mkPlayerState (lobby_id ps) (code_name ps) (timekeeper ps)
                           (Some t)
             | None => ps
             end
           else ps)),
     if readable f then
       match strptime (strip (content f)) with
       | Some t => Ok tt
       | None => Raise ValueError
       end
     else Raise PermissionError).
Proof.
  intros E. rewrite (in_place_present alone now (S fuel) gs ps w f E).
  change (alone w) with w. rewrite (wait_among_found alone fuel _ w f E).
  change (alone w) with w. unfold read_text. rewrite E.
  destruct (readable f); [|reflexivity].
  now destruct (strptime (strip (content f))).
Qed.

Lemma synchronize_present now fuel gs ps w f :
  files w !! start_time_path gs = Some f ->
  synchronize_start_time PlayerState_new now (S fuel) gs ps w
  = (log (EvOpenRead (start_time_path gs)) w,
     if readable f then
       match strptime (strip (content f)) with
       | Some t => Ok (gs, mkPlayerState (lobby_id ps) (code_name ps) (timekeeper ps)
                             (Some t))
       | None => Raise ValueError
       end
     else Raise PermissionError).
Proof.
  intros E. unfold synchronize_start_time.
  rewrite (in_place_present_alone now fuel gs ps w f E).
  destruct (readable f); [|reflexivity].
  now destruct (strptime (strip (content f))).
Qed.

Lemma synchronize_present_no_fuel now gs ps w f :
  files w !! start_time_path gs = Some f ->
  synchronize_start_time PlayerState_new now 0 gs ps w = (w, OutOfFuel).
Proof.
  intros E. unfold synchronize_start_time.
  now rewrite (in_place_present alone now 0 gs ps w f E).
Qed.

(** The call of a player that finds no start-time file. *)
Lemma synchronize_absent_eq now fuel gs ps w :
  files w !! start_time_path gs = None ->
  synchronize_start_time PlayerState_new now fuel gs ps w
  = (loaded <- load_players_from_lobby PlayerState_new gs ;;
     init_game_file (start_time_path gs) ;;;
     write_text (start_time_path gs) (strftime now) ;;;
     ret (mkGameState (start_time_path gs) (player_path gs) loaded,
          mkPlayerState (lobby_id ps) (code_name ps) true (Some now))) w.
Proof.
  intros E. unfold synchronize_start_time. rewrite (in_place_absent now fuel gs ps w E).
  unfold bind at 1.
  destruct (load_players_from_lobby PlayerState_new gs w) as [w1 [loaded|e|]];
    try reflexivity.
  cbv zeta. unfold bind at 1.
  destruct (init_game_file (start_time_path gs) w1) as [w2 [[]|e|]]; try reflexivity.
  unfold bind, ret.
  now destruct (write_text (start_time_path gs) (strftime now) w2) as [w3 [[]|e|]].
Qed.


(** C6.  A player that finds the start-time file at the first test is not
    the timekeeper.  Among other processes that leave the event log alone,
    its call goes round the waiting loop, a message and a sleep of one
    second each time, for as long as the tests of the loop find no file:
    when none of the tests that the fuel allows finds the file, the call is
    still waiting; when the test after [k] rounds is the first to find it,
    the call has waited [k] times and then opens the file, once, and what it
    reads there becomes its start time.  And there is such a call that
    waits: when another process takes the file away after the first test
    and puts it back during the first sleep, the call waits once and then
    reads the start time. *)
Theorem waiting_loop_polls_the_file :
  (forall (env : World -> World) (now : datetime) (fuel : nat)
          (gs : GameState) (ps : PlayerState) (w : World),
     (forall w', events (env w') = events w') ->
     files w !! start_time_path gs <> None ->
     ((forall j, (j < fuel)%nat ->
         files (after_waits env j (env w)) !! start_time_path gs = None) ->
        snd (synchronize_start_time_in_place PlayerState_new env now fuel (gs, ps) w)
        = OutOfFuel
        /\ events (fst (fst (synchronize_start_time_in_place PlayerState_new env
                               now fuel (gs, ps) w)))
           = events w ++ concat (replicate fuel wait_events))
     /\ (forall k, (k < fuel)%nat ->
           (forall j, (j < k)%nat ->
              files (after_waits env j (env w)) !! start_time_path gs = None) ->
           files (after_waits env k (env w)) !! start_time_path gs <> None ->
           snd (synchronize_start_time_in_place PlayerState_new env now fuel
                  (gs, ps) w) <> OutOfFuel
           /\ events (fst (fst (synchronize_start_time_in_place PlayerState_new env
                                  now fuel (gs, ps) w)))
              = events w ++ concat (replicate k wait_events)
                  ++ [EvOpenRead (start_time_path gs)]
           /\ (forall f t,
                 files (env (after_waits env k (env w))) !! start_time_path gs
                 = Some f ->
                 readable f = true -> strptime (strip (content f)) = Some t ->
                 snd (synchronize_start_time_in_place PlayerState_new env now fuel
                        (gs, ps) w) = Ok tt
                 /\ snd (fst (synchronize_start_time_in_place PlayerState_new env
                                now fuel (gs, ps) w))
                    = (gs, mkPlayerState (lobby_id ps) (code_name ps) (timekeeper ps)
                             (Some t)))))
  /\ (files ex_started_world !! start_time_path ex_game <> None
      /\ snd (synchronize_start_time_in_place PlayerState_new ex_others ex_now 2
                (ex_game, ex_player "BRAVO") ex_started_world) = Ok tt
      /\ events (fst (fst (synchronize_start_time_in_place PlayerState_new ex_others
                             ex_now 2 (ex_game, ex_player "BRAVO") ex_started_world)))
         = wait_events ++ [EvOpenRead (start_time_path ex_game)]
      /\ snd (fst (synchronize_start_time_in_place PlayerState_new ex_others ex_now 2
                     (ex_game, ex_player "BRAVO") ex_started_world))
         = (ex_game, mkPlayerState "7" "BRAVO" false
                       (Some (mkDatetime 2024 2 29 9 5 59 0)))).
Proof.
  split.
  - intros env now fuel gs ps w Henv Hex.
    destruct (files w !! start_time_path gs) as [f0|] eqn:E0; [clear Hex|congruence].
    rewrite (in_place_present env now fuel gs ps w f0 E0). split.
    + intros Hm. rewrite (wait_among_out env _ fuel (env w) Hm). cbn [fst snd].
      split; [reflexivity|]. now rewrite (after_waits_events env Henv), Henv.
    + intros k Hk Hm Hf. rewrite (wait_among_ok env _ k fuel (env w) Hk Hm Hf).
      assert (Hev : events (log (EvOpenRead (start_time_path gs))
                             (env (after_waits env k (env w))))
                    = events w ++ concat (replicate k wait_events)
                        ++ [EvOpenRead (start_time_path gs)]).
      { cbn [log events]. rewrite Henv, (after_waits_events env Henv), Henv.
        now rewrite <- app_assoc. }
      unfold read_text.
      destruct (files (env (after_waits env k (env w))) !! start_time_path gs)
        as [f|] eqn:Ef.
      * destruct (readable f) eqn:R.
        -- destruct (strptime (strip (content f))) as [t|] eqn:Et; cbn [fst snd];
             rewrite Henv; (split_and!; [discriminate|exact Hev|]);
             intros f' t' [= <-] _ Et'; rewrite Et in Et'; [|discriminate Et'].
           injection Et' as <-. now split.
        -- cbn [fst snd]. rewrite Henv. split_and!; [discriminate|exact Hev|].
           intros f' t' [= <-] R'. congruence.
      * cbn [fst snd]. rewrite Henv. split_and!; [discriminate|exact Hev|].
        intros f' t' Ef'. discriminate Ef'.
  - split_and!; [discriminate| | |];
      rewrite (in_place_present ex_others ex_now 2 ex_game (ex_player "BRAVO")
                 ex_started_world (File "2024-02-29 09:05:59" true true) eq_refl);
      vm_compute; reflexivity.
Qed.


End StartTime.



Lemma waiting_loop_polls_the_file_witness :
  events (fst (fst (synchronize_start_time_in_place ex_PlayerState_new ex_others
                      ex_now 2 (ex_game, ex_player "BRAVO") ex_started_world)))
  = [] ++ concat (replicate 1 wait_events) ++ [EvOpenRead (start_time_path ex_game)].
Proof.
  destruct (waiting_loop_polls_the_file ex_PlayerState_new) as (H & _).
  destruct (H ex_others ex_now 2%nat ex_game (ex_player "BRAVO") ex_started_world)
    as (_ & H2).
  - intros w'. unfold ex_others. now destruct (existsb is_sleep (events w')).
  - discriminate.
  - destruct (H2 1%nat) as (_ & He & _).
    + lia.
    + intros j Hj. assert (j = 0%nat) as -> by lia. reflexivity.
    + discriminate.
    + exact He.
Defined.


(** * Further properties of the code *)

(** ** The cursor file between calls and between assigners *)

Lemma str_nonneg_digits n : forall_chars is_digit (str_nonneg n) = true.
Proof. unfold str_nonneg. now apply str_digits_all_digits. Qed.

Lemma py_str_no_space z :
  forall_chars (fun c => negb (isspace c)) (py_str z) = true.
Proof.
  unfold py_str. destruct (z <? 0).
  - cbn [forall_chars]. rewrite digits_no_space by apply str_nonneg_digits.
    reflexivity.
  - apply digits_no_space, str_nonneg_digits.
Qed.

Lemma strip_py_str_any z : strip (py_str z) = py_str z.
Proof. apply strip_no_space, py_str_no_space. Qed.

(** [int(str(z))] is [z], for a negative [z] too. *)
Lemma py_int_py_str_any z : py_int (py_str z) = Some z.
Proof.
  destruct (Z.ltb_spec z 0) as [Hz|Hz]; [|now apply py_int_py_str].
  unfold py_int. rewrite strip_py_str_any. unfold py_str.
  destruct (Z.ltb_spec z 0) as [_|]; [|lia].
  cbn [Ascii.eqb Bool.eqb]. rewrite parse_digits_str_nonneg by lia.
  cbn [option_map]. f_equal. lia.
Qed.

(** The world after a write to a cursor file that can be written. *)
Lemma written_cursor_holds self other j w :
  index_path other = index_path self ->
  can_write w (index_path self) = true ->
  (forall f, files w !! index_path self = Some f -> readable f = true) ->
  index_file_holds other (fst (_write_index self j w)) j
  /\ can_write (fst (_write_index self j w)) (index_path other) = true.
Proof.
  intros Ep C R. rewrite write_index_ok by exact C. cbn [fst].
  unfold index_file_holds, can_write. cbn [files]. rewrite Ep, lookup_insert_eq.
  split.
  - eexists. split; [reflexivity|]. unfold written_file.
    destruct (files w !! index_path self) as [f|] eqn:E; cbn [readable content].
    + rewrite (R f eq_refl), strip_py_str_any. split; [reflexivity|apply py_int_py_str_any].
    + rewrite strip_py_str_any. split; [reflexivity|apply py_int_py_str_any].
  - unfold written_file. now destruct (files w !! index_path self).
Qed.



Lemma cycle_from_cons (l : list string) i k item :
  0 <= i < len l -> l !! Z.to_nat i = Some item ->
  cycle_from l i (S k) = item :: cycle_from l ((i + 1) mod len l) k.
Proof.
  intros B El. cbn [cycle_from].
  destruct (py_index_in_range l i B) as (x & -> & Ex).
  rewrite El in Ex. now injection Ex as ->.
Qed.



Lemma files_only_read_index self : files_only (_read_index self).
Proof.
  unfold _read_index.
  apply files_only_bind; [apply files_only_path_exists|]. intros e.
  destruct (negb e); [apply files_only_ret|].
  apply files_only_try_except; [|intros; apply files_only_ret].
  apply files_only_bind; [apply files_only_read_text|]. intros text.
  apply files_only_bind; [apply files_only_of_option|]. intros idx.
  destruct (negb _); [apply files_only_raise|apply files_only_ret].
Qed.

(** One call of [assign] on a cursor file that may not be written: the
    files stay as they are. *)
Lemma assign_denied self w w0 item :
  valid_items self ->
  can_write w0 (index_path self) = false ->
  snd (assign self w0) = Ok item ->
  files w = files w0 ->
  snd (assign self w) = Ok item /\ files (fst (assign self w)) = files w0.
Proof.
  intros V C E0 Hf.
  destruct (assign_run self w0 V) as (i0 & u0 & it0 & Er0 & _ & El0 & Ea0).
  destruct (assign_run self w V) as (i & u & it & Er & _ & El & Ea).
  rewrite Ea0 in E0. cbn [snd] in E0. injection E0 as ->.
  destruct (files_only_read_index self w w0 Hf) as (_ & Hs).
  rewrite Er, Er0 in Hs. cbn [snd] in Hs. injection Hs as ->.
  rewrite El0 in El. injection El as <-.
  rewrite Ea. cbn [snd fst]. split; [reflexivity|].
  destruct (read_index_returns self w) as (r & u' & Er' & Hu & _).
  rewrite Er in Er'. injection Er' as <- <-.
  rewrite write_index_denied.
  - cbn [fst log files]. congruence.
  - unfold can_write in *. now rewrite Hu, Hf.
Qed.

(** X3. On a cursor file that may not be written, [assign] does not fail
    and does not advance: every call returns the same item of the list, and
    the files are left as they are. *)
Theorem assign_repeats_on_read_only_cursor
    (self : SequentialAssigner) (w : World) (f : file) :
  valid_items self ->
  files w !! index_path self = Some f ->
  writable f = false ->
  exists item,
    item ∈ items self
    /\ forall k, snd (assign_many k self w) = Ok (replicate k item)
                 /\ files (fst (assign_many k self w)) = files w.
Proof.
  intros V E Wf.
  assert (C : can_write w (index_path self) = false).
  { unfold can_write. now rewrite E. }
  destruct (assign_run self w V) as (i0 & u0 & item & Er0 & _ & El0 & Ea0).
  exists item. split; [apply list_elem_of_lookup; eauto|].
  assert (E0 : snd (assign self w) = Ok item) by now rewrite Ea0.
  assert (G : forall k w', files w' = files w ->
    exists w2, assign_many k self w' = (w2, Ok (replicate k item))
               /\ files w2 = files w).
  { induction k as [|k IH]; intros w' Hf; [now exists w'|].
    destruct (assign_denied self w' w item V C E0 Hf) as (Es & Ef).
    destruct (assign self w') as [w1 r1] eqn:Ea. cbn [snd fst] in *. subst r1.
    destruct (IH _ Ef) as (w2 & Em & Efm).
    exists w2. split; [|exact Efm].
    cbn [assign_many replicate]. unfold bind at 1. rewrite Ea.
    unfold bind at 1. now rewrite Em. }
  intros k. destruct (G k w eq_refl) as (w2 & -> & Ef). now split.
Qed.

Lemma assign_repeats_on_read_only_cursor_witness :
  snd (assign_many 3 ex_assigner (ex_cursor_world "1" true false))
  = Ok ["BRAVO"; "BRAVO"; "BRAVO"].
Proof.
  assert (V : valid_items ex_assigner).
  { split; [discriminate|]. repeat constructor. }
  destruct (assign_repeats_on_read_only_cursor ex_assigner
              (ex_cursor_world "1" true false) (File "1" true false) V eq_refl eq_refl)
    as (item & _ & H).
  destruct (H 1%nat) as (E1 & _). vm_compute in E1. injection E1 as <-.
  apply (H 3%nat).
Defined.

(** ** An assigner after a restart *)

Lemma map_JStr_inj (a b : list string) : map JStr a = map JStr b -> a = b.
Proof.
  revert b. induction a as [|x a IH]; intros [|y b] H; try discriminate; [reflexivity|].
  cbn in H. injection H as -> H. f_equal. now apply IH.
Qed.

(** What [_load_items] returns depends on the list file only. *)
Lemma load_items_same_file list_path key w w' :
  files w !! list_path = files w' !! list_path ->
  snd (_load_items list_path key w) = snd (_load_items list_path key w').
Proof.
  intros H.
  pose proof (load_items_cases list_path key w) as A.
  pose proof (load_items_cases list_path key w') as A'.
  rewrite H in A.
  destruct (files w' !! list_path) as [f|]; [|now rewrite A, A'].
  cbv zeta in A, A'.
  destruct (negb (readable f)); [now rewrite A, A'|].
  destruct (json_loads (content f)) as [[| | | |l|kvs]|];
    try (now rewrite A, A').
  destruct (dict_get key kvs) as [[| | | |l|kvs']|];
    try (now rewrite A, A').
  destruct A as [(s & El & ->)|(N & ->)], A' as [(s' & El' & ->)|(N' & ->)].
  - rewrite El in El'. apply map_JStr_inj in El'. now subst s'.
  - destruct N'. eauto.
  - destruct N. eauto.
  - reflexivity.
Qed.

Lemma load_items_keeps_files list_path key w :
  files (fst (_load_items list_path key w)) = files w.
Proof.
  pose proof (load_items_cases list_path key w) as A.
  destruct (files w !! list_path) as [f|]; [|now rewrite A].
  cbv zeta in A.
  destruct (negb (readable f)); [now rewrite A|].
  destruct (json_loads (content f)) as [[| | | |l|kvs]|];
    try (now rewrite A).
  destruct (dict_get key kvs) as [[| | | |l|kvs']|];
    try (now rewrite A).
  now destruct A as [(s & El & ->)|(N & ->)].
Qed.

(** A call of [assign] changes no file but the cursor file. *)
Lemma assign_keeps_other_files self w p :
  items self <> [] -> p <> index_path self ->
  files (fst (assign self w)) !! p = files w !! p
  /\ exists item, snd (assign self w) = Ok item.
Proof.
  intros Hne Hp.
  destruct (assign_run_any self w Hne) as (idx & w1 & w2 & item & Er & B & Hw & _ & Ea).
  destruct (read_index_returns self w) as (r & w1' & Er' & Hf & _).
  rewrite Er in Er'. injection Er' as <- <-.
  assert (Hf2 : files w2 = files w).
  { destruct Hw as [->|(x & ->)]; exact Hf. }
  rewrite Ea. cbn [fst snd]. split; [|eauto].
  pose proof (next_cursor_bounds idx (len (items self)) ltac:(lia)) as B'.
  destruct (write_index_effect self ((idx + 1) mod len (items self)) w2 (proj1 B'))
    as (w3 & -> & [(E3 & _)|(E3 & _)]); cbn [fst]; rewrite E3.
  - now rewrite Hf2.
  - rewrite lookup_insert_ne by congruence. now rewrite Hf2.
Qed.

Lemma assign_many_keeps_other_files self p n : forall w,
  items self <> [] -> p <> index_path self ->
  files (fst (assign_many n self w)) !! p = files w !! p.
Proof.
  induction n as [|n IH]; intros w Hne Hp; [reflexivity|].
  destruct (assign_keeps_other_files self w p Hne Hp) as (Ef & item & Es).
  destruct (assign self w) as [w1 r1] eqn:Ea. cbn [fst snd] in *. subst r1.
  specialize (IH w1 Hne Hp).
  cbn [assign_many]. unfold bind at 1. rewrite Ea. unfold bind at 1.
  destruct (assign_many n self w1) as [w2 [xs|e|]]; cbn [fst ret] in *; congruence.
Qed.

(** X4. Constructing an assigner changes no file, and the calls of [assign]
    change no file but the cursor file.  So, with the list and the cursor in
    two files, an assigner constructed anew after any number of calls is the
    assigner constructed before. *)
Theorem assigner_constructed_again_is_the_same
    (list_path index_path key : string) (w0 w1 : World) (self : SequentialAssigner)
    (n : nat) :
  SequentialAssigner_init list_path index_path key w0 = (w1, Ok self) ->
  list_path <> index_path ->
  files w1 = files w0
  /\ files (fst (assign_many n self w1)) !! list_path = files w0 !! list_path
  /\ snd (SequentialAssigner_init list_path index_path key
            (fst (assign_many n self w1)))
     = Ok self.
Proof.
  intros E Hp. unfold SequentialAssigner_init in E. unfold bind in E.
  pose proof (load_items_keeps_files list_path key w0) as Hk.
  destruct (_load_items list_path key w0) as [w1' [its|e|]] eqn:El; try discriminate.
  cbn [ret] in E. injection E as <- <-. cbn [fst] in Hk.
  assert (Hne : its <> []).
  { intros ->. unfold _load_items in El. unfold bind at 1 in El.
    unfold path_exists in El.
    destruct (files w0 !! list_path); cbn [negb] in El; [|discriminate].
    unfold bind at 1 in El.
    destruct (try_except _ _ _ w0) as [u [[|x its]|e|]]; cbn in El; discriminate. }
  set (self := mkAssigner list_path index_path key its).
  pose proof (assign_many_keeps_other_files self list_path n w1' Hne Hp) as Hm.
  split_and!; [exact Hk| now rewrite Hm, Hk |].
  unfold SequentialAssigner_init, bind.
  assert (Hs : snd (_load_items list_path key (fst (assign_many n self w1')))
               = Ok its).
  { rewrite (load_items_same_file list_path key _ w0).
    - now rewrite El.
    - now rewrite Hm, Hk. }
  destruct (_load_items list_path key (fst (assign_many n self w1'))) as [u r].
  cbn [snd] in Hs. now subst r.
Qed.

Lemma assigner_constructed_again_is_the_same_witness :
  exists self,
    snd (SequentialAssigner_init "names.json" "names.idx" "names"
           (ex_list_world ex_names)) = Ok self
    /\ items self = ["ALPHA"; "BRAVO"; "CHARLIE"]
    /\ snd (SequentialAssigner_init "names.json" "names.idx" "names"
              (fst (assign_many 2 self
                      (fst (SequentialAssigner_init "names.json" "names.idx" "names"
                              (ex_list_world ex_names))))))
       = Ok self.
Proof.
  exists (mkAssigner "names.json" "names.idx" "names" ["ALPHA"; "BRAVO"; "CHARLIE"]).
  split; [vm_compute; reflexivity|]. split; [reflexivity|].
  apply (assigner_constructed_again_is_the_same "names.json" "names.idx" "names"
           (ex_list_world ex_names)).
  - vm_compute. reflexivity.
  - discriminate.
Defined.

(** ** The message log between two polls *)

Lemma rstrip_eq c r :
  rstrip (String c r)
  = match rstrip r with
    | EmptyString => if isspace c then EmptyString else String c EmptyString
    | r' => String c r'
    end.
Proof. reflexivity. Qed.

Lemma rstrip_idem s : rstrip (rstrip s) = rstrip s.
Proof.
  induction s as [|c r IH]; [reflexivity|].
  rewrite rstrip_eq. destruct (rstrip r) as [|c' r'] eqn:E.
  - destruct (isspace c) eqn:S; [reflexivity|].
    rewrite rstrip_eq. cbn [rstrip]. now rewrite S.
  - rewrite rstrip_eq, IH. reflexivity.
Qed.

Lemma lstrip_len s : (str_len (lstrip s) <= str_len s)%nat.
Proof.
  induction s as [|c r IH]; [reflexivity|].
  unfold str_len in *. cbn [lstrip].
  destruct (isspace c); cbn [String.length]; lia.
Qed.

Lemma lstrip_idem s : lstrip (lstrip s) = lstrip s.
Proof.
  induction s as [|c r IH]; [reflexivity|].
  cbn [lstrip]. destruct (isspace c) eqn:S; [exact IH|].
  cbn [lstrip]. now rewrite S.
Qed.

Lemma lstrip_rstrip t : lstrip t = t -> lstrip (rstrip t) = rstrip t.
Proof.
  destruct t as [|c r]; [reflexivity|]. intros H.
  destruct (isspace c) eqn:S.
  - cbn [lstrip] in H. rewrite S in H.
    pose proof (lstrip_len r) as L. rewrite H in L.
    unfold str_len in L. cbn [String.length] in L. lia.
  - rewrite rstrip_eq. destruct (rstrip r); rewrite ?S; cbn [lstrip]; now rewrite S.
Qed.

(** [s.strip().strip()] is [s.strip()]. *)
Lemma strip_idem s : strip (strip s) = strip s.
Proof.
  unfold strip. rewrite (lstrip_rstrip _ (lstrip_idem s)). apply rstrip_idem.
Qed.

Lemma stripped_nonblank_elem m lines :
  m ∈ stripped_nonblank lines -> m <> "" /\ strip m = m.
Proof.
  unfold stripped_nonblank. intros H.
  apply list_elem_of_fmap in H as (l & -> & H).
  apply list_elem_of_filter in H as (T & _).
  split; [|apply strip_idem].
  intros E. rewrite E in T. discriminate.
Qed.

Lemma stripped_nonblank_length lines :
  (length (stripped_nonblank lines) <= length lines)%nat.
Proof.
  unfold stripped_nonblank. rewrite length_map. apply length_filter.
Qed.

Lemma stripped_nonblank_app a b :
  stripped_nonblank (a ++ b) = stripped_nonblank a ++ stripped_nonblank b.
Proof. unfold stripped_nonblank. now rewrite filter_app, map_app. Qed.

Lemma py_slice_from_suffix {A} (l : list A) i :
  exists seen, l = seen ++ py_slice_from l i.
Proof.
  unfold py_slice_from. destruct (0 <=? i); eexists; symmetry; apply take_drop.
Qed.

Lemma read_new_messages_run path w f last_line :
  files w !! path = Some f -> readable f = true ->
  read_new_messages path last_line w
  = (log (EvOpenRead path) w,
     Ok (stripped_nonblank (readlines (content f)),
         py_slice_from (stripped_nonblank (readlines (content f))) last_line,
         last_line
         + len (py_slice_from (stripped_nonblank (readlines (content f))) last_line))).
Proof.
  intros Ef R. unfold read_new_messages, bind, read_text. now rewrite Ef, R.
Qed.

(** X5. Whatever the counter, on a log that can be read: the new messages
    are the end of the full list, the counter grows by their number, no
    message is empty or has white space around it, and there are at most as
    many messages as lines. *)
Theorem read_new_messages_invariants (path : string) (w : World) (f : file)
    (last_line : Z) :
  files w !! path = Some f ->
  readable f = true ->
  exists full new counter,
    snd (read_new_messages path last_line w) = Ok (full, new, counter)
    /\ (exists seen, full = seen ++ new)
    /\ counter = last_line + len new
    /\ Forall (fun m => m <> "" /\ strip m = m) full
    /\ (length full <= length (readlines (content f)))%nat.
Proof.
  intros Ef R. rewrite (read_new_messages_run _ _ _ _ Ef R). cbn [snd].
  eexists _, _, _. split; [reflexivity|]. split_and!.
  - apply py_slice_from_suffix.
  - reflexivity.
  - apply Forall_forall. intros m. apply stripped_nonblank_elem.
  - apply stripped_nonblank_length.
Qed.

Lemma read_new_messages_invariants_witness :
  exists full new counter,
    snd (read_new_messages "chat.txt" (-1) ex_chat_world) = Ok (full, new, counter)
    /\ (exists seen, full = seen ++ new)
    /\ counter = -1 + len new
    /\ Forall (fun m => m <> "" /\ strip m = m) full
    /\ (length full <= 4)%nat.
Proof.
  exact (read_new_messages_invariants "chat.txt" ex_chat_world _ (-1) eq_refl eq_refl).
Defined.

(** X6. A counter outside the list.  Past the end, no message is new and
    the counter comes back as it was, not as the number of messages.  Below
    zero, it counts from the end: the last messages are handed out again,
    and the counter comes back as 0 when there are that many messages. *)
Theorem read_new_messages_counter_out_of_range (path : string) (w : World) (f : file)
    (last_line : Z) :
  files w !! path = Some f ->
  readable f = true ->
  (len (stripped_nonblank (readlines (content f))) < last_line ->
     snd (read_new_messages path last_line w)
     = Ok (stripped_nonblank (readlines (content f)), [], last_line))
  /\ (last_line < 0 ->
        snd (read_new_messages path last_line w)
        = Ok (stripped_nonblank (readlines (content f)),
              drop (Z.to_nat (len (stripped_nonblank (readlines (content f)))
                              + last_line))
                   (stripped_nonblank (readlines (content f))),
              Z.min 0 (last_line + len (stripped_nonblank (readlines (content f)))))).
Proof.
  intros Ef R. rewrite (read_new_messages_run _ _ _ _ Ef R). cbn [snd].
  set (L := stripped_nonblank (readlines (content f))).
  unfold py_slice_from. split; intros B.
  - destruct (Z.leb_spec 0 last_line); [|unfold len in B; lia].
    rewrite drop_ge by (unfold len in B; lia).
    do 2 f_equal. unfold len. cbn. lia.
  - destruct (Z.leb_spec 0 last_line); [lia|].
    replace (Z.to_nat (Z.max 0 (len L + last_line)))
      with (Z.to_nat (len L + last_line)) by lia.
    do 2 f_equal. unfold len. rewrite length_drop. lia.
Qed.

Lemma read_new_messages_counter_out_of_range_witness :
  snd (read_new_messages "chat.txt" 5 ex_chat_world)
  = Ok (["hello"; "how are you"; "fine"], [], 5)
  /\ snd (read_new_messages "chat.txt" (-2) ex_chat_world)
     = Ok (["hello"; "how are you"; "fine"], ["how are you"; "fine"], 0).
Proof.
  destruct (read_new_messages_counter_out_of_range "chat.txt" ex_chat_world _ 5
              eq_refl eq_refl) as (H1 & _).
  destruct (read_new_messages_counter_out_of_range "chat.txt" ex_chat_world _ (-2)
              eq_refl eq_refl) as (_ & H2).
  split.
  - apply H1. vm_compute. reflexivity.
  - apply H2. reflexivity.
Defined.

(** Text added after a line end starts new lines. *)
Lemma readlines_from_app n : forall t cur b,
  (str_len t <= n)%nat ->
  readlines_from cur ((t +:+ String "010" "") +:+ b)
  = readlines_from cur (t +:+ String "010" "") ++ readlines_from "" b.
Proof.
  induction n as [|n IH]; intros t cur b Hn.
  - destruct t; [reflexivity|unfold str_len in Hn; cbn [String.length] in Hn; lia].
  - destruct t as [|c r]; [reflexivity|].
    unfold str_len in Hn. cbn [String.length] in Hn.
    rewrite !app_cons_str. cbn [readlines_from].
    destruct (Ascii.eqb c "010").
    { rewrite IH by (unfold str_len; lia). reflexivity. }
    destruct (Ascii.eqb c "013"); [|apply IH; unfold str_len; lia].
    destruct r as [|c' r']; [reflexivity|].
    rewrite !app_cons_str.
    destruct (Ascii.eqb c' "010").
    + cbn [String.length] in Hn.
      rewrite IH by (unfold str_len; lia). reflexivity.
    + rewrite <- !app_cons_str.
      rewrite IH by (unfold str_len; lia). reflexivity.
Qed.

Lemma readlines_app t b :
  readlines ((t +:+ String "010" "") +:+ b)
  = readlines (t +:+ String "010" "") ++ readlines b.
Proof. unfold readlines. now apply (readlines_from_app (str_len t)). Qed.

(** X7. Polling a log that grows.  The log ends with a line end, or is
    empty, when it is read with a counter in its range; text is then added
    at its end.  Read again with the counter of the first call, the new
    messages are the messages of the added text and the counter is the
    number of all messages: no message is lost, none comes twice. *)
Theorem read_new_messages_after_append (path : string) (w w' : World) (f f' : file)
    (last_line : Z) (added : string) :
  files w !! path = Some f -> readable f = true ->
  (content f = "" \/ exists t, content f = t +:+ String "010" "") ->
  0 <= last_line <= len (stripped_nonblank (readlines (content f))) ->
  files w' !! path = Some f' -> readable f' = true ->
  content f' = content f +:+ added ->
  exists counter,
    snd (read_new_messages path last_line w)
    = Ok (stripped_nonblank (readlines (content f)),
          drop (Z.to_nat last_line) (stripped_nonblank (readlines (content f))),
          counter)
    /\ snd (read_new_messages path counter w')
       = Ok (stripped_nonblank (readlines (content f))
               ++ stripped_nonblank (readlines added),
             stripped_nonblank (readlines added),
             counter + len (stripped_nonblank (readlines added))).
Proof.
  intros Ef R Hend B Ef' R' Ec.
  set (L := stripped_nonblank (readlines (content f))) in *.
  exists (len L).
  rewrite (read_new_messages_run _ _ _ _ Ef R), (read_new_messages_run _ _ _ _ Ef' R').
  cbn [snd]. fold L.
  assert (EL : stripped_nonblank (readlines (content f')) = L ++ stripped_nonblank (readlines added)).
  { rewrite Ec. subst L. destruct Hend as [->|(t & ->)]; [reflexivity|].
    now rewrite readlines_app, stripped_nonblank_app. }
  rewrite EL. unfold py_slice_from.
  destruct (Z.leb_spec 0 last_line); [|lia].
  destruct (Z.leb_spec 0 (len L)); [|unfold len in *; lia].
  split.
  - do 2 f_equal. unfold len in *. rewrite length_drop. lia.
  - assert (Ed : drop (Z.to_nat (len L)) (L ++ stripped_nonblank (readlines added))
                 = stripped_nonblank (readlines added)).
    { unfold len. rewrite Nat2Z.id. apply drop_app_length. }
    now rewrite Ed.
Qed.

Lemma read_new_messages_after_append_witness :
  exists counter,
    snd (read_new_messages "chat.txt" 1
           (mkWorld {[ "chat.txt" := File ("hello" +:+ String "010" "") true true ]} []))
    = Ok (["hello"], [], counter)
    /\ snd (read_new_messages "chat.txt" counter
              (mkWorld {[ "chat.txt" :=
                            File (("hello" +:+ String "010" "")
                                  +:+ (" again " +:+ String "010" "bye")) true true ]} []))
       = Ok (["hello"; "again"; "bye"], ["again"; "bye"], counter + 2).
Proof.
  apply (read_new_messages_after_append "chat.txt"
           (mkWorld {[ "chat.txt" := File ("hello" +:+ String "010" "") true true ]} [])
           (mkWorld {[ "chat.txt" :=
                         File (("hello" +:+ String "010" "")
                               +:+ (" again " +:+ String "010" "bye")) true true ]} [])
           (File ("hello" +:+ String "010" "") true true)
           (File (("hello" +:+ String "010" "")
                  +:+ (" again " +:+ String "010" "bye")) true true)
           1 (" again " +:+ String "010" "bye")).
  - reflexivity.
  - reflexivity.
  - right. exists "hello". reflexivity.
  - vm_compute. split; discriminate.
  - reflexivity.
  - reflexivity.
  - reflexivity.
Defined.

(** ** The roster, saved and loaded *)

(** The end of a call of [save_player_to_lobby_file], from the value it
    takes for the roster on: either it raises and the files are as they
    were, or it writes the roster file. *)
Lemma save_tail_outcome asdict ps v w0 w1 r :
  (elems <- py_iter v ;;
   found <- any_code_name (code_name ps) elems ;;
   players <-
     (if negb found then py_append v (JObj (asdict ps)) else ret v) ;;
   write_text (lobby_file_path ps) (json_dumps players)) w0 = (w1, r) ->
  ((exists e, r = Raise e) /\ files w1 = files w0)
  \/ (r = Ok tt
      /\ exists players rd,
           files w1
           = <[lobby_file_path ps := File (json_dumps players) rd true]> (files w0)).
Proof.
  unfold bind at 1. destruct (pure_py_iter v) as [ri Hri]. rewrite Hri.
  destruct ri as [elems|e|];
    [|intros [= <- <-]; left; eauto|
     exfalso; specialize (Hri w0); destruct v; discriminate Hri].
  unfold bind at 1.
  destruct (pure_any_code_name (code_name ps) elems) as [ra Hra]. rewrite Hra.
  destruct ra as [found|e|];
    [|intros [= <- <-]; left; eauto|].
  2:{ exfalso. specialize (Hra w0). clear Hri. revert Hra.
      induction elems as [|p elems IH]; [discriminate|].
      cbn [any_code_name]. unfold bind.
      destruct (pure_py_getitem p "code_name") as [rg Hrg]. rewrite Hrg.
      destruct rg as [x|e|]; [|discriminate|].
      - destruct (json_eq_str x (code_name ps)); [discriminate|exact IH].
      - specialize (Hrg w0). destruct p; cbn in Hrg; try discriminate Hrg.
        unfold of_option in Hrg. destruct (dict_get _ _); discriminate Hrg. }
  unfold bind.
  destruct (pure_py_append v (JObj (asdict ps))) as [rp Hrp].
  assert (Hw : forall players,
    write_text (lobby_file_path ps) (json_dumps players) w0 = (w1, r) ->
    ((exists e, r = Raise e) /\ files w1 = files w0)
    \/ (r = Ok tt
        /\ exists players rd,
             files w1
             = <[lobby_file_path ps := File (json_dumps players) rd true]> (files w0))).
  { intros players. unfold write_text.
    destruct (files w0 !! lobby_file_path ps) as [f|].
    - destruct (writable f); intros [= <- <-]; [right|left; eauto].
      split; [reflexivity|]. now exists players, (readable f).
    - intros [= <- <-]. right. split; [reflexivity|]. now exists players, true. }
  destruct found; cbn [negb].
  - cbn [ret]. apply Hw.
  - rewrite Hrp. destruct rp as [players|e|].
    + apply Hw.
    + intros [= <- <-]. left. eauto.
    + exfalso. specialize (Hrp w0). destruct v; discriminate Hrp.
Qed.

Lemma save_outcome asdict ps w w1 r :
  save_player_to_lobby_file asdict ps w = (w1, r) ->
  ((exists e, r = Raise e) /\ files w1 = files w)
  \/ (r = Ok tt
      /\ exists players rd,
           files w1
           = <[lobby_file_path ps := File (json_dumps players) rd true]> (files w)).
Proof.
  rewrite save_player_body.
  unfold bind at 1. unfold path_exists.
  destruct (files w !! lobby_file_path ps) as [f|] eqn:Ef.
  - unfold bind at 1. unfold bind at 1. unfold read_text. rewrite Ef.
    destruct (readable f); [|intros [= <- <-]; left; eauto].
    unfold try_except, json_load.
    destruct (json_loads (content f)) as [v|]; cbn [of_option ret raise is_JSONDecodeError];
      intros H; apply save_tail_outcome in H; exact H.
  - unfold bind at 1. cbn [ret]. intros H. apply save_tail_outcome in H. exact H.
Qed.

(** A call that starts a roster: there is no roster file, or its text is
    not JSON. *)
Lemma save_fresh_run asdict ps w :
  (files w !! lobby_file_path ps = None
   \/ exists f, files w !! lobby_file_path ps = Some f /\ readable f = true
                /\ writable f = true /\ json_loads (content f) = None) ->
  exists w1,
    save_player_to_lobby_file asdict ps w = (w1, Ok tt)
    /\ files w1
       = <[lobby_file_path ps := File (json_dumps (JArr [JObj (asdict ps)])) true true]>
           (files w).
Proof.
  intros [Ef|(f & Ef & R & Wr & Ej)]; rewrite save_player_body;
    unfold bind at 1; unfold path_exists; rewrite Ef.
  - cbn [negb]. unfold bind at 1. cbn [ret py_iter]. unfold bind at 1.
    cbn [ret any_code_name]. unfold bind at 1. cbn [ret negb py_append app].
    unfold bind. cbn [ret]. unfold write_text. rewrite Ef.
    eexists. split; reflexivity.
  - unfold bind at 1. unfold bind at 1. unfold read_text. rewrite Ef, R.
    unfold try_except, json_load. rewrite Ej.
    cbn [of_option raise ret is_JSONDecodeError].
    unfold bind at 1. cbn [ret py_iter]. unfold bind at 1.
    cbn [ret any_code_name]. unfold bind at 1. cbn [ret negb py_append app].
    unfold bind. cbn [ret]. unfold write_text, log. cbn [files]. rewrite Ef, Wr, R.
    eexists. split; reflexivity.
Qed.

Lemma save_on_list_run asdict ps w f l found :
  files w !! lobby_file_path ps = Some f ->
  readable f = true -> writable f = true ->
  json_loads (content f) = Some (JArr l) ->
  (forall w', any_code_name (code_name ps) l w' = (w', Ok found)) ->
  exists w1,
    save_player_to_lobby_file asdict ps w = (w1, Ok tt)
    /\ files w1
       = <[lobby_file_path ps :=
             File (json_dumps (JArr (if found then l else l ++ [JObj (asdict ps)])))
                  true true]> (files w).
Proof.
  intros Ef R Wr Ej Hany.
  rewrite save_player_body.
  unfold bind at 1. unfold path_exists. rewrite Ef.
  unfold bind at 1. unfold bind at 1. unfold read_text. rewrite Ef, R.
  unfold try_except, json_load. rewrite Ej.
  cbn [of_option ret]. unfold bind at 1. cbn [py_iter ret].
  unfold bind at 1. rewrite Hany. unfold bind.
  destruct found; cbn [negb ret py_append];
    unfold write_text, log; cbn [files]; rewrite Ef, Wr, R;
    eexists; split; reflexivity.
Qed.

Section SavedRoster.

Variable asdict : PlayerState -> list (string * json).
Variable PlayerState_new : list (string * json) -> PlayerState + exn.
Variable path : string.

(** A player of the lobby whose record carries its code name and which the
    constructor builds back from its record. *)
Local Abbreviation good := (fun p =>
  lobby_file_path p = path
  /\ dict_get "code_name" (asdict p) = Some (JStr (code_name p))
  /\ json_wf (JObj (asdict p)) = true
  /\ PlayerState_new (asdict p) = inl p).

Lemma any_code_name_records name l w :
  Forall good l -> name ∉ map code_name l ->
  any_code_name name (map (fun p => JObj (asdict p)) l) w = (w, Ok false).
Proof.
  induction 1 as [|p l (_ & Hc & _) _ IH]; intros Hn; [reflexivity|].
  cbn [map any_code_name py_getitem]. unfold bind. rewrite Hc.
  cbn [of_option ret json_eq_str]. cbn [map] in Hn.
  apply not_elem_of_cons in Hn as (Hn & Hl).
  unfold str_eqb. rewrite bool_decide_eq_false_2 by congruence.
  now apply IH.
Qed.

Lemma roster_of_wf l : Forall good l -> json_wf (roster_of asdict l) = true.
Proof.
  unfold roster_of. rewrite json_wf_arr.
  induction 1 as [|p l (_ & _ & Hw & _) _ IH]; [reflexivity|].
  cbn [map forallb]. now rewrite Hw, IH.
Qed.

Lemma save_all_on_roster : forall rest done w,
  Forall good (done ++ rest) -> NoDup (map code_name (done ++ rest)) ->
  files w !! path = Some (File (json_dumps (roster_of asdict done)) true true) ->
  exists w1,
    save_all asdict rest w = (w1, Ok tt)
    /\ files w1 !! path
       = Some (File (json_dumps (roster_of asdict (done ++ rest))) true true)
    /\ forall q, q <> path -> files w1 !! q = files w !! q.
Proof.
  induction rest as [|p rest IH]; intros done w HF HN Ef.
  - exists w. rewrite app_nil_r. now split.
  - pose proof HF as HF'. apply Forall_app in HF' as (HFd & HFr).
    pose proof (Forall_inv HFr) as (Hp & _).
    assert (Hnot : code_name p ∉ map code_name done).
    { rewrite map_app in HN. cbn [map] in HN.
      apply NoDup_app in HN as (_ & Hd & _).
      intros Hin. apply (Hd _ Hin). left. }
    destruct (save_on_list_run asdict p w _ (map (fun q => JObj (asdict q)) done) false
                ltac:(rewrite Hp; exact Ef) eq_refl eq_refl) as (w1 & Es & Ef1).
    { cbn [content]. apply json_loads_dumps. now apply roster_of_wf. }
    { intros w'. now apply any_code_name_records. }
    destruct (IH (done ++ [p]) w1) as (w2 & Em & Ef2 & Hq2).
    + now rewrite <- app_assoc.
    + now rewrite <- app_assoc.
    + rewrite Ef1, Hp, lookup_insert_eq. unfold roster_of. now rewrite map_app.
    + exists w2. cbn [save_all]. unfold bind. rewrite Es. split_and!; [exact Em| |].
      * rewrite Ef2. now rewrite <- app_assoc.
      * intros q Hq. rewrite (Hq2 q Hq), Ef1, Hp. now apply lookup_insert_ne.
Qed.

(** The players of a lobby saved to a world without a roster file, and
    the roster loaded from the world they leave. *)
Lemma save_all_then_load (l : list PlayerState) (gs : GameState) (w : World) :
  Forall good l ->
  NoDup (map code_name l) ->
  player_path gs = path ->
  files w !! path = None ->
  exists w1 w2,
    save_all asdict l w = (w1, Ok tt)
    /\ (forall q, q <> path -> files w1 !! q = files w !! q)
    /\ load_players_from_lobby PlayerState_new gs w1 = (w2, Ok l).
Proof.
  intros HF HN Hg Ef.
  destruct l as [|p rest].
  - exists w, w. split_and!; [reflexivity|reflexivity|].
    unfold load_players_from_lobby, bind, path_exists. now rewrite Hg, Ef.
  - pose proof (Forall_inv HF) as (Hp & _).
    destruct (save_fresh_run asdict p w) as (w1 & Es & Ef1).
    { left. now rewrite Hp. }
    destruct (save_all_on_roster rest [p] w1 HF HN) as (w2 & Em & Ef2 & Hq2).
    { now rewrite Ef1, Hp, lookup_insert_eq. }
    exists w2. eexists. split_and!.
    { cbn [save_all]. unfold bind. now rewrite Es. }
    { intros q Hq. rewrite (Hq2 q Hq), Ef1, Hp. now apply lookup_insert_ne. }
    unfold load_players_from_lobby. unfold bind at 1. unfold path_exists.
    rewrite Hg, Ef2. cbn [negb].
    unfold bind at 1. unfold read_text. rewrite Ef2. cbn [readable content].
    unfold bind at 1. unfold json_load.
    rewrite json_loads_dumps by now apply roster_of_wf.
    cbn [of_option ret]. unfold bind. cbn [roster_of py_iter ret].
    change ([p] ++ rest) with (p :: rest).
    rewrite <- (map_map asdict JObj).
    rewrite (map_M_kwargs PlayerState_new (map asdict (p :: rest)) (p :: rest));
      [reflexivity|].
    clear -HF. induction HF as [|q l (_ & _ & _ & Hq) _ IH]; constructor; assumption.
Qed.


End SavedRoster.


(** X9. A roster file whose text is not JSON, the empty file among them, is
    not kept: the call returns and the roster is then the record of the
    player alone. *)
Theorem save_replaces_corrupt_roster
    (asdict : PlayerState -> list (string * json)) (ps : PlayerState)
    (w : World) (f : file) :
  files w !! lobby_file_path ps = Some f ->
  readable f = true -> writable f = true ->
  json_syntax (content f) = false ->
  snd (save_player_to_lobby_file asdict ps w) = Ok tt
  /\ files (fst (save_player_to_lobby_file asdict ps w))
     = <[lobby_file_path ps := File (json_dumps (JArr [JObj (asdict ps)])) true true]>
         (files w).
Proof.
  intros Ef R Wr Ej. apply not_json_not_decoded in Ej.
  destruct (save_fresh_run asdict ps w) as (w1 & -> & Ef1); [right; eauto|].
  now split.
Qed.

Lemma save_replaces_corrupt_roster_witness :
  files (fst (save_player_to_lobby_file ex_asdict (ex_player "ALPHA")
                ex_corrupt_roster_world))
  !! "./data/runtime/lobbies/lobby_7/players.json"
  = Some (File (json_dumps (JArr [JObj (ex_asdict (ex_player "ALPHA"))])) true true).
Proof.
  rewrite (proj2 (save_replaces_corrupt_roster ex_asdict (ex_player "ALPHA")
                    ex_corrupt_roster_world (File "{" true true)
                    eq_refl eq_refl eq_refl eq_refl)).
  reflexivity.
Defined.

(** X10. A call of [save_player_to_lobby_file] that raises leaves every
    file as it was; a call that returns has written the roster file, and no
    file but that one has changed.  The call ends either way. *)
Theorem save_changes_the_roster_or_nothing
    (asdict : PlayerState -> list (string * json)) (ps : PlayerState) (w : World) :
  (forall e, snd (save_player_to_lobby_file asdict ps w) = Raise e ->
     files (fst (save_player_to_lobby_file asdict ps w)) = files w)
  /\ (snd (save_player_to_lobby_file asdict ps w) = Ok tt ->
        exists players rd,
          files (fst (save_player_to_lobby_file asdict ps w))
          = <[lobby_file_path ps := File (json_dumps players) rd true]> (files w))
  /\ (forall p, p <> lobby_file_path ps ->
        files (fst (save_player_to_lobby_file asdict ps w)) !! p = files w !! p)
  /\ snd (save_player_to_lobby_file asdict ps w) <> OutOfFuel.
Proof.
  destruct (save_player_to_lobby_file asdict ps w) as [w1 r] eqn:E. cbn [fst snd].
  destruct (save_outcome asdict ps w w1 r E)
    as [((e & ->) & Hf)|(-> & players & rd & Hf)]; split_and!; try discriminate.
  - intros _ _. exact Hf.
  - intros p _. now rewrite Hf.
  - intros. now exists players, rd.
  - intros p Hp. rewrite Hf. now apply lookup_insert_ne.
Qed.

Lemma save_changes_the_roster_or_nothing_witness :
  files (fst (save_player_to_lobby_file ex_asdict (ex_player "ALPHA")
                (ex_roster_world (JObj []))))
  = files (ex_roster_world (JObj [])).
Proof.
  apply (proj1 (save_changes_the_roster_or_nothing ex_asdict (ex_player "ALPHA")
                  (ex_roster_world (JObj []))) AttributeError).
  vm_compute. reflexivity.
Defined.

(** X11. A roster file whose text is JSON but no list is never repaired:
    the call raises, a [TypeError] or an [AttributeError], and the file is
    left as it is.  So does a roster file that may not be read, with a
    [PermissionError]. *)
Theorem save_raises_on_roster_that_is_no_list
    (asdict : PlayerState -> list (string * json)) (ps : PlayerState)
    (w : World) (f : file) :
  files w !! lobby_file_path ps = Some f ->
  (readable f = false ->
     snd (save_player_to_lobby_file asdict ps w) = Raise PermissionError
     /\ files (fst (save_player_to_lobby_file asdict ps w)) = files w)
  /\ (forall v, readable f = true -> json_loads (content f) = Some v ->
        is_list v = false ->
        (snd (save_player_to_lobby_file asdict ps w) = Raise TypeError
         \/ snd (save_player_to_lobby_file asdict ps w) = Raise AttributeError)
        /\ files (fst (save_player_to_lobby_file asdict ps w)) = files w).
Proof.
  intros Ef. split.
  - intros R.
    assert (H : save_player_to_lobby_file asdict ps w
                = (log (EvOpenRead (lobby_file_path ps)) w, Raise PermissionError)).
    { rewrite save_player_body.
      unfold bind at 1. unfold path_exists. rewrite Ef.
      unfold bind at 1. unfold bind at 1. unfold read_text. now rewrite Ef, R. }
    now rewrite H.
  - intros v R Ej Hl.
    assert (H : exists e, (e = TypeError \/ e = AttributeError)
                /\ save_player_to_lobby_file asdict ps w
                   = (log (EvOpenRead (lobby_file_path ps)) w, Raise e)).
    { rewrite save_player_body.
      unfold bind at 1. unfold path_exists. rewrite Ef.
      unfold bind at 1. unfold bind at 1. unfold read_text. rewrite Ef, R.
      unfold try_except, json_load. rewrite Ej. cbn [of_option ret].
      destruct v as [ | b | z | [|c s] | l | [|[k x] kvs]]; try discriminate Hl;
        (exists TypeError; split; [now left|reflexivity])
        || (exists AttributeError; split; [now right|reflexivity]). }
    destruct H as (e & He & ->). cbn [fst snd]. split; [|reflexivity].
    destruct He as [-> | ->]; auto.
Qed.

Lemma save_raises_on_roster_that_is_no_list_witness :
  snd (save_player_to_lobby_file ex_asdict (ex_player "ALPHA")
         (ex_roster_world (JObj [("ALPHA", JInt 1)])))
  = Raise TypeError
  \/ snd (save_player_to_lobby_file ex_asdict (ex_player "ALPHA")
            (ex_roster_world (JObj [("ALPHA", JInt 1)])))
     = Raise AttributeError.
Proof.
  destruct (save_raises_on_roster_that_is_no_list ex_asdict (ex_player "ALPHA")
              (ex_roster_world (JObj [("ALPHA", JInt 1)])) _ eq_refl) as (_ & H).
  apply (H (JObj [("ALPHA", JInt 1)])); [reflexivity| |reflexivity].
  vm_compute. reflexivity.
Defined.

(** ** The start-time file and its directory *)

Lemma bare_name_no_slash p : bare_name p = true -> up_to_last_slash p = None.
Proof.
  unfold bare_name. induction p as [|c r IH]; [reflexivity|].
  cbn [forall_chars up_to_last_slash]. intros H.
  apply andb_true_iff in H as (Hc & Hr). rewrite (IH Hr).
  now destruct (Ascii.eqb c "/").
Qed.

Lemma up_to_last_slash_bare p : up_to_last_slash p = None -> bare_name p = true.
Proof.
  unfold bare_name. induction p as [|c r IH]; [reflexivity|].
  cbn [forall_chars up_to_last_slash].
  destruct (up_to_last_slash r); [discriminate|].
  destruct (Ascii.eqb c "/"); [discriminate|]. intros _. now rewrite IH.
Qed.

Lemma up_to_last_slash_nonempty p h : up_to_last_slash p = Some h -> h <> "".
Proof.
  destruct p as [|c r]; [discriminate|]. cbn [up_to_last_slash].
  destruct (up_to_last_slash r); [|destruct (Ascii.eqb c "/")];
    intros [= <-]; discriminate.
Qed.

Lemma rstrip_slashes_empty s :
  rstrip_slashes s = "" -> forall_chars (Ascii.eqb "/") s = true.
Proof.
  induction s as [|c r IH]; [reflexivity|].
  cbn [rstrip_slashes forall_chars].
  destruct (rstrip_slashes r); [|discriminate].
  rewrite (IH eq_refl). rewrite Ascii.eqb_sym.
  destruct (Ascii.eqb "/" c); [reflexivity|discriminate].
Qed.

(** [os.path.dirname(p)] is empty exactly when [p] has no slash. *)
Lemma dirname_empty p : dirname p = "" <-> bare_name p = true.
Proof.
  unfold dirname. split.
  - destruct (up_to_last_slash p) as [h|] eqn:E; [|intros _; now apply up_to_last_slash_bare].
    pose proof (up_to_last_slash_nonempty _ _ E) as Hn.
    destruct (forall_chars (Ascii.eqb "/") h) eqn:A; [congruence|].
    intros H. apply rstrip_slashes_empty in H. congruence.
  - intros H. now rewrite (bare_name_no_slash _ H).
Qed.

Lemma makedirs_dirname path w :
  makedirs (dirname path) w
  = (w, if bare_name path then Raise FileNotFoundError else Ok tt).
Proof.
  unfold makedirs. destruct (bare_name path) eqn:B.
  - apply dirname_empty in B. now rewrite B.
  - destruct (dirname path) eqn:D; [|reflexivity].
    apply dirname_empty in D. congruence.
Qed.

Lemma init_game_file_run path w :
  init_game_file path w
  = if bare_name path then (w, Raise FileNotFoundError)
    else if ends_with_slash path then (w, Ok tt)
    else match files w !! path with
         | Some _ => (w, Ok tt)
         | None => (mkWorld (<[path := File "" true true]> (files w))
                            (events w ++ [EvWrite path ""]), Ok tt)
         end.
Proof.
  unfold init_game_file. unfold bind at 1. rewrite makedirs_dirname.
  destruct (bare_name path); [reflexivity|].
  unfold bind, path_exists_in_made_dir, bind, path_exists, ret.
  destruct (files w !! path) eqn:E; cbn [orb negb].
  - now destruct (ends_with_slash path).
  - destruct (ends_with_slash path); [reflexivity|].
    cbn [negb]. unfold write_text. now rewrite E.
Qed.



Section BareName.

Variable PlayerState_new : list (string * json) -> PlayerState + exn.

(** X13. A path without a directory part cannot be initialised: the
    directory name is empty, [os.makedirs] raises on it, and
    [init_game_file] raises [FileNotFoundError] without creating the file.
    With such a start-time path no call of [synchronize_start_time] that
    finds no file returns: it raises and leaves the files as they are, so
    the start-time file is never written. *)
Theorem start_time_path_needs_a_directory (path : string) (w : World) :
  bare_name path = true ->
  init_game_file path w = (w, Raise FileNotFoundError)
  /\ forall now fuel gs ps,
       start_time_path gs = path ->
       files w !! path = None ->
       (exists e, snd (synchronize_start_time PlayerState_new now fuel gs ps w)
                  = Raise e)
       /\ files (fst (synchronize_start_time PlayerState_new now fuel gs ps w))
          = files w.
Proof.
  intros B. split; [now rewrite init_game_file_run, B|].
  intros now fuel gs ps Hp Ef.
  assert (H : exists w1 e,
    synchronize_start_time PlayerState_new now fuel gs ps w = (w1, Raise e)
    /\ files w1 = files w).
  { rewrite (synchronize_absent_eq PlayerState_new now fuel gs ps w)
      by now rewrite Hp.
    pose proof (load_players_keeps_files PlayerState_new gs w) as Hk.
    pose proof (terminates_load_players PlayerState_new gs w) as Ht.
    unfold bind at 1.
    destruct (load_players_from_lobby PlayerState_new gs w) as [w1 [loaded|e|]];
      cbn [fst snd] in *; [|eauto|congruence].
    unfold bind. rewrite Hp, init_game_file_run, B. eauto. }
  destruct H as (w1 & e & -> & Hf). cbn [fst snd]. eauto.
Qed.

End BareName.

Lemma start_time_path_needs_a_directory_witness :
  init_game_file "start_time.txt" (mkWorld ∅ [])
  = (mkWorld ∅ [], Raise FileNotFoundError)
  /\ exists e,
       snd (synchronize_start_time ex_PlayerState_new ex_now 1
              (mkGameState "start_time.txt"
                 "./data/runtime/lobbies/lobby_7/players.json" [])
              (ex_player "ALPHA") (mkWorld ∅ []))
       = Raise e.
Proof.
  destruct (start_time_path_needs_a_directory ex_PlayerState_new "start_time.txt"
              (mkWorld ∅ []) eq_refl) as (H1 & H2).
  split; [exact H1|].
  apply (H2 ex_now 1%nat
           (mkGameState "start_time.txt"
              "./data/runtime/lobbies/lobby_7/players.json" [])
           (ex_player "ALPHA")); reflexivity.
Defined.

Section Skew.

Variable PlayerState_new : list (string * json) -> PlayerState + exn.


End Skew.


(** ** The list file and the items it yields *)

(** X15. A list file whose JSON value is no object never yields items, and
    is not reported as an [IOError]: a list raises [TypeError] when the key
    is one of its elements and [ValueError] otherwise, a string raises
    [TypeError] when the key occurs in it and [ValueError] otherwise, and a
    number, a truth value or null raises [TypeError].  The files are left
    as they are. *)
Theorem load_items_on_value_that_is_no_object
    (list_path key : string) (w : World) (f : file) (v : json) :
  files w !! list_path = Some f ->
  readable f = true ->
  json_loads (content f) = Some v ->
  (forall kvs, v <> JObj kvs) ->
  snd (_load_items list_path key w)
  = Raise (match v with
           | JArr l =>
               if existsb (fun x => json_eq_str x key) l then TypeError
               else ValueError
           | JStr s => if substring_of key s then TypeError else ValueError
           | _ => TypeError
           end)
  /\ files (fst (_load_items list_path key w)) = files w.
Proof.
  intros Ef R Ej Hv. split; [|apply load_items_keeps_files].
  pose proof (load_items_cases list_path key w) as A.
  rewrite Ef in A. cbv zeta in A. rewrite R, Ej in A. cbn [negb] in A.
  destruct v as [ | b | z | s | l | kvs]; try (now rewrite A).
  now destruct (Hv kvs).
Qed.

Lemma load_items_on_value_that_is_no_object_witness :
  snd (_load_items "names.json" "names"
         (ex_list_world (JArr [JStr "alpha"; JStr "names"])))
  = Raise TypeError
  /\ snd (_load_items "names.json" "names" (ex_list_world (JArr [JStr "alpha"])))
     = Raise ValueError.
Proof.
  split.
  - apply (load_items_on_value_that_is_no_object "names.json" "names"
             (ex_list_world (JArr [JStr "alpha"; JStr "names"])) _
             (JArr [JStr "alpha"; JStr "names"]) eq_refl eq_refl).
    + vm_compute. reflexivity.
    + discriminate.
  - apply (load_items_on_value_that_is_no_object "names.json" "names"
             (ex_list_world (JArr [JStr "alpha"])) _
             (JArr [JStr "alpha"]) eq_refl eq_refl).
    + vm_compute. reflexivity.
    + discriminate.
Defined.

Lemma in_all_chars c : In c all_chars.
Proof.
  unfold all_chars. rewrite <- (ascii_nat_embedding c).
  apply in_map, in_seq. pose proof (nat_ascii_bounded c). lia.
Qed.

(** A property of characters that holds of each of the 256. *)
Lemma for_all_chars (P : ascii -> bool) :
  forallb P all_chars = true -> forall c, P c = true.
Proof. intros H c. rewrite forallb_forall in H. apply H, in_all_chars. Qed.

(** A white-space character has no capital but itself. *)
Lemma upper_char_space c : isspace c = true -> upper_char c = String c EmptyString.
Proof.
  intros H.
  pose proof (for_all_chars
    (fun c => implb (isspace c) (String.eqb (upper_char c) (String c EmptyString)))
    ltac:(vm_compute; reflexivity) c) as A.
  cbv beta in A. rewrite H in A. now apply String.eqb_eq in A.
Qed.

(** The capital of any other character is one or two characters, none of
    them white space. *)
Lemma upper_char_not_space c :
  isspace c = false ->
  exists d t, upper_char c = String d t /\ isspace d = false
              /\ forall_chars not_space t = true.
Proof.
  intros H.
  pose proof (for_all_chars
    (fun c => isspace c
              || match upper_char c with
                 | String d t => negb (isspace d) && forall_chars not_space t
                 | EmptyString => false
                 end)
    ltac:(vm_compute; reflexivity) c) as A.
  cbv beta in A. rewrite H in A. cbn [orb] in A.
  destruct (upper_char c) as [|d t]; [discriminate|].
  apply andb_true_iff in A as [A1 A2]. apply negb_true_iff in A1. eauto.
Qed.

Lemma upper_char_idem c : upper (upper_char c) = upper_char c.
Proof.
  apply String.eqb_eq.
  apply (for_all_chars (fun c => String.eqb (upper (upper_char c)) (upper_char c))).
  vm_compute. reflexivity.
Qed.

Lemma upper_char_no_lower_case c :
  negb (code c =? 181) && negb (code c =? 255) = true ->
  no_lower_case (upper_char c) = true.
Proof.
  intros H.
  pose proof (for_all_chars
    (fun c => implb (negb (code c =? 181) && negb (code c =? 255))
                    (no_lower_case (upper_char c)))
    ltac:(vm_compute; reflexivity) c) as A.
  cbv beta in A. now rewrite H in A.
Qed.

Lemma upper_app a b : upper (a +:+ b) = upper a +:+ upper b.
Proof.
  induction a as [|c a IH]; [reflexivity|].
  rewrite app_cons_str. cbn [upper]. now rewrite IH, app_assoc_str.
Qed.

Lemma forall_chars_app P a b :
  forall_chars P (a +:+ b) = forall_chars P a && forall_chars P b.
Proof.
  induction a as [|c a IH]; [reflexivity|].
  rewrite app_cons_str. cbn [forall_chars]. now rewrite IH, andb_assoc.
Qed.

Lemma rstrip_app_not_space u x :
  forall_chars not_space u = true -> rstrip (u +:+ x) = u +:+ rstrip x.
Proof.
  induction u as [|d t IH]; [reflexivity|]. cbn [forall_chars].
  intros [Hd Ht]%andb_true_iff. rewrite !app_cons_str, rstrip_eq, (IH Ht).
  unfold not_space in Hd. apply negb_true_iff in Hd. rewrite Hd.
  now destruct (t +:+ rstrip x).
Qed.

Lemma lstrip_upper s : lstrip (upper s) = upper (lstrip s).
Proof.
  induction s as [|c r IH]; [reflexivity|].
  cbn [upper lstrip]. destruct (isspace c) eqn:S.
  - rewrite (upper_char_space c S), app_cons_str, app_nil_l_str.
    cbn [lstrip]. now rewrite S.
  - destruct (upper_char_not_space c S) as (d & t & E & Hd & _).
    rewrite E, app_cons_str. cbn [lstrip upper]. rewrite Hd.
    now rewrite E, app_cons_str.
Qed.

Lemma rstrip_upper s : rstrip (upper s) = upper (rstrip s).
Proof.
  induction s as [|c r IH]; [reflexivity|].
  cbn [upper]. rewrite rstrip_eq. destruct (isspace c) eqn:S.
  - rewrite (upper_char_space c S), app_cons_str, app_nil_l_str.
    rewrite rstrip_eq, IH, S.
    destruct (rstrip r) as [|a b] eqn:Er; [reflexivity|].
    cbn [upper]. destruct (upper_char_head a) as (d & t & ->).
    rewrite (upper_char_space c S). reflexivity.
  - destruct (upper_char_not_space c S) as (d & t & E & Hd & Ht).
    rewrite rstrip_app_not_space, IH.
    + destruct (rstrip r); cbn [upper]; [|reflexivity].
      now rewrite app_nil_r_str.
    + rewrite E. cbn [forall_chars]. unfold not_space at 1. now rewrite Hd, Ht.
Qed.

Lemma strip_upper s : strip (upper s) = upper (strip s).
Proof. unfold strip. now rewrite lstrip_upper, rstrip_upper. Qed.

Lemma upper_idem s : upper (upper s) = upper s.
Proof.
  induction s as [|c r IH]; [reflexivity|].
  cbn [upper]. now rewrite upper_app, upper_char_idem, IH.
Qed.

Lemma upper_no_lower_case s :
  upper_in_alphabet s = true -> no_lower_case (upper s) = true.
Proof.
  unfold upper_in_alphabet. induction s as [|c r IH]; [reflexivity|].
  cbn [upper forall_chars]. intros [Hc Hr]%andb_true_iff.
  assert (A : no_lower_case (upper_char c +:+ upper r)
              = no_lower_case (upper_char c) && no_lower_case (upper r))
    by apply forall_chars_app.
  rewrite A, (upper_char_no_lower_case c Hc). now apply IH.
Qed.

Lemma forall_chars_lstrip P s :
  forall_chars P s = true -> forall_chars P (lstrip s) = true.
Proof.
  induction s as [|c r IH]; [reflexivity|]. cbn [lstrip].
  destruct (isspace c); [|auto]. cbn [forall_chars].
  intros [_ Hr]%andb_true_iff. auto.
Qed.

Lemma forall_chars_rstrip P s :
  forall_chars P s = true -> forall_chars P (rstrip s) = true.
Proof.
  induction s as [|c r IH]; [reflexivity|]. rewrite rstrip_eq. cbn [forall_chars].
  intros [Hc Hr]%andb_true_iff. specialize (IH Hr).
  destruct (rstrip r).
  - destruct (isspace c); [reflexivity|]. cbn [forall_chars]. now rewrite Hc.
  - cbn [forall_chars] in *. now rewrite Hc.
Qed.

Lemma upper_in_alphabet_strip s :
  upper_in_alphabet s = true -> upper_in_alphabet (strip s) = true.
Proof.
  unfold upper_in_alphabet, strip. intros H.
  now apply forall_chars_rstrip, forall_chars_lstrip.
Qed.

(** An item is what [strip] and [upper] leave as it is. *)
Lemma clean_items_canonical x source :
  Forall (fun s => upper_in_alphabet s = true) (nonblank source) ->
  x ∈ clean_items source ->
  x <> "" /\ strip x = x /\ upper x = x /\ no_lower_case x = true.
Proof.
  intros Ha H. unfold clean_items in H.
  apply list_elem_of_fmap in H as (s & -> & Hs).
  assert (Hs' : upper_in_alphabet s = true).
  { rewrite Forall_forall in Ha. now apply Ha. }
  apply list_elem_of_filter in Hs as [Ht Hs].
  split_and!.
  - apply truthy_nonempty. now rewrite upper_truthy.
  - now rewrite strip_upper, strip_idem.
  - apply upper_idem.
  - now apply upper_no_lower_case, upper_in_alphabet_strip.
Qed.

Lemma clean_items_fixed l :
  Forall (fun x => x <> "" /\ strip x = x /\ upper x = x) l -> clean_items l = l.
Proof.
  unfold clean_items. induction 1 as [|x l (Hn & Hs & Hu) _ IH]; [reflexivity|].
  rewrite filter_cons, decide_True.
  - cbn [map]. now rewrite Hs, Hu, IH.
  - rewrite Hs. now apply truthy_nonempty.
Qed.

(** X16. The items of an assigner constructed from a list file that the
    decoder reads: none is empty, and there are at most as many as the list
    of the file has entries.  When the capitals of the entries that are not
    blank are in the alphabet, the items are in their final form: none has
    white space around it, none has a character that [str.upper] changes,
    and stripping and upper-casing them again changes nothing. *)
Theorem constructed_items_are_canonical
    (list_path index_path key : string) (w0 w1 : World) (self : SequentialAssigner)
    (f : file) (v : json) :
  SequentialAssigner_init list_path index_path key w0 = (w1, Ok self) ->
  files w0 !! list_path = Some f ->
  json_loads (content f) = Some v ->
  exists kvs source,
    v = JObj kvs
    /\ dict_get key kvs = Some (JArr (map JStr source))
    /\ (length (items self) <= length source)%nat
    /\ Forall (fun x => x <> "") (items self)
    /\ (Forall (fun s => upper_in_alphabet s = true) (nonblank source) ->
          Forall (fun x => strip x = x /\ upper x = x /\ no_lower_case x = true)
                 (items self)
          /\ clean_items (items self) = items self).
Proof.
  intros E Ef Ev. unfold SequentialAssigner_init, bind in E.
  destruct (_load_items list_path key w0) as [w1' [its|e|]] eqn:El; try discriminate.
  cbn [ret] in E. injection E as <- <-. cbn [items].
  destruct (load_items_ok _ _ _ _ _ El) as (f' & kvs & source & Ef' & R & Ej & Ed & -> & _).
  rewrite Ef in Ef'. injection Ef' as <-. rewrite Ev in Ej. injection Ej as ->.
  exists kvs, source. split_and!; try reflexivity; try assumption.
  - rewrite clean_items_length. unfold nonblank. apply length_filter.
  - apply Forall_forall. intros x Hx. apply clean_items_elem in Hx as [Ht _].
    now apply truthy_nonempty.
  - intros Ha.
    assert (HF : Forall (fun x => x <> "" /\ strip x = x /\ upper x = x
                                 /\ no_lower_case x = true) (clean_items source)).
    { apply Forall_forall. intros x. now apply clean_items_canonical. }
    split.
    + eapply Forall_impl; [exact HF|]. intros x (_ & B & C & D). auto.
    + apply clean_items_fixed. eapply Forall_impl; [exact HF|].
      intros x (A & B & C & _). auto.
Qed.

Lemma constructed_items_are_canonical_witness :
  exists self,
    snd (SequentialAssigner_init "names.json" "names.idx" "names"
           (ex_list_world ex_names)) = Ok self
    /\ Forall (fun x => strip x = x /\ upper x = x /\ no_lower_case x = true)
              (items self)
    /\ clean_items (items self) = items self.
Proof.
  exists (mkAssigner "names.json" "names.idx" "names" ["ALPHA"; "BRAVO"; "CHARLIE"]).
  split; [vm_compute; reflexivity|].
  destruct (constructed_items_are_canonical "names.json" "names.idx" "names"
              (ex_list_world ex_names)
              (fst (SequentialAssigner_init "names.json" "names.idx" "names"
                      (ex_list_world ex_names)))
              (mkAssigner "names.json" "names.idx" "names"
                 ["ALPHA"; "BRAVO"; "CHARLIE"])
              (File (json_dumps ex_names) true true) ex_names)
    as (kvs & source & Ev & Ed & _ & _ & H).
  - vm_compute. reflexivity.
  - reflexivity.
  - vm_compute. reflexivity.
  - injection Ev as <-. injection Ed as Es.
    change (map JStr [" alpha "; "  "; "bravo"; "Charlie"] = map JStr source) in Es.
    apply map_JStr_eq in Es as <-.
    apply H. vm_compute. repeat constructor.
Defined.

(** ** A roster that cannot be loaded *)

Section BadRoster.

Variable PlayerState_new : list (string * json) -> PlayerState + exn.

(** The list comprehension stops at the first element that is no record
    of a player. *)
Lemma map_M_first_bad recs x rest e w :
  Forall (fun kw => exists p, PlayerState_new kw = inl p) recs ->
  (forall w', PlayerState_kwargs PlayerState_new x w' = (w', Raise e)) ->
  map_M (PlayerState_kwargs PlayerState_new) (map JObj recs ++ x :: rest) w
  = (w, Raise e).
Proof.
  intros HF Hx. induction HF as [|kw recs (p & Hp) _ IH].
  - cbn [map app map_M]. unfold bind. now rewrite Hx.
  - cbn [map app map_M]. unfold bind. cbn [PlayerState_kwargs]. rewrite Hp.
    cbn [ret]. now rewrite IH.
Qed.

Lemma load_players_run gs w f :
  files w !! player_path gs = Some f ->
  readable f = true ->
  load_players_from_lobby PlayerState_new gs w
  = (data <- json_load (content f) ;;
     elems <- py_iter data ;;
     map_M (PlayerState_kwargs PlayerState_new) elems)
      (log (EvOpenRead (player_path gs)) w).
Proof.
  intros E R. unfold load_players_from_lobby. unfold bind at 1.
  unfold path_exists. rewrite E. cbn [negb].
  unfold bind at 1. unfold read_text. now rewrite E, R.
Qed.

(** X17. [load_players_from_lobby] does not repair a roster: a file that
    may not be read raises [PermissionError]; a text that is not JSON, the
    empty file among them, raises [JSONDecodeError]; in a list, the first
    record that the constructor rejects raises what the constructor
    raises, and the first element that is no record raises [TypeError].
    No list of the players before that element is returned, and the files
    are left as they are. *)
Theorem load_players_raises_on_bad_roster (gs : GameState) (w : World) (f : file) :
  files w !! player_path gs = Some f ->
  files (fst (load_players_from_lobby PlayerState_new gs w)) = files w
  /\ (readable f = false ->
        snd (load_players_from_lobby PlayerState_new gs w) = Raise PermissionError)
  /\ (readable f = true -> json_syntax (content f) = false ->
        snd (load_players_from_lobby PlayerState_new gs w) = Raise JSONDecodeError)
  /\ (forall recs kw e rest,
        readable f = true ->
        json_loads (content f) = Some (JArr (map JObj recs ++ JObj kw :: rest)) ->
        Forall (fun kw => exists p, PlayerState_new kw = inl p) recs ->
        PlayerState_new kw = inr e ->
        snd (load_players_from_lobby PlayerState_new gs w) = Raise e)
  /\ (forall recs x rest,
        readable f = true ->
        json_loads (content f) = Some (JArr (map JObj recs ++ x :: rest)) ->
        Forall (fun kw => exists p, PlayerState_new kw = inl p) recs ->
        (forall kw, x <> JObj kw) ->
        snd (load_players_from_lobby PlayerState_new gs w) = Raise TypeError).
Proof.
  intros E. split_and!.
  - apply load_players_keeps_files.
  - intros R. unfold load_players_from_lobby. unfold bind at 1.
    unfold path_exists. rewrite E. cbn [negb].
    unfold bind at 1. unfold read_text. now rewrite E, R.
  - intros R Ej. apply not_json_not_decoded in Ej.
    rewrite (load_players_run _ _ _ E R).
    unfold bind, json_load. now rewrite Ej.
  - intros recs kw e rest R Ej HF Hkw. rewrite (load_players_run _ _ _ E R).
    unfold bind at 1. unfold json_load. rewrite Ej. cbn [of_option ret].
    unfold bind. cbn [py_iter ret].
    rewrite (map_M_first_bad recs (JObj kw) rest e); [reflexivity|exact HF|].
    intros w'. cbn [PlayerState_kwargs]. now rewrite Hkw.
  - intros recs x rest R Ej HF Hx. rewrite (load_players_run _ _ _ E R).
    unfold bind at 1. unfold json_load. rewrite Ej. cbn [of_option ret].
    unfold bind. cbn [py_iter ret].
    rewrite (map_M_first_bad recs x rest TypeError); [reflexivity|exact HF|].
    intros w'. destruct x; try reflexivity. now destruct (Hx kvs).
Qed.

End BadRoster.

Lemma load_players_raises_on_bad_roster_witness :
  snd (load_players_from_lobby ex_PlayerState_new ex_game ex_corrupt_roster_world)
  = Raise JSONDecodeError
  /\ snd (load_players_from_lobby ex_PlayerState_new ex_game
            (ex_roster_world (JArr [JObj (ex_asdict (ex_player "ALPHA")); JInt 7])))
     = Raise TypeError.
Proof.
  split.
  - apply (load_players_raises_on_bad_roster ex_PlayerState_new ex_game
             ex_corrupt_roster_world (File "{" true true) eq_refl); reflexivity.
  - destruct (load_players_raises_on_bad_roster ex_PlayerState_new ex_game
                (ex_roster_world
                   (JArr [JObj (ex_asdict (ex_player "ALPHA")); JInt 7]))
                _ eq_refl) as (_ & _ & _ & _ & H).
    apply (H [ex_asdict (ex_player "ALPHA")] (JInt 7) []).
    + reflexivity.
    + vm_compute. reflexivity.
    + repeat constructor. now exists (ex_player "ALPHA").
    + discriminate.
Defined.

(** ** Files made by [init_game_file] *)



Lemma strptime_valid s t :
  strptime s = Some t -> valid_datetime t = true /\ microsecond t = 0.
Proof.
  unfold strptime. intros H.
  repeat match type of H with
  | context [match_alternatives ?d ?x] =>
      destruct (match_alternatives d x) as [[? ?]|]; cbn [mbind option_bind] in H;
      [|discriminate H]
  | context [expect ?c ?x] =>
      destruct (expect c x); cbn [mbind option_bind] in H; [|discriminate H]
  | context [expect_spaces ?x] =>
      destruct (expect_spaces x); cbn [mbind option_bind] in H; [|discriminate H]
  end.
  match type of H with
  | (match ?x with EmptyString => _ | _ => _ end) = _ => destruct x; [|discriminate H]
  end.
  match type of H with
  | (if ?b then _ else _) = _ => destruct b eqn:V; [|discriminate H]
  end.
  injection H as <-. now split.
Qed.

Section EmptyStartTime.

Variable PlayerState_new : list (string * json) -> PlayerState + exn.


(** X20. A call that finds a start-time file writes nothing, whatever the
    file holds.  When it returns, the game state and the timekeeper flag
    are as they were, and the start time is a time that the file holds: a
    valid date and time of day, to the second. *)
Theorem start_time_read_from_file
    (now : datetime) (fuel : nat) (gs gs' : GameState) (ps ps' : PlayerState)
    (w : World) (f : file) :
  files w !! start_time_path gs = Some f ->
  files (fst (synchronize_start_time PlayerState_new now fuel gs ps w)) = files w
  /\ (readable f = false -> (0 < fuel)%nat ->
        snd (synchronize_start_time PlayerState_new now fuel gs ps w)
        = Raise PermissionError)
  /\ (snd (synchronize_start_time PlayerState_new now fuel gs ps w) = Ok (gs', ps') ->
        gs' = gs
        /\ timekeeper ps' = timekeeper ps
        /\ lobby_id ps' = lobby_id ps /\ code_name ps' = code_name ps
        /\ exists t, starttime ps' = Some t
             /\ strptime (strip (content f)) = Some t
             /\ valid_datetime t = true /\ microsecond t = 0).
Proof.
  intros E. destruct fuel as [|fuel].
  - rewrite (synchronize_present_no_fuel PlayerState_new now gs ps w f E).
    cbn [fst snd]. split_and!; [reflexivity|intros; lia|discriminate].
  - rewrite (synchronize_present PlayerState_new now fuel gs ps w f E).
    cbn [fst snd log files]. split_and!; [reflexivity| |].
    + now intros ->.
    + destruct (readable f); [|discriminate].
      destruct (strptime (strip (content f))) as [t|] eqn:P; [|discriminate].
      intros [= <- <-]. cbn. split_and!; try reflexivity.
      exists t. destruct (strptime_valid _ _ P). auto.
Qed.

End EmptyStartTime.


Lemma start_time_read_from_file_witness :
  snd (synchronize_start_time ex_PlayerState_new ex_now 1 ex_game (ex_player "BRAVO")
         (mkWorld {[ start_time_path ex_game
                       := File " 2024-2-29  9:05:59 " true true ]} []))
  = Ok (ex_game, mkPlayerState "7" "BRAVO" false (Some (mkDatetime 2024 2 29 9 5 59 0)))
  /\ exists t,
       strptime (strip " 2024-2-29  9:05:59 ") = Some t
       /\ valid_datetime t = true /\ microsecond t = 0.
Proof.
  assert (E : files (mkWorld {[ start_time_path ex_game
                                  := File " 2024-2-29  9:05:59 " true true ]} [])
              !! start_time_path ex_game
              = Some (File " 2024-2-29  9:05:59 " true true)) by reflexivity.
  destruct (start_time_read_from_file ex_PlayerState_new ex_now 1 ex_game ex_game
              (ex_player "BRAVO")
              (mkPlayerState "7" "BRAVO" false (Some (mkDatetime 2024 2 29 9 5 59 0)))
              _ _ E)
    as (_ & _ & H).
  split; [reflexivity|].
  destruct (H eq_refl) as (_ & _ & _ & _ & t & _ & Et & Hv & Hm).
  exists t. auto.
Defined.

(** ** From the roster to the timekeeper *)

Section RosterToTimekeeper.

Variable asdict : PlayerState -> list (string * json).
Variable PlayerState_new : list (string * json) -> PlayerState + exn.


End RosterToTimekeeper.

